(** * FeedVox AI desktop shell: the local backend supervisor

    A shallow embedding of the Electron main process of the desktop
    application (the file with [startBackend], [stopBackend],
    [restartBackend], [checkBackendWithHttp], [updateTrayMenu] and the
    single-instance lock), and the properties of the backend supervisor
    proved or refuted on it.

    The main process is a single-threaded event loop.  Every [async]
    function is cut at its [await]s and at its [setTimeout]s: the part that
    runs to the next suspension is a pure state transformer, and the
    suspended rest is an entry of the table [pending].  What the outside
    decides (which callback runs next, what a health probe answers, when a
    child process closes) is the [event] that drives a step.

    Left out: the window and menu layout, the file dialogs, the renderer,
    the diagnostic [test-backend-connection] handler and what goes to the
    console only. *)

From stdpp Require Import gmap strings list.
From Stdlib Require Import ZArith Lia.

Local Open Scope string_scope.
Local Open Scope list_scope.

(** ** The health probe: [checkBackendWithHttp] *)

Module Prober.

(** [const hostnames = ['127.0.0.1', 'localhost']] *)
Definition hostnames : list string := ["127.0.0.1"; "localhost"].

(** A JavaScript promise is pending, fulfilled with a value, or rejected. *)
Inductive promise_state :=
| Pending
| Resolved (v : bool)
| Rejected.

(** The closure state of one [checkBackendWithHttp()] call: the counter
    [attempts], the promise it returned, the requests issued so far (the
    host of each, oldest first) and the requests on which [req.destroy()]
    was called. *)
Record st := St {
  attempts : nat;
  promise : promise_state;
  requests : list string;
  destroyed : list nat
}.

(** What Node's [http] client delivers to the handlers registered by
    [tryConnection]; [req] is the index of the request in [requests]. *)
Inductive callback :=
| OnResponse (req : nat) (statusCode : Z)
| OnError (req : nat)
| OnTimeout (req : nat).

Definition req_of (cb : callback) : nat :=
  match cb with
  | OnResponse r _ => r
  | OnError r => r
  | OnTimeout r => r
  end.

(** [resolve(v)]: settles the promise the first time only. *)
Definition resolve (v : bool) (s : st) : st :=
  match promise s with
  | Pending => St (attempts s) (Resolved v) (requests s) (destroyed s)
  | _ => s
  end.

(** [tryConnection(hostname)]: issues the request; its three handlers are
    the cases of [deliver]. *)
Definition tryConnection (hostname : string) (s : st) : st :=
  St (attempts s) (promise s) (requests s ++ [hostname]) (destroyed s).

(** [tryNextHost()] *)
Definition tryNextHost (s : st) : st :=
  let s1 := St (S (attempts s)) (promise s) (requests s) (destroyed s) in
  if decide (attempts s1 < length hostnames) then
    match hostnames !! attempts s1 with
    | Some h => tryConnection h s1
    | None => s1
    end
  else resolve false s1.

Definition destroy (req : nat) (s : st) : st :=
  St (attempts s) (promise s) (requests s) (req :: destroyed s).

(** The executor: [tryConnection(hostnames[0])]. *)
Definition start : st :=
  let s0 := St 0 Pending [] [] in
  match hostnames !! 0%nat with
  | Some h => tryConnection h s0
  | None => s0
  end.

(** One callback.  A callback for a request that was never issued cannot
    happen ([None]). *)
Definition deliver (s : st) (cb : callback) : option st :=
  if decide (req_of cb < length (requests s)) then
    Some match cb with
         | OnResponse _ code =>
             if decide (code = 200%Z) then resolve true s else tryNextHost s
         | OnError _ => tryNextHost s
         | OnTimeout r => tryNextHost (destroy r s)
         end
  else None.

Fixpoint run (s : st) (cbs : list callback) : option st :=
  match cbs with
  | [] => Some s
  | cb :: rest =>
      match deliver s cb with
      | Some s' => run s' rest
      | None => None
      end
  end.

(** The value the awaiting caller gets, once the promise is settled. *)
Definition result (s : st) : option bool :=
  match promise s with
  | Resolved v => Some v
  | _ => None
  end.


(** *** The closure between two callbacks *)

(** The hosts contacted are the first [attempts + 1] of the list, and the
    answer [false] was given only once the counter passed the list. *)
Definition well_formed (s : st) : Prop :=
  requests s = take (S (attempts s)) hostnames /\
  (promise s = Resolved false -> length hostnames <= attempts s).

(** A callback that is not a response with status 200: the ones that make
    [tryConnection]'s handlers call [tryNextHost()]. *)
Definition failure (cb : callback) : bool :=
  match cb with
  | OnResponse _ code => negb (bool_decide (code = 200%Z))
  | _ => true
  end.

End Prober.

(** ** The [second-instance] handler *)

Module SingleInstance.

(** Calls on the main window. *)
Inductive winop := Restore | Show | Focus.

(** The [second-instance] handler of the instance that holds the lock.
    [isMinimized] and [isVisible] are what [mainWindow.isMinimized()] and
    [mainWindow.isVisible()] answer when the handler asks. *)
Definition second_instance (mainWindow isMinimized isVisible : bool) : list winop :=
  if mainWindow then
    (if isMinimized then [Restore] else []) ++
    (if negb isVisible then [Show] else []) ++
    [Focus]
  else [].

#[global] Instance winop_eq_dec : EqDecision winop.
Proof. solve_decision. Defined.

End SingleInstance.

(** ** The supervisor: process lifecycle, status checks, tray *)

Module Supervisor.

Abbreviation pid := nat (only parsing).
Abbreviation tid := nat (only parsing).
Abbreviation cid := nat (only parsing).

(** [const BACKEND_URL = 'http://localhost:7717'] *)
Definition BACKEND_URL : string := "http://localhost:7717".
Definition health_url : string := (BACKEND_URL ++ "/health")%string.

(** The machine the application runs on, as far as [startBackend] reads
    it. *)
Record host := Host {
  isPackaged : bool;            (* [app.isPackaged] *)
  resourcesPath : string;       (* [process.resourcesPath] *)
  dirname : string;             (* [__dirname] *)
  parentDir : string;           (* [path.dirname(__dirname)] *)
  existsSync : string -> bool;  (* [fs.existsSync] *)
  win32 : bool                  (* [process.platform === 'win32'] *)
}.

(** [path.join] of segments that need no normalisation. *)
Definition path_join (parts : list string) : string := String.concat "/" parts.

Definition backendPath (h : host) : string :=
  if isPackaged h then path_join [resourcesPath h; "backend"]
  else path_join [dirname h; "backend"].

Definition pythonExecutable (h : host) : string :=
  if isPackaged h
  then path_join [resourcesPath h; "backend"; "venv"; "Scripts"; "python.exe"]
  else path_join [parentDir h; "venv"; "Scripts"; "python.exe"].

Definition mainPyPath (h : host) : string := path_join [backendPath h; "main.py"].

Inductive signal := SIGTERM | SIGKILL.

Inductive fn := FnStart | FnStop | FnRestart.

(** Who awaits [startBackend()]. *)
Inductive after_start :=
| ThenBoot       (* the [whenReady] callback: the tray timers follow *)
| ThenRestart    (* [restartBackend] *)
| ThenNothing.   (* the tray menu item: not awaited *)

(** Who awaits [killExistingBackends()]. *)
Inductive after_kill :=
| KillForStart (k : after_start)
| KillForRestart.

(** Who awaits [checkBackendStatus()]. *)
Inductive after_status :=
| ForBoot                      (* the [whenReady] callback *)
| ForStart (k : after_start)   (* [startBackend], before it spawns *)
| ForReady (attempts : nat)    (* [checkReady], with its counter *)
| ForUser.                     (* a menu item or the IPC handler *)

(** The callbacks given to [setTimeout]. *)
Inductive timer_callback :=
| KillWait (k : after_kill)    (* [killExistingBackends]: the 2000 ms wait *)
| Settle                       (* [restartBackend]: the 3000 ms wait *)
| ForceKill                    (* [stopBackend]: the 10000 ms callback *)
| CheckReady (attempts : nat)  (* [startBackend]: [checkReady] *)
| TrayRefresh                  (* [updateTrayMenu] after 2000 ms *)
| QuitLater.                   (* [will-quit]: [app.quit()] after 2000 ms *)

(** Who awaits [checkBackendWithHttp()]. *)
Inductive probe_awaiter :=
| InStatus (k : after_status)  (* [checkBackendStatus] *)
| InTray.                      (* [updateTrayMenu] *)

(** What a suspended continuation waits for. *)
Inductive waiting :=
| OnTimer (ms : N) (k : timer_callback)
| OnProbe (k : probe_awaiter)
| OnAxios.                     (* [updateTrayMenu] awaiting [axios.get] *)

(** A suspended continuation.  [owner] is the chain it belongs to: a chain
    is one activation of a handler or of an [async] function together with
    the functions it awaits.  A call that is not awaited
    ([updateTrayMenu().catch(...)], a [setTimeout] callback) is a chain of
    its own. *)
Record entry := Entry { what : waiting; owner : cid }.

Inductive effect :=
| Enter (f : fn)
| Cleanup (killed : list pid)   (* [killExistingBackends]: the kill commands ran *)
| Kill (p : pid) (sg : signal)  (* [backendProcess.kill(sg)] *)
| Spawn (p : pid) (exe script : string)
| SetTimeout (t : tid) (ms : N) (k : timer_callback)
| HttpProbe                     (* [checkBackendWithHttp()] called *)
| AxiosGet (url : string)
| TraySet (connected : bool)    (* the tray menu rebuilt with this status *)
| StatusResult (isRunning : bool)       (* [checkBackendStatus] answered a user *)
| ConsoleError (msg : string)
| ErrorBox (title : string)     (* [dialog.showErrorBox] *)
| Balloon (title : string)      (* [tray.displayBalloon] *)
| Window (op : SingleInstance.winop)
| Quit.                         (* [app.quit()] *)

#[global] Instance signal_eq_dec : EqDecision signal.
Proof. solve_decision. Defined.
#[global] Instance fn_eq_dec : EqDecision fn.
Proof. solve_decision. Defined.
#[global] Instance after_start_eq_dec : EqDecision after_start.
Proof. solve_decision. Defined.
#[global] Instance after_kill_eq_dec : EqDecision after_kill.
Proof. solve_decision. Defined.
#[global] Instance after_status_eq_dec : EqDecision after_status.
Proof. solve_decision. Defined.
#[global] Instance timer_callback_eq_dec : EqDecision timer_callback.
Proof. solve_decision. Defined.
#[global] Instance probe_awaiter_eq_dec : EqDecision probe_awaiter.
Proof. solve_decision. Defined.
#[global] Instance waiting_eq_dec : EqDecision waiting.
Proof. solve_decision. Defined.
#[global] Instance entry_eq_dec : EqDecision entry.
Proof. solve_decision. Defined.
#[global] Instance effect_eq_dec : EqDecision effect.
Proof. solve_decision. Defined.

(** The main process: its module-level variables, the children as the
    operating system has them, the event loop's suspended continuations
    and the trace. *)
Record state := State {
  ready : bool;   (* [app.whenReady()] has resolved *)
  mainWindow : bool;   (* [mainWindow] holds a window (neither [undefined] nor [null]) *)
  tray : bool;   (* [tray] is not [null] *)
  trayDestroyed : bool;   (* [tray.isDestroyed()] *)
  backendProcess : option nat;   (* the shared handle [backendProcess] *)
  isQuitting : bool;   (* [isQuitting] *)
  intervalArmed : bool;   (* the [setInterval] of [whenReady] is installed *)
  running : list nat;   (* children that are alive *)
  listening : list nat;   (* children that own port 7717 *)
  unclosed : list nat;   (* children whose [close] event has not fired *)
  pending : gmap nat entry;   (* suspended continuations, by id *)
  nextPid : nat;   (* next process id *)
  nextTid : nat;   (* next continuation id *)
  nextCid : nat;   (* next chain id *)
  log : list (nat * effect)   (* what was done, newest first, with the chain that did it *)
}.

Definition set_ready (v : bool) (s : state) : state :=
  State v (mainWindow s) (tray s) (trayDestroyed s) (backendProcess s) (isQuitting s) (intervalArmed s) (running s) (listening s) (unclosed s) (pending s) (nextPid s) (nextTid s) (nextCid s) (log s).
Definition set_mainWindow (v : bool) (s : state) : state :=
  State (ready s) v (tray s) (trayDestroyed s) (backendProcess s) (isQuitting s) (intervalArmed s) (running s) (listening s) (unclosed s) (pending s) (nextPid s) (nextTid s) (nextCid s) (log s).
Definition set_tray (v : bool) (s : state) : state :=
  State (ready s) (mainWindow s) v (trayDestroyed s) (backendProcess s) (isQuitting s) (intervalArmed s) (running s) (listening s) (unclosed s) (pending s) (nextPid s) (nextTid s) (nextCid s) (log s).
Definition set_trayDestroyed (v : bool) (s : state) : state :=
  State (ready s) (mainWindow s) (tray s) v (backendProcess s) (isQuitting s) (intervalArmed s) (running s) (listening s) (unclosed s) (pending s) (nextPid s) (nextTid s) (nextCid s) (log s).
Definition set_backendProcess (v : option nat) (s : state) : state :=
  State (ready s) (mainWindow s) (tray s) (trayDestroyed s) v (isQuitting s) (intervalArmed s) (running s) (listening s) (unclosed s) (pending s) (nextPid s) (nextTid s) (nextCid s) (log s).
Definition set_isQuitting (v : bool) (s : state) : state :=
  State (ready s) (mainWindow s) (tray s) (trayDestroyed s) (backendProcess s) v (intervalArmed s) (running s) (listening s) (unclosed s) (pending s) (nextPid s) (nextTid s) (nextCid s) (log s).
Definition set_intervalArmed (v : bool) (s : state) : state :=
  State (ready s) (mainWindow s) (tray s) (trayDestroyed s) (backendProcess s) (isQuitting s) v (running s) (listening s) (unclosed s) (pending s) (nextPid s) (nextTid s) (nextCid s) (log s).
Definition set_running (v : list nat) (s : state) : state :=
  State (ready s) (mainWindow s) (tray s) (trayDestroyed s) (backendProcess s) (isQuitting s) (intervalArmed s) v (listening s) (unclosed s) (pending s) (nextPid s) (nextTid s) (nextCid s) (log s).
Definition set_listening (v : list nat) (s : state) : state :=
  State (ready s) (mainWindow s) (tray s) (trayDestroyed s) (backendProcess s) (isQuitting s) (intervalArmed s) (running s) v (unclosed s) (pending s) (nextPid s) (nextTid s) (nextCid s) (log s).
Definition set_unclosed (v : list nat) (s : state) : state :=
  State (ready s) (mainWindow s) (tray s) (trayDestroyed s) (backendProcess s) (isQuitting s) (intervalArmed s) (running s) (listening s) v (pending s) (nextPid s) (nextTid s) (nextCid s) (log s).
Definition set_pending (v : gmap nat entry) (s : state) : state :=
  State (ready s) (mainWindow s) (tray s) (trayDestroyed s) (backendProcess s) (isQuitting s) (intervalArmed s) (running s) (listening s) (unclosed s) v (nextPid s) (nextTid s) (nextCid s) (log s).
Definition set_nextPid (v : nat) (s : state) : state :=
  State (ready s) (mainWindow s) (tray s) (trayDestroyed s) (backendProcess s) (isQuitting s) (intervalArmed s) (running s) (listening s) (unclosed s) (pending s) v (nextTid s) (nextCid s) (log s).
Definition set_nextTid (v : nat) (s : state) : state :=
  State (ready s) (mainWindow s) (tray s) (trayDestroyed s) (backendProcess s) (isQuitting s) (intervalArmed s) (running s) (listening s) (unclosed s) (pending s) (nextPid s) v (nextCid s) (log s).
Definition set_nextCid (v : nat) (s : state) : state :=
  State (ready s) (mainWindow s) (tray s) (trayDestroyed s) (backendProcess s) (isQuitting s) (intervalArmed s) (running s) (listening s) (unclosed s) (pending s) (nextPid s) (nextTid s) v (log s).
Definition set_log (v : list (nat * effect)) (s : state) : state :=
  State (ready s) (mainWindow s) (tray s) (trayDestroyed s) (backendProcess s) (isQuitting s) (intervalArmed s) (running s) (listening s) (unclosed s) (pending s) (nextPid s) (nextTid s) (nextCid s) v.

Definition init : state :=
  State false false false false None false false [] [] [] ∅ 0 0 0 [].

(** What the outside does to the main process. *)
Inductive command := CmdStart | CmdStop | CmdRestart | CmdCheck.

Inductive event :=
| EvReady (windowOk trayOk : bool)  (* [whenReady] resolves; did [new BrowserWindow] / [new Tray] succeed *)
| EvCall (c : command)              (* a menu item or an IPC handler is invoked *)
| EvTick                            (* the 10000 ms interval fires *)
| EvTimer (t : tid)                 (* a [setTimeout] callback fires *)
| EvProbe (t : tid) (isUp : bool)   (* a [checkBackendWithHttp()] promise resolves *)
| EvAxios (t : tid) (r : option Z)  (* [axios.get] gets a response with this status, or none *)
| EvListen (p : pid)                (* child [p] binds port 7717 *)
| EvStdout (p : pid) (marker : bool)  (* child output, with a startup marker or not *)
| EvClose (p : pid) (code : Z)      (* the [close] event of child [p] *)
| EvSpawnError (p : pid)            (* the [error] event of child [p] *)
| EvSecondInstance (isMinimized isVisible : bool)
| EvWindowClosed                    (* the [closed] event of the window *)
| EvTrayDestroyed
| EvBeforeQuit
| EvWillQuit.

Section WithHost.

Context (h : host).

Definition emit (c : cid) (e : effect) (s : state) : state :=
  set_log ((c, e) :: log s) s.

(** A fresh chain for a handler the event loop starts. *)
Definition bump (s : state) : state := set_nextCid (S (nextCid s)) s.

(** Suspends a continuation of chain [c] under a fresh id. *)
Definition suspend (c : cid) (w : waiting) (s : state) : state :=
  set_nextTid (S (nextTid s)) (set_pending (<[nextTid s := Entry w c]> (pending s)) s).

(** Takes a continuation out of the event loop when it is resumed. *)
Definition unqueue (t : tid) (s : state) : state :=
  set_pending (delete t (pending s)) s.

(** [await new Promise(resolve => setTimeout(resolve, ms))]: chain [c]
    goes on when the timer fires. *)
Definition sleep (c : cid) (k : timer_callback) (ms : N) (s : state) : state :=
  suspend c (OnTimer ms k) (emit c (SetTimeout (nextTid s) ms k) s).

(** [setTimeout(callback, ms)], not awaited: chain [c] sets the timer, the
    callback will run as a chain of its own. *)
Definition setTimeout (c : cid) (k : timer_callback) (ms : N) (s : state) : state :=
  suspend (nextCid s) (OnTimer ms k) (emit c (SetTimeout (nextTid s) ms k) (bump s)).

(** [await checkBackendWithHttp()]: the probe of module [Prober] is
    started; its boolean comes back as [EvProbe]. *)
Definition checkBackendWithHttp (c : cid) (k : probe_awaiter) (s : state) : state :=
  suspend c (OnProbe k) (emit c HttpProbe s).

(** [killExistingBackends()], up to its 2000 ms wait.  The commands
    force-kill ([taskkill /f], [kill -9]) whatever owns port 7717, hence
    every child that listens there; their errors are ignored.  The
    by-name commands are not modelled: whom they reach depends on the
    platform. *)
Definition killExistingBackends (c : cid) (k : after_kill) (s : state) : state :=
  let s1 := emit c (Cleanup (listening s)) s in
  let s2 := set_running (list_difference (running s) (listening s)) s1 in
  sleep c (KillWait k) 2000%N (set_listening [] s2).

(** [updateTrayMenu().catch(console.error)]: the call, never awaited, up
    to its first [await]. *)
Definition updateTrayMenu (s : state) : state :=
  if negb (tray s) || trayDestroyed s then s
  else checkBackendWithHttp (nextCid s) InTray (bump s).

(** [updateTrayMenu()] after [checkBackendWithHttp()]. *)
Definition updateTrayMenu_probed (c : cid) (isBackendRunning : bool)
    (s : state) : state :=
  if isBackendRunning then emit c (TraySet true) s
  else suspend c OnAxios (emit c (AxiosGet health_url) s).

(** [validateStatus: (status) => status === 200] *)
Definition validateStatus (status : Z) : bool := bool_decide (status = 200%Z).

(** [updateTrayMenu()] after [axios.get]: a response that fails
    [validateStatus] and a request without response both throw into the
    inner [catch], which leaves [isBackendRunning] false. *)
Definition updateTrayMenu_fallback (c : cid) (r : option Z)
    (s : state) : state :=
  let isBackendRunning :=
    match r with
    | Some status => validateStatus status && bool_decide (status = 200%Z)
    | None => false
    end in
  emit c (TraySet isBackendRunning) s.

(** [checkBackendStatus()], up to its [await]. *)
Definition checkBackendStatus (c : cid) (k : after_status) (s : state) : state :=
  checkBackendWithHttp c (InStatus k) s.

(** The timers the [whenReady] callback installs at its end. *)
Definition boot_timers (c : cid) (s : state) : state :=
  set_intervalArmed true (setTimeout c TrayRefresh 2000%N s).

(** [startBackend()] returns to whoever awaits it. *)
Definition return_from_start (c : cid) (k : after_start) (s : state) : state :=
  match k with
  | ThenBoot => boot_timers c s
  | ThenRestart => s
  | ThenNothing => s
  end.

(** [startBackend()], up to the wait inside [killExistingBackends()]. *)
Definition startBackend (c : cid) (k : after_start) (s : state) : state :=
  killExistingBackends c (KillForStart k) (emit c (Enter FnStart) s).

(** [startBackend()] from the handle check to the [await] of
    [checkBackendStatus()]. *)
Definition startBackend_cleaned (c : cid) (k : after_start) (s : state) : state :=
  match backendProcess s with
  | Some _ => return_from_start c k s
  | None => checkBackendStatus c (ForStart k) s
  end.

(** [spawn(...)] and what follows it in [startBackend()]: the handlers of
    the child are the events [EvStdout], [EvClose] and [EvSpawnError]
    (what the child writes to [stderr] only goes to the console).  The
    [catch] around this part runs only if [spawn] itself throws, which a
    missing file does not make it do (it emits [error]). *)
Definition spawn_backend (c : cid) (s : state) : state :=
  let p := nextPid s in
  let s1 := set_nextPid (S p) s in
  let s2 := set_unclosed (p :: unclosed s1) (set_running (p :: running s1) s1) in
  let s3 := emit c (Spawn p (pythonExecutable h) (mainPyPath h))
              (set_backendProcess (Some p) s2) in
  setTimeout c (CheckReady 0) 3000%N s3.

(** [startBackend()] after [checkBackendStatus()] answered. *)
Definition startBackend_probed (c : cid) (k : after_start) (isRunning : bool)
    (s : state) : state :=
  if isRunning then return_from_start c k s
  else if negb (existsSync h (pythonExecutable h)) then
    let s1 := emit c (ConsoleError "Python executable not found") s in
    return_from_start c k
      (if mainWindow s then emit c (ErrorBox "Python Error") s1 else s1)
  else if negb (existsSync h (mainPyPath h)) then
    let s1 := emit c (ConsoleError "Backend main.py not found") s in
    return_from_start c k
      (if mainWindow s then emit c (ErrorBox "Backend Error") s1 else s1)
  else return_from_start c k (spawn_backend c s).

(** [const maxAttempts = 30] *)
Definition maxAttempts : nat := 30.

(** [checkReady] after [checkBackendStatus()] answered; [attempts] is the
    counter after its increment. *)
Definition checkReady_probed (c : cid) (attempts : nat) (status : bool)
    (s : state) : state :=
  if status then
    let s1 := updateTrayMenu s in
    if tray s && win32 h then emit c (Balloon "FeedVox AI") s1 else s1
  else if bool_decide (attempts < maxAttempts) && bool_decide (is_Some (backendProcess s))
  then setTimeout c (CheckReady attempts) 1000%N s
  else updateTrayMenu s.

(** [backendProcess.kill(sg)].  [SIGKILL] ends the child at once; what a
    child does on [SIGTERM], and when, is its own business: its end shows
    as [EvClose]. *)
Definition kill (c : cid) (p : pid) (sg : signal) (s : state) : state :=
  let s1 := emit c (Kill p sg) s in
  match sg with
  | SIGTERM => s1
  | SIGKILL =>
      set_listening (list_difference (listening s1) [p])
        (set_running (list_difference (running s1) [p]) s1)
  end.

(** [stopBackend()] *)
Definition stopBackend (c : cid) (s : state) : state :=
  let s1 := emit c (Enter FnStop) s in
  match backendProcess s1 with
  | Some p =>
      let s2 := kill c p SIGTERM s1 in
      let s3 := setTimeout c ForceKill 10000%N s2 in
      set_backendProcess None s3
  | None => s1
  end.

(** The callback [stopBackend()] gave to [setTimeout]. *)
Definition force_kill (c : cid) (s : state) : state :=
  match backendProcess s with
  | Some p => kill c p SIGKILL s
  | None => s
  end.

(** [restartBackend()], up to the wait inside [killExistingBackends()]. *)
Definition restartBackend (c : cid) (s : state) : state :=
  killExistingBackends c KillForRestart (emit c (Enter FnRestart) s).

(** [restartBackend()] from [stopBackend()] to the 3000 ms wait. *)
Definition restartBackend_cleaned (c : cid) (s : state) : state :=
  sleep c Settle 3000%N (stopBackend c s).

(** [checkBackendStatus()] after its probe resolved, and on into the
    caller that awaited it. *)
Definition checkBackendStatus_probed (c : cid) (k : after_status) (isRunning : bool)
    (s : state) : state :=
  let s1 := if tray s then updateTrayMenu s else s in
  match k with
  | ForBoot =>
      if isRunning then boot_timers c s1 else startBackend c ThenBoot s1
  | ForStart k' => startBackend_probed c k' isRunning s1
  | ForReady attempts => checkReady_probed c attempts isRunning s1
  | ForUser => emit c (StatusResult isRunning) s1
  end.

(** A [setTimeout] callback runs. *)
Definition fire (c : cid) (k : timer_callback) (s : state) : state :=
  match k with
  | KillWait (KillForStart k') => startBackend_cleaned c k' s
  | KillWait KillForRestart => restartBackend_cleaned c s
  | Settle => startBackend c ThenRestart s
  | ForceKill => force_kill c s
  | CheckReady attempts => checkBackendStatus c (ForReady (S attempts)) s
  | TrayRefresh => updateTrayMenu s
  | QuitLater => emit c Quit s
  end.

(** A [checkBackendWithHttp()] promise resolves. *)
Definition probed (c : cid) (k : probe_awaiter) (isUp : bool)
    (s : state) : state :=
  match k with
  | InStatus k' => checkBackendStatus_probed c k' isUp s
  | InTray => updateTrayMenu_probed c isUp s
  end.

(** The [whenReady] callback, up to its first [await]. *)
Definition app_ready (c : cid) (windowOk trayOk : bool) (s : state) : state :=
  let s1 := set_mainWindow windowOk (set_ready true s) in
  let s2 := if trayOk then updateTrayMenu (set_tray true s1) else s1 in
  checkBackendStatus c ForBoot s2.

Definition call (c : cid) (cmd : command) (s : state) : state :=
  match cmd with
  | CmdStart => startBackend c ThenNothing s
  | CmdStop => stopBackend c s
  | CmdRestart => restartBackend c s
  | CmdCheck => checkBackendStatus c ForUser s
  end.

(** The [close] handler of a child. *)
Definition on_close (c : cid) (code : Z) (s : state) : state :=
  let s1 := set_backendProcess None s in
  if negb (bool_decide (code = 0%Z)) && negb (isQuitting s1) && tray s1 then
    let s2 := if win32 h then emit c (Balloon "FeedVox AI Backend") s1 else s1 in
    updateTrayMenu s2
  else s1.

(** The [error] handler of a child. *)
Definition on_error (c : cid) (s : state) : state :=
  let s1 := set_backendProcess None (emit c (ConsoleError "Failed to start backend") s) in
  if mainWindow s1 then emit c (ErrorBox "Backend Startup Error") s1 else s1.

(** A child leaves the operating system's tables. *)
Definition reap (p : pid) (s : state) : state :=
  set_unclosed (list_difference (unclosed s) [p])
    (set_listening (list_difference (listening s) [p])
      (set_running (list_difference (running s) [p]) s)).

(** The [will-quit] handler. *)
Definition on_will_quit (c : cid) (s : state) : state :=
  match backendProcess s with
  | Some _ => setTimeout c QuitLater 2000%N (stopBackend c s)
  | None => s
  end.

(** One turn of the event loop.  [None]: the event cannot happen in this
    state (no such continuation, no such child). *)
Definition step (s : state) (e : event) : option state :=
  let c := nextCid s in
  match e with
  | EvReady w t =>
      if ready s then None else Some (app_ready c w t (bump s))
  | EvCall cmd => Some (call c cmd (bump s))
  | EvTick =>
      if intervalArmed s then Some (updateTrayMenu s) else None
  | EvTimer t =>
      match pending s !! t with
      | Some (Entry (OnTimer _ k) o) => Some (fire o k (unqueue t s))
      | _ => None
      end
  | EvProbe t isUp =>
      match pending s !! t with
      | Some (Entry (OnProbe k) o) => Some (probed o k isUp (unqueue t s))
      | _ => None
      end
  | EvAxios t r =>
      match pending s !! t with
      | Some (Entry OnAxios o) => Some (updateTrayMenu_fallback o r (unqueue t s))
      | _ => None
      end
  | EvListen p =>
      if bool_decide (p ∈ running s) then
        Some (set_listening (p :: list_difference (listening s) [p]) s)
      else None
  | EvStdout p marker =>
      if bool_decide (p ∈ unclosed s) then
        Some (if marker then setTimeout c TrayRefresh 2000%N (bump s) else s)
      else None
  | EvClose p code =>
      if bool_decide (p ∈ unclosed s) then Some (on_close c code (reap p (bump s)))
      else None
  | EvSpawnError p =>
      if bool_decide (p ∈ unclosed s) then
        Some (on_error c
                (set_listening (list_difference (listening s) [p])
                   (set_running (list_difference (running s) [p]) (bump s))))
      else None
  | EvSecondInstance isMinimized isVisible =>
      Some (foldl (λ s' op, emit c (Window op) s') (bump s)
              (SingleInstance.second_instance (mainWindow s) isMinimized isVisible))
  | EvWindowClosed =>
      if mainWindow s then Some (set_mainWindow false s) else None
  | EvTrayDestroyed =>
      if tray s then Some (set_trayDestroyed true s) else None
  | EvBeforeQuit => Some (stopBackend c (set_isQuitting true (bump s)))
  | EvWillQuit => Some (on_will_quit c (bump s))
  end.

Fixpoint run (s : state) (evs : list event) : option state :=
  match evs with
  | [] => Some s
  | e :: rest =>
      match step s e with
      | Some s' => run s' rest
      | None => None
      end
  end.

End WithHost.

(** *** Reading the trace *)

(** The effects of chain [c], oldest first. *)
Fixpoint chain_trace (c : cid) (l : list (cid * effect)) : list effect :=
  match l with
  | [] => []
  | (c', e) :: older =>
      chain_trace c older ++ (if decide (c' = c) then [e] else [])
  end.

(** What [f] reads off the trace, oldest first. *)
Fixpoint collect {A} (f : effect -> list A) (l : list (cid * effect)) : list A :=
  match l with
  | [] => []
  | (_, e) :: older => collect f older ++ f e
  end.

(** The children spawned so far, oldest first. *)
Definition spawned (s : state) : list pid :=
  collect (λ e, match e with Spawn p _ _ => [p] | _ => [] end) (log s).

(** The children that were sent [sg] through the handle, oldest first. *)
Definition signalled (sg : signal) (s : state) : list pid :=
  collect (λ e, match e with
                | Kill p sg' => if decide (sg' = sg) then [p] else []
                | _ => []
                end) (log s).

(** The fallback requests made so far, oldest first. *)
Definition axios_urls (s : state) : list string :=
  collect (λ e, match e with AxiosGet u => [u] | _ => [] end) (log s).

(** The error dialogs shown so far, oldest first. *)
Definition error_boxes (s : state) : list string :=
  collect (λ e, match e with ErrorBox m => [m] | _ => [] end) (log s).

(** The calls made on the main window so far, oldest first. *)
Definition window_ops (s : state) : list SingleInstance.winop :=
  collect (λ e, match e with Window op => [op] | _ => [] end) (log s).

(** The tray statuses set so far, oldest first. *)
Definition tray_statuses (s : state) : list bool :=
  collect (λ e, match e with TraySet b => [b] | _ => [] end) (log s).

(** The tray's [checkBackendWithHttp()] calls that have not resolved. *)
Definition tray_probes_in_flight (s : state) : nat :=
  size (filter (λ te : tid * entry, what te.2 = OnProbe InTray) (pending s)).

(** The milestones of the lifecycle and of a tray update. *)
Inductive stage :=
| StRestart | StCleanup | StStop | StSettle | StStart | StSpawn
| StAxios (url : string) | StTray (connected : bool).

#[global] Instance stage_eq_dec : EqDecision stage.
Proof. solve_decision. Defined.

Definition stage_of (e : effect) : list stage :=
  match e with
  | Enter FnRestart => [StRestart]
  | Enter FnStop => [StStop]
  | Enter FnStart => [StStart]
  | Cleanup _ => [StCleanup]
  | SetTimeout _ _ Settle => [StSettle]
  | Spawn _ _ _ => [StSpawn]
  | AxiosGet u => [StAxios u]
  | TraySet b => [StTray b]
  | _ => []
  end.

(** The milestones chain [c] has passed, oldest first. *)
Definition stages (c : cid) (l : list (cid * effect)) : list stage :=
  chain_trace c l ≫= stage_of.

(** [restartBackend()] from its call to the spawn. *)
Definition restart_seq : list stage :=
  [StRestart; StCleanup; StStop; StSettle; StStart; StCleanup; StSpawn].

(** [startBackend()] from its call to the spawn. *)
Definition start_seq : list stage := [StStart; StCleanup; StSpawn].

(** The complete courses a chain can take. *)
Definition courses : list (list stage) :=
  [restart_seq; start_seq; [StStop];
   [StAxios health_url; StTray true]; [StAxios health_url; StTray false];
   [StTray true]].

Fixpoint is_prefix (l1 l2 : list stage) : bool :=
  match l1, l2 with
  | [], _ => true
  | x :: l1', y :: l2' => bool_decide (x = y) && is_prefix l1' l2'
  | _ :: _, [] => false
  end.

Definition on_course (l : list stage) : bool :=
  existsb (is_prefix l) courses.

(** Where the chain of a suspended continuation stands. *)
Definition expect (w : waiting) : list stage :=
  match w with
  | OnTimer _ (KillWait KillForRestart) => [StRestart; StCleanup]
  | OnTimer _ Settle => [StRestart; StCleanup; StStop; StSettle]
  | OnTimer _ (KillWait (KillForStart ThenRestart))
  | OnProbe (InStatus (ForStart ThenRestart)) =>
      [StRestart; StCleanup; StStop; StSettle; StStart; StCleanup]
  | OnTimer _ (KillWait (KillForStart _))
  | OnProbe (InStatus (ForStart _)) => [StStart; StCleanup]
  | OnAxios => [StAxios health_url]
  | _ => []
  end.

(** *** Invariants of the event loop *)

(** Ids are handed out in increasing order: a suspended continuation has
    an id and a chain that were handed out, and a chain that was not yet
    handed out has done nothing. *)
Definition ids_fresh (s : state) : Prop :=
  (forall t e, pending s !! t = Some e -> t < nextTid s /\ owner e < nextCid s) /\
  (forall c, nextCid s <= c -> chain_trace c (log s) = []).

(** A chain waits in one place at most, and there it has passed exactly
    the milestones its continuation [expect]s. *)
Definition chains_ok (s : state) : Prop :=
  (forall t e, pending s !! t = Some e ->
     stages (owner e) (log s) = expect (what e)) /\
  (forall t1 t2 e1 e2,
     pending s !! t1 = Some e1 -> pending s !! t2 = Some e2 ->
     owner e1 = owner e2 -> t1 = t2).

(** Between two turns of the event loop. *)
Definition inv (s : state) : Prop :=
  ids_fresh s /\ chains_ok s /\
  forall c, on_course (stages c (log s)) = true.

(** Inside a turn: chain [o] is running, has passed [ex], and is not
    suspended anywhere. *)
Definition mid (o : cid) (ex : list stage) (s : state) : Prop :=
  ids_fresh s /\ chains_ok s /\
  o < nextCid s /\
  (forall t e, pending s !! t = Some e -> owner e <> o) /\
  stages o (log s) = ex /\
  (forall c, c <> o -> on_course (stages c (log s)) = true).

(** The part of the state the invariants read. *)
Definition core (s : state) : gmap tid entry * nat * nat * list (cid * effect) :=
  (pending s, nextTid s, nextCid s, log s).

(** Every continuation that waited in [s] still waits in [s']. *)
Definition grows (s s' : state) : Prop :=
  nextTid s <= nextTid s' /\
  forall t, t < nextTid s -> pending s' !! t = pending s !! t.

(** Effects that neither create nor signal a child. *)
Definition benign (e : effect) : Prop :=
  match e with
  | Spawn _ _ _ | Kill _ _ => False
  | _ => True
  end.

(** Between [s] and [s'] nothing happened to the children or the handle. *)
Definition calm (s s' : state) : Prop :=
  backendProcess s' = backendProcess s /\ running s' = running s /\
  listening s' = listening s /\ unclosed s' = unclosed s /\
  nextPid s' = nextPid s /\ spawned s' = spawned s /\
  forall sg, signalled sg s' = signalled sg s.

(** The interpreter or the entry script is not where [startBackend]
    looks for it. *)
Definition missing_file (h : host) : Prop :=
  existsSync h (pythonExecutable h) = false \/ existsSync h (mainPyPath h) = false.

(** No child was ever spawned. *)
Definition never_spawned (s : state) : Prop :=
  backendProcess s = None /\ running s = [] /\ listening s = [] /\
  unclosed s = [] /\ nextPid s = 0 /\ spawned s = [].

(** Two machines for the examples: one with the interpreter and the entry
    script in place, one without the interpreter. *)
Definition host_complete : host :=
  Host false "/res" "/app/ui" "/app" (λ _, true) true.

Definition host_without_python : host :=
  Host false "/res" "/app/ui" "/app"
    (λ f, negb (bool_decide (f = "/app/venv/Scripts/python.exe"))) true.

(** The application starts on a machine where no backend answers: the
    window and the tray are created, [checkBackendStatus()] answers false,
    [startBackend()] cleans up, checks again and spawns child 0. *)
Definition boot_offline : list event :=
  [EvReady true true; EvProbe 1 false; EvTimer 3; EvProbe 4 false].

(** The state after [boot_offline]. *)
Definition after_boot_offline : state :=
  default init (run host_complete init boot_offline).


(** *** The icon: [getIconPath] and its use in [createTray] *)

(** [const iconFormats = process.platform === 'win32' ? ... : ...] *)
Definition iconFormats (platform : string) : list string :=
  if bool_decide (platform = "win32") then [".ico"; ".png"]
  else if bool_decide (platform = "darwin") then [".icns"; ".png"]
  else [".png"].

(** [path.join(__dirname, 'assets', `icon${format}`)] *)
Definition iconPath (h : host) (format : string) : string :=
  path_join [dirname h; "assets"; ("icon" ++ format)%string].

(** The [for] loop of [getIconPath]: it returns at the first format whose
    file exists. *)
Fixpoint firstExisting (h : host) (formats : list string) : option string :=
  match formats with
  | [] => None
  | format :: rest =>
      if existsSync h (iconPath h format) then Some (iconPath h format)
      else firstExisting h rest
  end.

(** [getIconPath()] *)
Definition getIconPath (platform : string) (h : host) : string :=
  match firstExisting h (iconFormats platform) with
  | Some iconPath => iconPath
  | None => path_join [dirname h; "assets"; "icon.png"]
  end.

(** [createTray()]: [fs.existsSync(iconPath)] decides whether the icon is
    read from the file ([nativeImage.createFromPath], which may still give
    an empty image) or is the empty image at once. *)
Definition trayIconFromFile (platform : string) (h : host) : bool :=
  existsSync h (getIconPath platform h).

(** *** More invariants of the event loop *)

(** The counter of a readiness loop, where a continuation carries it, and
    the delay of the timer that carries it: 3000 ms before the first
    check, 1000 ms before every other. *)
Definition in_bounds (w : waiting) : Prop :=
  match w with
  | OnTimer ms (CheckReady attempts) =>
      attempts < maxAttempts /\
      ms = if decide (attempts = 0) then 3000%N else 1000%N
  | OnProbe (InStatus (ForReady attempts)) => 1 <= attempts <= maxAttempts
  | _ => True
  end.

Definition bounded (s : state) : Prop :=
  forall t e, pending s !! t = Some e -> in_bounds (what e).

(** No [SIGKILL] of the trace [l] (newest first) went to a child that had
    been sent [SIGTERM] before. *)
Definition no_escalation (l : list (cid * effect)) : Prop :=
  forall l1 l2 c p, l = l1 ++ (c, Kill p SIGKILL) :: l2 ->
  forall c', (c', Kill p SIGTERM) ∉ l2.

(** The handle holds a child of this process that has not closed and was
    not asked to stop; signals went to children of this process only, and
    [SIGTERM] to each once at most. *)
Definition handle_ok (s : state) : Prop :=
  (forall p, backendProcess s = Some p ->
     p ∈ unclosed s /\ p ∈ spawned s /\ (p ∉ signalled SIGTERM s) /\ p < nextPid s) /\
  (forall p, p ∈ signalled SIGTERM s -> p < nextPid s) /\
  NoDup (signalled SIGTERM s) /\
  (forall sg p, p ∈ signalled sg s -> p ∈ spawned s) /\
  no_escalation (log s).

(** Between [s] and [s'] the flag [isQuitting] was not assigned. *)
Definition steady (s s' : state) : Prop := isQuitting s' = isQuitting s.

(** The balloons shown so far, oldest first. *)
Definition balloons (s : state) : list string :=
  collect (λ e, match e with Balloon title => [title] | _ => [] end) (log s).

(** What is done for the tray only: its menu, the fallback request of
    [updateTrayMenu()], a balloon. *)
Definition for_tray (e : effect) : Prop :=
  match e with
  | TraySet _ | AxiosGet _ | Balloon _ => True
  | _ => False
  end.

(** A continuation inside [updateTrayMenu()]. *)
Definition in_tray_update (w : waiting) : Prop :=
  match w with
  | OnProbe InTray | OnAxios => True
  | _ => False
  end.

(** There is no tray, and nothing was done for one. *)
Definition trayless (s : state) : Prop :=
  tray s = false /\
  (forall t e, pending s !! t = Some e -> ~ in_tray_update (what e)) /\
  (forall c e, (c, e) ∈ log s -> ~ for_tray e).

(** After the start-up child 0 is stopped and closes, child 1 is started,
    and then the timer of the stop fires (the run of C10). *)
Definition late_stop_timer : list event :=
  boot_offline ++
  [EvCall CmdStop; EvClose 0 0; EvCall CmdStart; EvTimer 9; EvProbe 10 false;
   EvTimer 8].

Definition after_late_stop_timer : state :=
  default init (run host_complete init late_stop_timer).

(** The application starts without a backend, then is asked to quit. *)
Definition after_before_quit : state :=
  default init (run host_complete init (boot_offline ++ [EvBeforeQuit])).

(** The tray cannot be created; the application starts a backend, which
    gets ready and later exits with code 1. *)
Definition boot_without_tray : list event :=
  [EvReady true false; EvProbe 0 false; EvTimer 1; EvProbe 2 false;
   EvTimer 4; EvTimer 3; EvProbe 5 true; EvClose 0 1].

(** *** The work that is left *)

(** A bound of the number of callbacks that can run, one after the other,
    from the moment a continuation is resumed, counting it: what it sets
    up itself, and what that sets up in turn.  The readiness loop counts
    for what is left of its [maxAttempts]. *)
Definition weight (w : waiting) : nat :=
  match w with
  | OnAxios => 1
  | OnProbe InTray => 2
  | OnProbe (InStatus ForUser) => 3
  | OnProbe (InStatus (ForReady attempts)) => 5 + 4 * (maxAttempts - attempts)
  | OnProbe (InStatus (ForStart _)) => 128
  | OnProbe (InStatus ForBoot) => 132
  | OnTimer _ QuitLater => 1
  | OnTimer _ ForceKill => 1
  | OnTimer _ TrayRefresh => 3
  | OnTimer _ (CheckReady attempts) => 6 + 4 * (maxAttempts - S attempts)
  | OnTimer _ (KillWait (KillForStart _)) => 129
  | OnTimer _ Settle => 130
  | OnTimer _ (KillWait KillForRestart) => 132
  end.

(** The weight of all the suspended continuations. *)
Definition rank (s : state) : nat :=
  map_fold (λ _ e acc, weight (what e) + acc) 0 (pending s).

(** The events that resume a continuation: a timer fires, a promise is
    settled.  The others come from outside: the user, the interval, a
    child, the operating system. *)
Definition resumes (e : event) : bool :=
  match e with
  | EvTimer _ | EvProbe _ _ | EvAxios _ _ => true
  | _ => false
  end.

(** From [s] to [s'] the rank rose by [n] at most. *)
Definition costs (n : nat) (s s' : state) : Prop := rank s' <= rank s + n.

(** The application has just started: the [whenReady] callback ran to its
    first [await]. *)
Definition just_ready : state :=
  default init (run host_complete init [EvReady true true]).

(** *** What a continuation waits for, in every state *)

(** Every suspended continuation waits for something that satisfies
    [P]. *)
Definition waits (P : waiting -> Prop) (s : state) : Prop :=
  forall t e, pending s !! t = Some e -> P (what e).

(** The delays of the timers that are not part of the readiness loop. *)
Definition delay_ok (w : waiting) : Prop :=
  match w with
  | OnTimer ms (KillWait _) => ms = 2000%N
  | OnTimer ms Settle => ms = 3000%N
  | OnTimer ms ForceKill => ms = 10000%N
  | OnTimer ms TrayRefresh => ms = 2000%N
  | OnTimer ms QuitLater => ms = 2000%N
  | _ => True
  end.

(** [startBackend()] between its handle check and its spawn: it awaits
    [checkBackendStatus()]. *)
Definition before_spawn (w : waiting) : Prop :=
  match w with
  | OnProbe (InStatus (ForStart _)) => True
  | _ => False
  end.

(** Before the [whenReady] callback has run: no window, no tray, no
    interval, nothing suspended, no child. *)
Definition dormant (s : state) : Prop :=
  mainWindow s = false /\ tray s = false /\ intervalArmed s = false /\
  pending s = ∅ /\ never_spawned s.

(** What [console.error] got from [startBackend()] and from the [error]
    handler of a child, oldest first. *)
Definition console_errors (s : state) : list string :=
  collect (λ e, match e with ConsoleError msg => [msg] | _ => [] end) (log s).

End Supervisor.

(** ** One run of the main script: an instance of the application *)

Module Instance.

(** Beside the main process of module [Supervisor]: whether the main
    script registered the [second-instance] handler, whether Electron is
    ending the process ([will-quit] was emitted and no handler prevented
    it), and whether the process has ended. *)
Record process := Process {
  onSecondInstance : bool;
  quitting : bool;
  exited : bool;
  main : Supervisor.state
}.

(** [event.preventDefault()] in the [will-quit] handler: called when the
    handle is not [null]. *)
Definition will_quit_prevented (s : Supervisor.state) : bool :=
  bool_decide (is_Some (Supervisor.backendProcess s)).

(** [app.quit()]: Electron emits [before-quit], closes the windows (the
    [close] handler of the window prevents nothing once [before-quit] has
    set [isQuitting]), and then emits [will-quit]; unless the handler of
    [will-quit] prevents it, the process is to end. *)
Definition app_quit (h : Supervisor.host) (p : process) : process :=
  let s0 := main p in
  let s1 := default s0 (Supervisor.step h s0 Supervisor.EvBeforeQuit) in
  let s2 := default s1 (Supervisor.step h s1 Supervisor.EvWindowClosed) in
  let s3 := default s2 (Supervisor.step h s2 Supervisor.EvWillQuit) in
  Process (onSecondInstance p) (negb (will_quit_prevented s2)) (exited p) s3.

(** The main script, top to bottom.  [app.whenReady().then(...)] comes
    first and the handlers of [app], [process] and [ipcMain] follow: they
    are registered whatever the lock says, and are the events of
    [Supervisor.step].  The lock is asked for last: without it the script
    calls [app.quit()]; with it, it registers the [second-instance]
    handler. *)
Definition main_script (h : Supervisor.host) (gotTheLock : bool) : process :=
  let p := Process false false false Supervisor.init in
  if gotTheLock then Process true (quitting p) (exited p) (main p)
  else app_quit h p.

(** What happens to an instance: an event of its event loop, or its
    end. *)
Inductive input :=
| Loop (e : Supervisor.event)
| Exit.

Definition with_main (p : process) (s : Supervisor.state) : process :=
  Process (onSecondInstance p) (quitting p) (exited p) s.

(** Timer [t] is the one the [will-quit] handler set. *)
Definition pending_quit_timer (s : Supervisor.state) (t : nat) : bool :=
  match Supervisor.pending s !! t with
  | Some (Supervisor.Entry (Supervisor.OnTimer _ Supervisor.QuitLater) _) => true
  | _ => false
  end.

(** One event.  [second-instance] is delivered to the instance that
    registered a handler for it.  A command comes from the menu of the
    window, from the menu of the tray or from the page in the window, so
    there is none before one of them exists.  When the window has closed,
    [window-all-closed] follows, whose handler calls [app.quit()] where
    the platform is not darwin and there is no tray.  The callback of the
    [will-quit] timer calls [app.quit()].  The process ends only when
    Electron is ending it. *)
Definition step (h : Supervisor.host) (darwin : bool) (p : process) (i : input)
    : option process :=
  if exited p then None
  else match i with
  | Exit =>
      if quitting p then Some (Process (onSecondInstance p) (quitting p) true (main p))
      else None
  | Loop e =>
      let s := main p in
      match e with
      | Supervisor.EvSecondInstance _ _ =>
          if onSecondInstance p then with_main p <$> Supervisor.step h s e else None
      | Supervisor.EvCall _ =>
          if Supervisor.mainWindow s || Supervisor.tray s
          then with_main p <$> Supervisor.step h s e else None
      | Supervisor.EvWillQuit =>
          (λ s', Process (onSecondInstance p) (negb (will_quit_prevented s)) (exited p) s')
            <$> Supervisor.step h s e
      | Supervisor.EvWindowClosed =>
          (λ s', if negb darwin && negb (Supervisor.tray s')
                 then app_quit h (with_main p s') else with_main p s')
            <$> Supervisor.step h s e
      | Supervisor.EvTimer t =>
          if pending_quit_timer s t
          then (λ s', app_quit h (with_main p s')) <$> Supervisor.step h s e
          else with_main p <$> Supervisor.step h s e
      | _ => with_main p <$> Supervisor.step h s e
      end
  end.

Fixpoint run (h : Supervisor.host) (darwin : bool) (p : process) (ins : list input)
    : option process :=
  match ins with
  | [] => Some p
  | i :: rest =>
      match step h darwin p i with
      | Some p' => run h darwin p' rest
      | None => None
      end
  end.

(** A second instance whose start-up callback runs and whose health
    checks fail, for as long as the process has not ended. *)
Definition second_instance_starts_up : list input :=
  [Loop (Supervisor.EvReady true true); Loop (Supervisor.EvProbe 1 false);
   Loop (Supervisor.EvTimer 3); Loop (Supervisor.EvProbe 4 false)].

End Instance.


(** ** The window: minimizing to the tray *)

Module Window.

Inductive op := PreventDefault | Hide | DisplayBalloon.

#[global] Instance op_eq_dec : EqDecision op.
Proof. solve_decision. Defined.

(** The [minimize] handler of [createWindow()].  [hasMinimizedBefore] is
    the property the handler keeps on the window object ([undefined] on a
    new window); the result is what the handler calls, in order, and the
    property afterwards.  [tray] is [null] or the tray of [createTray()],
    which is never assigned again; [tray.displayBalloon] exists where the
    platform is win32. *)
Definition on_minimize (tray win32 hasMinimizedBefore : bool) : list op * bool :=
  if tray then
    if negb hasMinimizedBefore then
      ([PreventDefault; Hide] ++ (if win32 then [DisplayBalloon] else []), true)
    else ([PreventDefault; Hide], hasMinimizedBefore)
  else ([], hasMinimizedBefore).

(** The window is minimized [n] times. *)
Fixpoint minimizes (tray win32 : bool) (n : nat) (hasMinimizedBefore : bool)
    : list op * bool :=
  match n with
  | 0 => ([], hasMinimizedBefore)
  | S n' =>
      let '(ops, flag) := on_minimize tray win32 hasMinimizedBefore in
      let '(ops', flag') := minimizes tray win32 n' flag in
      (ops ++ ops', flag')
  end.

End Window.

(** * Properties *)

(** ** The health probe *)

Module ProberFacts.

Import Prober.

Lemma resolve_promise v s :
  promise (resolve v s) = match promise s with Pending => Resolved v | p => p end.
Proof. unfold resolve. destruct (promise s) eqn:E; cbn; congruence. Qed.

Lemma tryNextHost_promise s :
  promise (tryNextHost s) = promise s \/
  (promise s = Pending /\ promise (tryNextHost s) = Resolved false).
Proof.
  unfold tryNextHost. cbn [attempts promise].
  destruct (decide (S (attempts s) < length hostnames)) as [Hlt|Hge].
  - destruct (hostnames !! S (attempts s)); left; reflexivity.
  - rewrite resolve_promise. cbn [promise].
    destruct (promise s); auto.
Qed.

Lemma destroy_promise r s : promise (destroy r s) = promise s.
Proof. reflexivity. Qed.

(** A callback settles the promise with [true] only when it is a response
    with status 200. *)
Lemma deliver_true s cb s' :
  deliver s cb = Some s' -> promise s' = Resolved true ->
  promise s = Resolved true \/ exists r, cb = OnResponse r 200%Z.
Proof.
  unfold deliver. destruct (decide _) as [_|_]; [|discriminate].
  intros [= <-] Ht. destruct cb as [r code|r|r].
  - destruct (decide (code = 200%Z)) as [->|_]; [right; eauto|].
    destruct (tryNextHost_promise s) as [E|[_ E]]; rewrite E in Ht;
      [auto|discriminate].
  - destruct (tryNextHost_promise s) as [E|[_ E]]; rewrite E in Ht;
      [auto|discriminate].
  - destruct (tryNextHost_promise (destroy r s)) as [E|[_ E]]; rewrite E in Ht;
      [auto|discriminate].
Qed.

(** A callback that leaves the promise pending found it pending, counted
    one more attempt, and issued one more request. *)
Lemma deliver_pending s cb s' :
  deliver s cb = Some s' -> promise s' = Pending ->
  promise s = Pending /\ attempts s' = S (attempts s) /\
  S (attempts s) < length hostnames /\
  length (requests s') = S (length (requests s)).
Proof.
  assert (Hnext : forall s0, promise (tryNextHost s0) = Pending ->
            promise s0 = Pending /\ attempts (tryNextHost s0) = S (attempts s0) /\
            S (attempts s0) < length hostnames /\
            length (requests (tryNextHost s0)) = S (length (requests s0))).
  { intros s0. unfold tryNextHost. cbn [attempts promise requests destroyed].
    destruct (decide (S (attempts s0) < length hostnames)) as [Hlt|Hge].
    - destruct (hostnames !! S (attempts s0)) eqn:Hh.
      + cbn. rewrite length_app. cbn. intros ->. repeat split; [done|lia].
      + apply lookup_ge_None in Hh. lia.
    - rewrite resolve_promise. cbn [promise]. destruct (promise s0); discriminate. }
  unfold deliver. destruct (decide _) as [_|_]; [|discriminate].
  intros [= <-] Hp. destruct cb as [r code|r|r].
  - destruct (decide (code = 200%Z)) as [_|_]; [|auto].
    rewrite resolve_promise in Hp. destruct (promise s); discriminate.
  - auto.
  - apply Hnext in Hp. exact Hp.
Qed.

Lemma run_true cbs : forall s s',
  run s cbs = Some s' -> promise s' = Resolved true ->
  promise s = Resolved true \/ exists r, OnResponse r 200%Z ∈ cbs.
Proof.
  induction cbs as [|cb cbs IH]; intros s s'; cbn.
  - intros [= ->]. auto.
  - destruct (deliver s cb) as [s1|] eqn:Hd; [|discriminate].
    intros Hrun Ht. destruct (IH _ _ Hrun Ht) as [H1|[r Hr]].
    + destruct (deliver_true _ _ _ Hd H1) as [?|[r ->]]; [auto|].
      right. exists r. apply elem_of_cons. auto.
    + right. exists r. apply elem_of_cons. auto.
Qed.

Lemma run_pending cbs : forall s s',
  run s cbs = Some s' -> promise s' = Pending ->
  promise s = Pending /\ attempts s' = attempts s + length cbs /\
  length (requests s') = length (requests s) + length cbs /\
  (cbs <> [] -> attempts s' < S (length hostnames)) /\
  attempts s + length cbs <= Nat.max (attempts s) (length hostnames - 1).
Proof.
  induction cbs as [|cb cbs IH]; intros s s'; cbn [run].
  - intros [= ->] Hp. cbn. repeat split; try lia; try done.
  - destruct (deliver s cb) as [s1|] eqn:Hd; [|discriminate].
    intros Hrun Hp. destruct (IH _ _ Hrun Hp) as (Hp1 & Ha & Hr & _ & Hb).
    destruct (deliver_pending _ _ _ Hd Hp1) as (Hp0 & Ha1 & Hlt & Hr1).
    cbn [length]. repeat split; [done|lia|lia| |].
    + intros _. cbn in *. lia.
    + cbn in *. lia.
Qed.

(** The promise resolves [true] only if some request was answered with
    status 200. *)
Lemma probe_true_only_on_200 cbs s :
  run start cbs = Some s -> promise s = Resolved true ->
  exists r, OnResponse r 200%Z ∈ cbs.
Proof.
  intros Hrun Ht. destruct (run_true _ _ _ Hrun Ht) as [H|H]; [discriminate|exact H].
Qed.

(** Once every request that was issued has had a callback, the promise is
    settled: the probe does not hang as long as Node answers each request
    with a response, an error or a timeout. *)
Lemma probe_settles cbs s :
  run start cbs = Some s ->
  (forall i, i < length (requests s) -> exists cb, cb ∈ cbs /\ req_of cb = i) ->
  promise s <> Pending.
Proof.
  intros Hrun Hall Hp.
  destruct (run_pending _ _ _ Hrun Hp) as (_ & Ha & Hr & _ & Hb).
  cbn in Ha, Hr, Hb.
  destruct cbs as [|cb1 [|cb2 cbs]]; cbn in *.
  - destruct (Hall 0) as (cb & Hin & _); [lia|]. inversion Hin.
  - destruct (Hall 0) as (cb & Hin & H0); [lia|].
    destruct (Hall 1) as (cb' & Hin' & H1); [lia|].
    apply list_elem_of_singleton in Hin, Hin'. subst. congruence.
  - lia.
Qed.

Lemma probe_true_only_on_200_witness :
  exists r, OnResponse r 200%Z ∈ [OnError 0; OnResponse 1 200%Z].
Proof.
  apply (probe_true_only_on_200 [OnError 0; OnResponse 1 200%Z]
           (default start (run start [OnError 0; OnResponse 1 200%Z])));
    reflexivity.
Defined.

Lemma probe_settles_witness :
  run start [OnTimeout 0; OnTimeout 1] =
    Some (default start (run start [OnTimeout 0; OnTimeout 1])) /\
  promise (default start (run start [OnTimeout 0; OnTimeout 1])) <> Pending.
Proof.
  split; [reflexivity|].
  apply (probe_settles [OnTimeout 0; OnTimeout 1]); [reflexivity|].
  intros i Hi. destruct i as [|[|i]].
  - exists (OnTimeout 0). split; [left|reflexivity].
  - exists (OnTimeout 1). split; [right; left|reflexivity].
  - vm_compute in Hi. lia.
Defined.

(** C2 (the code at the failing input).  Node answers the request to
    127.0.0.1 with a timeout; the handler calls [req.destroy()], for which
    Node emits [error] on the same request; then localhost answers 200.
    Both handlers called [tryNextHost()], so the promise was already
    resolved [false] when the 200 arrived. *)
Theorem probe_timeout_then_200_is_false :
  exists s,
    run start [OnTimeout 0; OnError 0; OnResponse 1 200%Z] = Some s /\
    requests s = ["127.0.0.1"; "localhost"] /\
    destroyed s = [0] /\
    result s = Some false.
Proof. eexists. repeat split. Qed.


(** *** The hosts, the counter and the answer *)

Lemma well_formed_start : well_formed start.
Proof. split; [reflexivity|discriminate]. Qed.

Lemma well_formed_resolve_true s : well_formed s -> well_formed (resolve true s).
Proof.
  intros [Hr Hf]. unfold resolve. destruct (promise s) eqn:E; split; cbn; auto;
    try discriminate; rewrite ?E; auto.
Qed.

Lemma well_formed_destroy r s : well_formed s -> well_formed (destroy r s).
Proof. intros [Hr Hf]. split; exact Hr || exact Hf. Qed.

Lemma well_formed_tryNextHost s : well_formed s -> well_formed (tryNextHost s).
Proof.
  intros [Hr Hf]. unfold tryNextHost. cbn [attempts promise requests destroyed].
  destruct (decide (S (attempts s) < length hostnames)) as [Hlt|Hge].
  - destruct (hostnames !! S (attempts s)) eqn:Hh.
    + split; unfold tryConnection; cbn [attempts promise requests destroyed].
      * rewrite Hr. symmetry. apply take_S_r. exact Hh.
      * intros Hp. specialize (Hf Hp). lia.
    + apply lookup_ge_None in Hh. lia.
  - unfold resolve. cbn [promise attempts requests destroyed].
    destruct (promise s) eqn:E; split; cbn [attempts promise requests destroyed];
      rewrite ?E; try discriminate;
      try (rewrite Hr, !take_ge by lia; reflexivity).
    + intros _. lia.
    + intros Hp. specialize (Hf Hp). lia.
Qed.

Lemma well_formed_deliver s cb s' :
  deliver s cb = Some s' -> well_formed s -> well_formed s'.
Proof.
  unfold deliver. destruct (decide _) as [_|_]; [|discriminate].
  intros [= <-] H. destruct cb as [r code|r|r].
  - destruct (decide (code = 200%Z)).
    + apply well_formed_resolve_true, H.
    + apply well_formed_tryNextHost, H.
  - apply well_formed_tryNextHost, H.
  - apply well_formed_tryNextHost, well_formed_destroy, H.
Qed.

Lemma well_formed_run cbs : forall s s',
  run s cbs = Some s' -> well_formed s -> well_formed s'.
Proof.
  induction cbs as [|cb cbs IH]; intros s s'; cbn [run].
  - intros [= ->]. auto.
  - destruct (deliver s cb) as [s1|] eqn:Hd; [|discriminate].
    intros Hrun H. eapply IH; [exact Hrun|]. eapply well_formed_deliver; eauto.
Qed.

Lemma deliver_settled s cb s' v :
  deliver s cb = Some s' -> promise s = Resolved v -> promise s' = Resolved v.
Proof.
  unfold deliver. destruct (decide _) as [_|_]; [|discriminate].
  intros [= <-] Hp. destruct cb as [r code|r|r].
  - destruct (decide (code = 200%Z)).
    + rewrite resolve_promise, Hp. reflexivity.
    + destruct (tryNextHost_promise s) as [E|[E _]]; congruence.
  - destruct (tryNextHost_promise s) as [E|[E _]]; congruence.
  - destruct (tryNextHost_promise (destroy r s)) as [E|[E _]];
      rewrite ?destroy_promise in *; congruence.
Qed.

Lemma run_settled cbs : forall s s' v,
  run s cbs = Some s' -> promise s = Resolved v -> promise s' = Resolved v.
Proof.
  induction cbs as [|cb cbs IH]; intros s s' v; cbn [run].
  - intros [= ->]. auto.
  - destruct (deliver s cb) as [s1|] eqn:Hd; [|discriminate].
    intros Hrun H. eapply IH; [exact Hrun|]. eapply deliver_settled; eauto.
Qed.

(** Every callback that is not a 200 counts one attempt; a 200 counts
    none. *)
Lemma deliver_attempts s cb s' :
  deliver s cb = Some s' ->
  attempts s' = attempts s + (if failure cb then 1 else 0).
Proof.
  assert (Hn : forall s0, attempts (tryNextHost s0) = S (attempts s0)).
  { intros s0. unfold tryNextHost. cbn [attempts promise requests destroyed].
    destruct (decide _).
    - destruct (hostnames !! _); reflexivity.
    - unfold resolve. cbn. destruct (promise s0); reflexivity. }
  unfold deliver. destruct (decide _) as [_|_]; [|discriminate].
  intros [= <-]. destruct cb as [r code|r|r]; cbn [failure].
  - destruct (decide (code = 200%Z)) as [->|Hne].
    + rewrite bool_decide_eq_true_2 by reflexivity.
      unfold resolve. destruct (promise s); cbn; lia.
    + rewrite bool_decide_eq_false_2 by exact Hne. cbn. rewrite Hn. lia.
  - rewrite Hn. lia.
  - rewrite Hn. cbn. lia.
Qed.

Lemma run_attempts cbs : forall s s',
  run s cbs = Some s' ->
  attempts s' = attempts s + length (filter (λ cb, failure cb = true) cbs).
Proof.
  induction cbs as [|cb cbs IH]; intros s s'; cbn [run].
  - intros [= ->]. cbn. lia.
  - destruct (deliver s cb) as [s1|] eqn:Hd; [|discriminate].
    intros Hrun. rewrite (IH _ _ Hrun), (deliver_attempts _ _ _ Hd).
    rewrite filter_cons. destruct (failure cb) eqn:E.
    + rewrite decide_True by reflexivity. cbn. lia.
    + rewrite decide_False by discriminate. lia.
Qed.

(** The probe answers [false] only after both hosts were contacted and two
    callbacks reported a failure. *)
Theorem probe_false_only_after_both_hosts cbs s :
  run start cbs = Some s -> result s = Some false ->
  requests s = hostnames /\
  2 <= length (filter (λ cb, failure cb = true) cbs).
Proof.
  intros Hrun Hres.
  assert (Hp : promise s = Resolved false).
  { unfold result in Hres. destruct (promise s) as [|[]|]; congruence. }
  destruct (well_formed_run _ _ _ Hrun well_formed_start) as [Hr Hf].
  specialize (Hf Hp). pose proof (run_attempts _ _ _ Hrun) as Ha.
  cbn in Ha, Hf. split; [|lia].
  rewrite Hr. apply take_ge. cbn. lia.
Qed.

(** The hosts are contacted in the order of the list, each once at most,
    the first one always. *)
Theorem probe_contacts_hosts_in_order cbs s :
  run start cbs = Some s ->
  requests s `prefix_of` hostnames /\ "127.0.0.1" ∈ requests s /\
  length (requests s) = Nat.min (S (length (filter (λ cb, failure cb = true) cbs))) 2.
Proof.
  intros Hrun.
  destruct (well_formed_run _ _ _ Hrun well_formed_start) as [Hr _].
  pose proof (run_attempts _ _ _ Hrun) as Ha. cbn in Ha.
  rewrite Hr. split; [|split].
  - apply prefix_take.
  - cbn. left.
  - rewrite length_take. cbn [length hostnames]. lia.
Qed.

(** A settled probe stays as it is: no later callback changes the
    answer. *)
Theorem probe_answer_is_final cbs s s' v :
  result s = Some v -> run s cbs = Some s' -> result s' = Some v.
Proof.
  intros Hres Hrun. unfold result in *.
  destruct (promise s) as [|v0|] eqn:E; try discriminate.
  injection Hres as ->. rewrite (run_settled _ _ _ _ Hrun E). reflexivity.
Qed.

Lemma run_app cbs1 : forall cbs2 s s',
  run s (cbs1 ++ cbs2) = Some s' ->
  exists s1, run s cbs1 = Some s1 /\ run s1 cbs2 = Some s'.
Proof.
  induction cbs1 as [|cb cbs1 IH]; intros cbs2 s s'; cbn [run app].
  - eauto.
  - destruct (deliver s cb) as [s1|]; [apply IH|discriminate].
Qed.

Lemma run_reqs cbs : forall s s',
  run s cbs = Some s' -> well_formed s ->
  forall cb, cb ∈ cbs -> req_of cb < length hostnames.
Proof.
  induction cbs as [|cb cbs IH]; intros s s'; cbn [run].
  - intros _ _ cb Hin. inversion Hin.
  - destruct (deliver s cb) as [s1|] eqn:Hd; [|discriminate].
    intros Hrun Hwf cb' [->|Hin]%elem_of_cons.
    + unfold deliver in Hd. destruct (decide _) as [Hlt|_]; [|discriminate].
      destruct Hwf as [Hr _]. rewrite Hr, length_take in Hlt. lia.
    + eapply IH; eauto. eapply well_formed_deliver; eauto.
Qed.

Lemma run_failures cbs : forall s s',
  run s cbs = Some s' -> promise s = Pending ->
  Forall (λ cb, failure cb = true) cbs ->
  attempts s + length cbs < length hostnames -> promise s' = Pending.
Proof.
  induction cbs as [|cb cbs IH]; intros s s'; cbn [run length].
  - intros [= ->]. auto.
  - destruct (deliver s cb) as [s1|] eqn:Hd; [|discriminate].
    intros Hrun Hp [Hf Hall]%Forall_cons Hlt.
    pose proof (deliver_attempts _ _ _ Hd) as Ha. rewrite Hf in Ha.
    cbn [length] in Hlt.
    eapply IH; [exact Hrun| |exact Hall|lia].
    assert (Hn : forall s0, promise s0 = Pending ->
              S (attempts s0) < length hostnames -> promise (tryNextHost s0) = Pending).
    { intros s0 H0 H1. unfold tryNextHost. cbn [attempts promise requests destroyed].
      rewrite decide_True by exact H1. destruct (hostnames !! _); exact H0. }
    unfold deliver in Hd. destruct (decide _) as [_|_]; [|discriminate].
    injection Hd as <-. destruct cb as [r code|r|r]; cbn [failure] in Hf.
    + destruct (decide (code = 200%Z)) as [->|_].
      * rewrite bool_decide_eq_true_2 in Hf by reflexivity. discriminate.
      * apply Hn; [exact Hp|lia].
    + apply Hn; [exact Hp|lia].
    + apply Hn; [exact Hp|]. change (attempts (destroy r s)) with (attempts s). lia.
Qed.

(** A list of callbacks is all failures, or has a first response with
    status 200. *)
Lemma first_200 cbs :
  Forall (λ cb, failure cb = true) cbs \/
  exists pre r post, cbs = pre ++ OnResponse r 200%Z :: post /\
                     Forall (λ cb, failure cb = true) pre.
Proof.
  induction cbs as [|cb cbs IH]; [left; constructor|].
  destruct (failure cb) eqn:Hf.
  - destruct IH as [IH|(pre & r & post & -> & Hpre)].
    + left. constructor; assumption.
    + right. exists (cb :: pre), r, post. split; [reflexivity|].
      constructor; assumption.
  - right. destruct cb as [r code|r|r]; cbn in Hf; try discriminate.
    apply negb_false_iff, bool_decide_eq_true in Hf. subst code.
    exists [], r, cbs. split; [reflexivity|constructor].
Qed.

(** When Node gives every request one callback only, a host that answers
    200 makes the probe answer [true]. *)
Theorem probe_true_when_each_request_answers_once cbs s :
  run start cbs = Some s -> NoDup (req_of <$> cbs) ->
  (exists r, OnResponse r 200%Z ∈ cbs) -> result s = Some true.
Proof.
  intros Hrun Hnd [r Hin].
  destruct (first_200 cbs) as [Hall|(pre & r' & post & -> & Hpre)].
  { rewrite Forall_forall in Hall. specialize (Hall _ Hin). cbn in Hall.
    rewrite bool_decide_eq_true_2 in Hall by reflexivity. discriminate. }
  clear r Hin.
  assert (Hlen : length (pre ++ [OnResponse r' 200%Z]) <= length hostnames).
  { rewrite <- (length_fmap req_of).
    etransitivity; [|apply Nat.eq_le_incl, (length_seq (length hostnames) 0)].
    apply submseteq_length, NoDup_submseteq.
    - rewrite (cons_middle _ pre post), app_assoc, fmap_app in Hnd.
      apply NoDup_app in Hnd. apply Hnd.
    - intros x (cb & -> & Hcb)%list_elem_of_fmap. apply elem_of_seq.
      split; [lia|]. cbn [Nat.add].
      eapply (run_reqs _ _ _ Hrun well_formed_start).
      rewrite (cons_middle _ pre post), app_assoc. apply elem_of_app. auto. }
  rewrite length_app in Hlen. cbn [length] in Hlen.
  destruct (run_app _ _ _ _ Hrun) as (s1 & Hpre_run & Hrest).
  assert (Hp1 : promise s1 = Pending).
  { eapply run_failures; [exact Hpre_run|reflexivity|exact Hpre|cbn in *; lia]. }
  cbn [run] in Hrest.
  destruct (deliver s1 (OnResponse r' 200%Z)) as [s2|] eqn:Hd; [|discriminate].
  assert (Hp2 : result s2 = Some true).
  { unfold deliver in Hd. destruct (decide _) as [_|_]; [|discriminate].
    injection Hd as <-. destruct (decide (200%Z = 200%Z)); [|congruence].
    unfold result. rewrite resolve_promise, Hp1. reflexivity. }
  unfold result in *. destruct (promise s2) as [|v|] eqn:E; try discriminate.
  injection Hp2 as ->. rewrite (run_settled _ _ _ _ Hrest E). reflexivity.
Qed.

Lemma probe_false_only_after_both_hosts_witness :
  requests (default start (run start [OnResponse 0 404%Z; OnError 1])) = hostnames /\
  2 <= length (filter (λ cb, failure cb = true) [OnResponse 0 404%Z; OnError 1]).
Proof.
  apply (probe_false_only_after_both_hosts [OnResponse 0 404%Z; OnError 1]);
    reflexivity.
Defined.

Lemma probe_contacts_hosts_in_order_witness :
  requests (default start (run start [OnError 0])) `prefix_of` hostnames /\
  "127.0.0.1" ∈ requests (default start (run start [OnError 0])) /\
  length (requests (default start (run start [OnError 0]))) =
    Nat.min (S (length (filter (λ cb, failure cb = true) [OnError 0]))) 2.
Proof. apply (probe_contacts_hosts_in_order [OnError 0]). reflexivity. Defined.

Lemma probe_answer_is_final_witness :
  result (default start (run start [OnResponse 0 200%Z; OnError 0; OnError 0])) =
    Some true.
Proof.
  apply (probe_answer_is_final [OnError 0; OnError 0]
           (default start (run start [OnResponse 0 200%Z]))); reflexivity.
Defined.

Lemma probe_true_when_each_request_answers_once_witness :
  result (default start (run start [OnError 0; OnResponse 1 200%Z])) = Some true.
Proof.
  apply (probe_true_when_each_request_answers_once [OnError 0; OnResponse 1 200%Z]).
  - reflexivity.
  - apply (bool_decide_unpack _). reflexivity.
  - exists 1. right; left.
Defined.

End ProberFacts.

(** ** The supervisor *)

Module SupervisorFacts.

Import Supervisor.

Ltac run_eval := vm_compute; reflexivity.

(** *** [stopBackend] and its timer *)

Lemma stopBackend_handle c s : backendProcess (stopBackend c s) = None.
Proof.
  unfold stopBackend. cbn.
  destruct (backendProcess s) eqn:E; cbn; [reflexivity|exact E].
Qed.

Lemma stopBackend_idle c s :
  backendProcess s = None -> stopBackend c s = emit c (Enter FnStop) s.
Proof. intros E. unfold stopBackend. cbn. rewrite E. reflexivity. Qed.

(** *** The invariants, primitive by primitive *)

Lemma chain_trace_cons c x e l :
  chain_trace c ((x, e) :: l) = chain_trace c l ++ (if decide (x = c) then [e] else []).
Proof. reflexivity. Qed.

Lemma stages_cons c x e l :
  stages c ((x, e) :: l) = stages c l ++ (if decide (x = c) then stage_of e else []).
Proof.
  unfold stages. rewrite chain_trace_cons, bind_app.
  destruct (decide (x = c)); cbn; rewrite ?app_nil_r; reflexivity.
Qed.

Lemma if_decide_same {A} (P : Prop) `{Decision P} (x : A) :
  (if decide P then x else x) = x.
Proof. destruct (decide P); reflexivity. Qed.

Lemma stages_fresh s c : ids_fresh s -> nextCid s <= c -> stages c (log s) = [].
Proof. intros [_ H] Hc. unfold stages. rewrite (H c Hc). reflexivity. Qed.

Lemma expect_on_course w : on_course (expect w) = true.
Proof.
  destruct w as [ms [[[]|]| | | | |]|[[|[]| |]|]|]; reflexivity.
Qed.

Lemma mid_core o ex s s' : core s' = core s -> mid o ex s -> mid o ex s'.
Proof.
  unfold core, mid, ids_fresh, chains_ok. intros [= -> -> -> ->]. auto.
Qed.

Lemma inv_core s s' : core s' = core s -> inv s -> inv s'.
Proof.
  unfold core, inv, ids_fresh, chains_ok. intros [= -> -> -> ->]. auto.
Qed.

(** A handler starts on a fresh chain. *)
Lemma mid_begin s : inv s -> mid (nextCid s) [] (bump s).
Proof.
  intros ((Hid & Hlog) & (HA & HB) & HC).
  refine (conj (conj _ _) (conj (conj _ _) (conj _ (conj _ (conj _ _))))); cbn.
  - intros t e H. destruct (Hid _ _ H). lia.
  - intros c Hc. apply Hlog. lia.
  - exact HA.
  - exact HB.
  - lia.
  - intros t e H. destruct (Hid _ _ H). lia.
  - unfold stages. rewrite Hlog by lia. reflexivity.
  - intros c _. apply HC.
Qed.

(** A suspended continuation is resumed. *)
Lemma mid_resume s t w o :
  inv s -> pending s !! t = Some (Entry w o) -> mid o (expect w) (unqueue t s).
Proof.
  intros ((Hid & Hlog) & (HA & HB) & HC) Ht.
  refine (conj (conj _ _) (conj (conj _ _) (conj _ (conj _ (conj _ _))))); cbn.
  - intros t0 e H. apply lookup_delete_Some in H as [_ H]. apply (Hid _ _ H).
  - exact Hlog.
  - intros t0 e H. apply lookup_delete_Some in H as [_ H]. eauto.
  - intros t1 t2 e1 e2 H1 H2. apply lookup_delete_Some in H1 as [_ H1].
    apply lookup_delete_Some in H2 as [_ H2]. eauto.
  - destruct (Hid _ _ Ht). assumption.
  - intros t0 e H Ho. apply lookup_delete_Some in H as [Hne H].
    apply Hne. eapply HB; eauto.
  - apply (HA _ _ Ht).
  - intros c _. apply HC.
Qed.

(** The chain ends its turn without suspending. *)
Lemma mid_end o ex s : mid o ex s -> on_course ex = true -> inv s.
Proof.
  intros (Hid & Hch & Ho & HD & Hex & HC) Hok.
  refine (conj Hid (conj Hch _)).
  intros c. destruct (decide (c = o)) as [->|Hne]; [rewrite Hex; exact Hok|auto].
Qed.

Lemma mid_emit o ex e s : mid o ex s -> mid o (ex ++ stage_of e) (emit o e s).
Proof.
  intros ((Hid & Hlog) & (HA & HB) & Ho & HD & Hex & HC).
  refine (conj (conj _ _) (conj (conj _ _) (conj _ (conj _ (conj _ _)))));
    cbn [emit set_log pending nextTid nextCid log].
  - exact Hid.
  - intros c Hc. rewrite chain_trace_cons, Hlog by lia.
    destruct (decide (o = c)); [lia|reflexivity].
  - intros t e0 H. rewrite stages_cons.
    destruct (decide (o = owner e0)) as [E|_]; [exfalso; eapply HD; eauto|].
    rewrite app_nil_r. eauto.
  - exact HB.
  - exact Ho.
  - exact HD.
  - rewrite stages_cons, Hex. destruct (decide (o = o)); [reflexivity|congruence].
  - intros c Hc. rewrite stages_cons. destruct (decide (o = c)); [congruence|].
    rewrite app_nil_r. auto.
Qed.

(** The chain suspends and so ends its turn. *)
Lemma mid_suspend o ex w s : mid o ex s -> expect w = ex -> inv (suspend o w s).
Proof.
  intros ((Hid & Hlog) & (HA & HB) & Ho & HD & Hex & HC) Hw.
  refine (conj (conj _ _) (conj (conj _ _) _));
    cbn [suspend set_nextTid set_pending pending nextTid nextCid log].
  - intros t e H. apply lookup_insert_Some in H as [[<- <-]|[_ H]]; cbn; [lia|].
    destruct (Hid _ _ H). lia.
  - exact Hlog.
  - intros t e H. apply lookup_insert_Some in H as [[<- <-]|[_ H]]; cbn; [congruence|eauto].
  - intros t1 t2 e1 e2 H1 H2 E.
    apply lookup_insert_Some in H1 as [[<- <-]|[N1 H1]];
      apply lookup_insert_Some in H2 as [[<- <-]|[N2 H2]]; cbn in E.
    + reflexivity.
    + exfalso. eapply HD; eauto.
    + exfalso. eapply HD; eauto.
    + eauto.
  - intros c. destruct (decide (c = o)) as [->|Hne]; [|auto].
    rewrite Hex, <- Hw. apply expect_on_course.
Qed.

(** A call that is not awaited becomes a chain of its own: the new chain
    is suspended at once, and [e] (not a milestone) is emitted by chain
    [c], the caller or the new chain. *)
Lemma mid_fork o ex w c e s :
  mid o ex s -> expect w = [] -> stage_of e = [] -> c <= nextCid s ->
  mid o ex (suspend (nextCid s) w (emit c e (bump s))).
Proof.
  intros ((Hid & Hlog) & (HA & HB) & Ho & HD & Hex & HC) Hw He Hc.
  refine (conj (conj _ _) (conj (conj _ _) (conj _ (conj _ (conj _ _)))));
    cbn [suspend emit bump set_nextTid set_pending set_log set_nextCid
         pending nextTid nextCid log].
  - intros t e0 H. apply lookup_insert_Some in H as [[<- <-]|[_ H]]; cbn; [lia|].
    destruct (Hid _ _ H). lia.
  - intros c0 Hc0. rewrite chain_trace_cons, Hlog by lia.
    destruct (decide (c = c0)); [lia|reflexivity].
  - intros t e0 H. rewrite stages_cons, He, if_decide_same, app_nil_r.
    apply lookup_insert_Some in H as [[<- <-]|[_ H]]; cbn; [|eauto].
    rewrite Hw. unfold stages. rewrite Hlog by lia. reflexivity.
  - intros t1 t2 e1 e2 H1 H2 E.
    apply lookup_insert_Some in H1 as [[<- <-]|[N1 H1]];
      apply lookup_insert_Some in H2 as [[<- <-]|[N2 H2]]; cbn in E.
    + reflexivity.
    + destruct (Hid _ _ H2). lia.
    + destruct (Hid _ _ H1). lia.
    + eauto.
  - lia.
  - intros t e0 H. apply lookup_insert_Some in H as [[<- <-]|[_ H]]; cbn; [lia|eauto].
  - rewrite stages_cons, He, if_decide_same, app_nil_r. exact Hex.
  - intros c0 Hc0. rewrite stages_cons, He, if_decide_same, app_nil_r. auto.
Qed.

(** *** The invariants, function by function *)

Lemma mid_set_ready o ex v s : mid o ex s -> mid o ex (set_ready v s).
Proof. apply mid_core. reflexivity. Qed.
Lemma mid_set_mainWindow o ex v s : mid o ex s -> mid o ex (set_mainWindow v s).
Proof. apply mid_core. reflexivity. Qed.
Lemma mid_set_tray o ex v s : mid o ex s -> mid o ex (set_tray v s).
Proof. apply mid_core. reflexivity. Qed.
Lemma mid_set_trayDestroyed o ex v s : mid o ex s -> mid o ex (set_trayDestroyed v s).
Proof. apply mid_core. reflexivity. Qed.
Lemma mid_set_backendProcess o ex v s : mid o ex s -> mid o ex (set_backendProcess v s).
Proof. apply mid_core. reflexivity. Qed.
Lemma mid_set_isQuitting o ex v s : mid o ex s -> mid o ex (set_isQuitting v s).
Proof. apply mid_core. reflexivity. Qed.
Lemma mid_set_intervalArmed o ex v s : mid o ex s -> mid o ex (set_intervalArmed v s).
Proof. apply mid_core. reflexivity. Qed.
Lemma mid_set_running o ex v s : mid o ex s -> mid o ex (set_running v s).
Proof. apply mid_core. reflexivity. Qed.
Lemma mid_set_listening o ex v s : mid o ex s -> mid o ex (set_listening v s).
Proof. apply mid_core. reflexivity. Qed.
Lemma mid_set_unclosed o ex v s : mid o ex s -> mid o ex (set_unclosed v s).
Proof. apply mid_core. reflexivity. Qed.
Lemma mid_set_nextPid o ex v s : mid o ex s -> mid o ex (set_nextPid v s).
Proof. apply mid_core. reflexivity. Qed.

Ltac mid_skip :=
  lazymatch goal with
  | |- mid _ _ (set_ready _ _) => apply mid_set_ready
  | |- mid _ _ (set_mainWindow _ _) => apply mid_set_mainWindow
  | |- mid _ _ (set_tray _ _) => apply mid_set_tray
  | |- mid _ _ (set_trayDestroyed _ _) => apply mid_set_trayDestroyed
  | |- mid _ _ (set_backendProcess _ _) => apply mid_set_backendProcess
  | |- mid _ _ (set_isQuitting _ _) => apply mid_set_isQuitting
  | |- mid _ _ (set_intervalArmed _ _) => apply mid_set_intervalArmed
  | |- mid _ _ (set_running _ _) => apply mid_set_running
  | |- mid _ _ (set_listening _ _) => apply mid_set_listening
  | |- mid _ _ (set_unclosed _ _) => apply mid_set_unclosed
  | |- mid _ _ (set_nextPid _ _) => apply mid_set_nextPid
  end.

Lemma mid_emit_quiet o ex e s :
  mid o ex s -> stage_of e = [] -> mid o ex (emit o e s).
Proof.
  intros H He. pose proof (mid_emit o ex e s H) as H'.
  rewrite He, app_nil_r in H'. exact H'.
Qed.

Lemma mid_setTimeout o ex k ms s :
  mid o ex s -> expect (OnTimer ms k) = [] -> k <> Settle ->
  mid o ex (setTimeout o k ms s).
Proof.
  intros H Hw Hk. unfold setTimeout. apply mid_fork; [exact H|exact Hw| |].
  - destruct k; try reflexivity. congruence.
  - destruct H as (_ & _ & Ho & _). lia.
Qed.

Lemma mid_updateTrayMenu o ex s : mid o ex s -> mid o ex (updateTrayMenu s).
Proof.
  intros H. unfold updateTrayMenu. destruct (negb (tray s) || trayDestroyed s); [exact H|].
  unfold checkBackendWithHttp. apply mid_fork; [exact H|reflexivity|reflexivity|lia].
Qed.

Lemma mid_kill o ex p sg s : mid o ex s -> mid o ex (kill o p sg s).
Proof.
  intros H. unfold kill. destruct sg; repeat mid_skip; apply mid_emit_quiet; auto.
Qed.

Lemma mid_stopBackend o ex s : mid o ex s -> mid o (ex ++ [StStop]) (stopBackend o s).
Proof.
  intros H. unfold stopBackend. cbv zeta.
  change (backendProcess (emit o (Enter FnStop) s)) with (backendProcess s).
  pose proof (mid_emit o ex (Enter FnStop) s H) as H1.
  destruct (backendProcess s) as [p|]; [|exact H1].
  mid_skip. apply mid_setTimeout; [|reflexivity|discriminate].
  apply mid_kill. exact H1.
Qed.

Lemma mid_boot_timers o ex s : mid o ex s -> mid o ex (boot_timers o s).
Proof.
  intros H. unfold boot_timers. mid_skip.
  apply mid_setTimeout; [exact H|reflexivity|discriminate].
Qed.

Lemma mid_return_from_start o ex k s :
  mid o ex s -> mid o ex (return_from_start o k s).
Proof. intros H. destruct k; cbn; auto using mid_boot_timers. Qed.

Lemma mid_force_kill o ex s : mid o ex s -> mid o ex (force_kill o s).
Proof.
  intros H. unfold force_kill. destruct (backendProcess s); auto using mid_kill.
Qed.

Section WithHost.

Context (h : host).

Lemma mid_spawn_backend o ex s :
  mid o ex s -> mid o (ex ++ [StSpawn]) (spawn_backend h o s).
Proof.
  intros H. unfold spawn_backend.
  apply mid_setTimeout; [|reflexivity|discriminate].
  apply (mid_emit o ex (Spawn _ _ _)). repeat mid_skip. exact H.
Qed.

Lemma inv_sleep o ex k ms s :
  mid o ex s -> expect (OnTimer ms k) = ex ++ stage_of (SetTimeout 0 ms k) ->
  inv (sleep o k ms s).
Proof.
  intros H Hw. unfold sleep. eapply mid_suspend; [apply mid_emit; exact H|].
  rewrite Hw. reflexivity.
Qed.

Lemma inv_await_probe o ex k s :
  mid o ex s -> expect (OnProbe k) = ex -> inv (checkBackendWithHttp o k s).
Proof.
  intros H Hw. unfold checkBackendWithHttp.
  eapply mid_suspend; [apply mid_emit_quiet; [exact H|reflexivity]|exact Hw].
Qed.

Lemma inv_killExistingBackends o ex k s :
  mid o ex s -> expect (OnTimer 2000 (KillWait k)) = ex ++ [StCleanup] ->
  inv (killExistingBackends o k s).
Proof.
  intros H Hw. unfold killExistingBackends.
  eapply inv_sleep.
  - repeat mid_skip. apply mid_emit. exact H.
  - rewrite Hw. cbn. rewrite app_nil_r. reflexivity.
Qed.

Lemma inv_startBackend o ex k s :
  mid o ex s ->
  expect (OnTimer 2000 (KillWait (KillForStart k))) = ex ++ [StStart; StCleanup] ->
  inv (startBackend o k s).
Proof.
  intros H Hw. unfold startBackend. eapply inv_killExistingBackends.
  - apply mid_emit. exact H.
  - rewrite Hw, <- app_assoc. reflexivity.
Qed.

Lemma inv_startBackend_cleaned o k s :
  mid o (expect (OnTimer 2000 (KillWait (KillForStart k)))) s ->
  inv (startBackend_cleaned o k s).
Proof.
  intros H. unfold startBackend_cleaned. destruct (backendProcess s).
  - eapply mid_end; [apply mid_return_from_start; exact H|apply expect_on_course].
  - eapply inv_await_probe; [exact H|]. destruct k; reflexivity.
Qed.

Lemma inv_startBackend_probed o k isRunning s :
  mid o (expect (OnProbe (InStatus (ForStart k)))) s ->
  inv (startBackend_probed h o k isRunning s).
Proof.
  intros H. unfold startBackend_probed.
  destruct isRunning.
  { eapply mid_end; [apply mid_return_from_start; exact H|apply expect_on_course]. }
  destruct (negb (existsSync h (pythonExecutable h))).
  { eapply mid_end; [apply mid_return_from_start|apply expect_on_course].
    destruct (mainWindow s); repeat (apply mid_emit_quiet; [|reflexivity]); exact H. }
  destruct (negb (existsSync h (mainPyPath h))).
  { eapply mid_end; [apply mid_return_from_start|apply expect_on_course].
    destruct (mainWindow s); repeat (apply mid_emit_quiet; [|reflexivity]); exact H. }
  eapply mid_end; [apply mid_return_from_start, mid_spawn_backend; exact H|].
  destruct k; reflexivity.
Qed.

Lemma inv_checkReady_probed o n status s :
  mid o [] s -> inv (checkReady_probed h o n status s).
Proof.
  intros H. unfold checkReady_probed. destruct status.
  - apply (mid_end o []); [|reflexivity].
    destruct (tray s && win32 h); [apply mid_emit_quiet; [|reflexivity]|];
      apply mid_updateTrayMenu; exact H.
  - destruct (_ && _).
    + apply (mid_end o []); [|reflexivity].
      apply mid_setTimeout; [exact H|reflexivity|discriminate].
    + apply (mid_end o []); [|reflexivity]. apply mid_updateTrayMenu; exact H.
Qed.

Lemma inv_checkBackendStatus_probed o k isRunning s :
  mid o (expect (OnProbe (InStatus k))) s ->
  inv (checkBackendStatus_probed h o k isRunning s).
Proof.
  intros H. unfold checkBackendStatus_probed.
  assert (H1 : mid o (expect (OnProbe (InStatus k)))
                 (if tray s then updateTrayMenu s else s)).
  { destruct (tray s); [apply mid_updateTrayMenu|]; exact H. }
  clear H. revert H1. generalize (if tray s then updateTrayMenu s else s). intros s1 H1.
  destruct k as [|k'|n|].
  - destruct isRunning.
    + eapply mid_end; [apply mid_boot_timers; exact H1|reflexivity].
    + eapply inv_startBackend; [exact H1|reflexivity].
  - apply inv_startBackend_probed. exact H1.
  - apply inv_checkReady_probed. exact H1.
  - eapply mid_end; [apply mid_emit_quiet; [exact H1|reflexivity]|reflexivity].
Qed.

Lemma inv_fire o ms k s :
  mid o (expect (OnTimer ms k)) s -> inv (fire o k s).
Proof.
  intros H. destruct k as [[k'|]| | |n| |]; cbn [fire].
  - apply inv_startBackend_cleaned. exact H.
  - unfold restartBackend_cleaned. eapply inv_sleep.
    + apply mid_stopBackend. exact H.
    + reflexivity.
  - eapply inv_startBackend; [exact H|reflexivity].
  - eapply mid_end; [apply mid_force_kill; exact H|reflexivity].
  - eapply inv_await_probe; [exact H|reflexivity].
  - eapply mid_end; [apply mid_updateTrayMenu; exact H|reflexivity].
  - eapply mid_end; [apply mid_emit_quiet; [exact H|reflexivity]|reflexivity].
Qed.

Lemma inv_probed o k isUp s :
  mid o (expect (OnProbe k)) s -> inv (probed h o k isUp s).
Proof.
  intros H. destruct k as [k'|]; cbn [probed].
  - apply inv_checkBackendStatus_probed. exact H.
  - unfold updateTrayMenu_probed. destruct isUp.
    + eapply mid_end; [apply mid_emit; exact H|reflexivity].
    + eapply mid_suspend; [apply mid_emit; exact H|reflexivity].
Qed.

Lemma inv_fallback o r s :
  mid o (expect OnAxios) s -> inv (updateTrayMenu_fallback o r s).
Proof.
  intros H. unfold updateTrayMenu_fallback.
  eapply mid_end; [apply mid_emit; exact H|].
  cbn. destruct r as [st|]; [|reflexivity].
  destruct (validateStatus st && bool_decide (st = 200%Z)); reflexivity.
Qed.

Lemma inv_init : inv init.
Proof.
  refine (conj (conj _ _) (conj (conj _ _) _)); cbn.
  - intros t e H. rewrite lookup_empty in H. discriminate.
  - reflexivity.
  - intros t e H. rewrite lookup_empty in H. discriminate.
  - intros t1 t2 e1 e2 H. rewrite lookup_empty in H. discriminate.
  - reflexivity.
Qed.

(** Every turn of the event loop keeps the invariant. *)
Lemma inv_step s e s' : inv s -> step h s e = Some s' -> inv s'.
Proof.
  intros Hinv. pose proof (mid_begin s Hinv) as Hb.
  destruct e as [w t|cmd| |t|t up|t r|p|p marker|p code|p|m v| | | |]; cbn [step].
  - destruct (ready s); [discriminate|]. intros [= <-]. unfold app_ready.
    eapply inv_await_probe; [|reflexivity].
    destruct t; [apply mid_updateTrayMenu|]; repeat mid_skip; exact Hb.
  - intros [= <-]. destruct cmd; cbn [call].
    + eapply inv_startBackend; [exact Hb|reflexivity].
    + eapply mid_end; [apply mid_stopBackend; exact Hb|reflexivity].
    + unfold restartBackend. eapply inv_killExistingBackends;
        [apply mid_emit; exact Hb|reflexivity].
    + eapply inv_await_probe; [exact Hb|reflexivity].
  - destruct (intervalArmed s); [|discriminate]. intros [= <-].
    unfold updateTrayMenu. destruct (negb (tray s) || trayDestroyed s); [exact Hinv|].
    eapply inv_await_probe; [exact Hb|reflexivity].
  - destruct (pending s !! t) as [[[ms k|k|] o]|] eqn:Ht; try discriminate.
    intros [= <-]. eapply inv_fire, mid_resume; eauto.
  - destruct (pending s !! t) as [[[ms k|k|] o]|] eqn:Ht; try discriminate.
    intros [= <-]. eapply inv_probed, (mid_resume _ _ _ _ Hinv Ht).
  - destruct (pending s !! t) as [[[ms k|k|] o]|] eqn:Ht; try discriminate.
    intros [= <-]. eapply inv_fallback, (mid_resume _ _ _ _ Hinv Ht).
  - destruct (bool_decide _); [|discriminate]. intros [= <-].
    eapply inv_core; [|exact Hinv]. reflexivity.
  - destruct (bool_decide _); [|discriminate]. intros [= <-].
    destruct marker; [|exact Hinv].
    apply (mid_end (nextCid s) []); [|reflexivity].
    apply mid_setTimeout; [exact Hb|reflexivity|discriminate].
  - destruct (bool_decide _); [|discriminate]. intros [= <-].
    apply (mid_end (nextCid s) []); [|reflexivity]. unfold on_close.
    assert (Hr : mid (nextCid s) [] (set_backendProcess None (reap p (bump s)))).
    { unfold reap. repeat mid_skip. exact Hb. }
    revert Hr. generalize (set_backendProcess None (reap p (bump s))). intros s1 Hr.
    destruct (_ && _); [|exact Hr].
    apply mid_updateTrayMenu.
    destruct (win32 h); [apply mid_emit_quiet; [|reflexivity]|]; exact Hr.
  - destruct (bool_decide _); [|discriminate]. intros [= <-].
    apply (mid_end (nextCid s) []); [|reflexivity]. unfold on_error.
    cbn [mainWindow set_backendProcess emit set_log set_listening set_running bump set_nextCid].
    destruct (mainWindow s).
    + apply mid_emit_quiet; [|reflexivity]. mid_skip.
      apply mid_emit_quiet; [|reflexivity]. repeat mid_skip. exact Hb.
    + mid_skip. apply mid_emit_quiet; [|reflexivity]. repeat mid_skip. exact Hb.
  - intros [= <-]. apply (mid_end (nextCid s) []); [|reflexivity].
    generalize (SingleInstance.second_instance (mainWindow s) m v). intros ops.
    revert Hb. generalize (bump s). intros s1. revert s1.
    induction ops as [|op ops IH]; intros s1 Hs1; cbn [foldl]; [exact Hs1|].
    apply IH. apply mid_emit_quiet; [exact Hs1|reflexivity].
  - destruct (mainWindow s); [|discriminate]. intros [= <-].
    eapply inv_core; [|exact Hinv]. reflexivity.
  - destruct (tray s); [|discriminate]. intros [= <-].
    eapply inv_core; [|exact Hinv]. reflexivity.
  - intros [= <-]. apply (mid_end (nextCid s) ([] ++ [StStop])); [|reflexivity].
    apply mid_stopBackend. mid_skip. exact Hb.
  - intros [= <-]. unfold on_will_quit. cbn [backendProcess bump set_nextCid].
    destruct (backendProcess s).
    + apply (mid_end (nextCid s) ([] ++ [StStop])); [|reflexivity].
      apply mid_setTimeout; [|reflexivity|discriminate].
      apply mid_stopBackend. exact Hb.
    + eapply mid_end; [exact Hb|reflexivity].
Qed.

Lemma inv_run evs : forall s s', inv s -> run h s evs = Some s' -> inv s'.
Proof.
  induction evs as [|e evs IH]; intros s s' Hs; cbn [run].
  - intros [= <-]. exact Hs.
  - destruct (step h s e) as [s1|] eqn:He; [|discriminate].
    apply IH. eapply inv_step; eauto.
Qed.

End WithHost.

(** *** Frames: what a turn leaves alone *)

Create HintDb frames.

Lemma grows_refl s : grows s s.
Proof. split; [lia|auto]. Qed.

Lemma grows_core s x s' :
  (pending s', nextTid s') = (pending x, nextTid x) -> grows s x -> grows s s'.
Proof. intros [= Hp Hn] [H1 H2]. split; [lia|]. intros t Ht. rewrite Hp. auto. Qed.

Lemma grows_suspend s x c w : grows s x -> grows s (suspend c w x).
Proof.
  intros [H1 H2]. split; cbn; [lia|]. intros t Ht.
  rewrite lookup_insert_ne by lia. auto.
Qed.

Lemma calm_refl s : calm s s.
Proof. repeat split. Qed.

Lemma calm_core s x s' :
  (backendProcess s', running s', listening s', unclosed s', nextPid s', log s') =
  (backendProcess x, running x, listening x, unclosed x, nextPid x, log x) ->
  calm s x -> calm s s'.
Proof.
  unfold calm, spawned, signalled.
  intros [= -> -> -> -> -> ->]. auto.
Qed.

Lemma calm_emit s x c e : calm s x -> benign e -> calm s (emit c e x).
Proof.
  unfold calm, spawned, signalled. intros (H1 & H2 & H3 & H4 & H5 & H6 & H7) He.
  cbn. repeat split; try assumption.
  - rewrite H6. destruct e; cbn in *; try apply app_nil_r. contradiction.
  - intros sg. rewrite H7. destruct e; cbn in *; try apply app_nil_r. contradiction.
Qed.

Lemma grows_emit s x c e : grows s x -> grows s (emit c e x).
Proof. apply grows_core. reflexivity. Qed.
Lemma grows_bump s x : grows s x -> grows s (bump x).
Proof. apply grows_core. reflexivity. Qed.
Lemma grows_set_ready s x v : grows s x -> grows s (set_ready v x).
Proof. apply grows_core. reflexivity. Qed.
Lemma grows_set_mainWindow s x v : grows s x -> grows s (set_mainWindow v x).
Proof. apply grows_core. reflexivity. Qed.
Lemma grows_set_tray s x v : grows s x -> grows s (set_tray v x).
Proof. apply grows_core. reflexivity. Qed.
Lemma grows_set_trayDestroyed s x v : grows s x -> grows s (set_trayDestroyed v x).
Proof. apply grows_core. reflexivity. Qed.
Lemma grows_set_backendProcess s x v : grows s x -> grows s (set_backendProcess v x).
Proof. apply grows_core. reflexivity. Qed.
Lemma grows_set_isQuitting s x v : grows s x -> grows s (set_isQuitting v x).
Proof. apply grows_core. reflexivity. Qed.
Lemma grows_set_intervalArmed s x v : grows s x -> grows s (set_intervalArmed v x).
Proof. apply grows_core. reflexivity. Qed.
Lemma grows_set_running s x v : grows s x -> grows s (set_running v x).
Proof. apply grows_core. reflexivity. Qed.
Lemma grows_set_listening s x v : grows s x -> grows s (set_listening v x).
Proof. apply grows_core. reflexivity. Qed.
Lemma grows_set_unclosed s x v : grows s x -> grows s (set_unclosed v x).
Proof. apply grows_core. reflexivity. Qed.
Lemma grows_set_nextPid s x v : grows s x -> grows s (set_nextPid v x).
Proof. apply grows_core. reflexivity. Qed.
Lemma calm_bump s x : calm s x -> calm s (bump x).
Proof. apply calm_core. reflexivity. Qed.
Lemma calm_suspend s x c w : calm s x -> calm s (suspend c w x).
Proof. apply calm_core. reflexivity. Qed.
Lemma calm_unqueue s x t : calm s x -> calm s (unqueue t x).
Proof. apply calm_core. reflexivity. Qed.
Lemma calm_set_ready s x v : calm s x -> calm s (set_ready v x).
Proof. apply calm_core. reflexivity. Qed.
Lemma calm_set_mainWindow s x v : calm s x -> calm s (set_mainWindow v x).
Proof. apply calm_core. reflexivity. Qed.
Lemma calm_set_tray s x v : calm s x -> calm s (set_tray v x).
Proof. apply calm_core. reflexivity. Qed.
Lemma calm_set_trayDestroyed s x v : calm s x -> calm s (set_trayDestroyed v x).
Proof. apply calm_core. reflexivity. Qed.
Lemma calm_set_isQuitting s x v : calm s x -> calm s (set_isQuitting v x).
Proof. apply calm_core. reflexivity. Qed.
Lemma calm_set_intervalArmed s x v : calm s x -> calm s (set_intervalArmed v x).
Proof. apply calm_core. reflexivity. Qed.

#[local] Hint Resolve grows_refl grows_suspend grows_emit grows_bump
  grows_set_ready grows_set_mainWindow grows_set_tray grows_set_trayDestroyed grows_set_backendProcess grows_set_isQuitting grows_set_intervalArmed grows_set_running grows_set_listening grows_set_unclosed grows_set_nextPid : frames.
#[local] Hint Resolve calm_refl calm_emit calm_bump calm_suspend calm_unqueue
  calm_set_ready calm_set_mainWindow calm_set_tray calm_set_trayDestroyed calm_set_isQuitting calm_set_intervalArmed : frames.
#[local] Hint Extern 0 (benign _) => exact I : frames.
#[local] Hint Extern 2 (grows _ (if ?b then _ else _)) => destruct b : frames.
#[local] Hint Extern 2 (grows _ (match ?x with _ => _ end)) => destruct x : frames.
#[local] Hint Extern 2 (calm _ (if ?b then _ else _)) => destruct b : frames.
#[local] Hint Extern 2 (calm _ (match ?x with _ => _ end)) => destruct x : frames.

Ltac frame f := intros; unfold f; cbv zeta; eauto 30 with frames.

Lemma grows_sleep s x c k ms : grows s x -> grows s (sleep c k ms x).
Proof. frame sleep. Qed.
Lemma grows_setTimeout s x c k ms : grows s x -> grows s (setTimeout c k ms x).
Proof. frame setTimeout. Qed.
Lemma grows_checkBackendWithHttp s x c k :
  grows s x -> grows s (checkBackendWithHttp c k x).
Proof. frame checkBackendWithHttp. Qed.
#[local] Hint Resolve grows_sleep grows_setTimeout grows_checkBackendWithHttp : frames.
Lemma grows_updateTrayMenu s x : grows s x -> grows s (updateTrayMenu x).
Proof. frame updateTrayMenu. Qed.
Lemma grows_killExistingBackends s x c k :
  grows s x -> grows s (killExistingBackends c k x).
Proof. frame killExistingBackends. Qed.
#[local] Hint Resolve grows_updateTrayMenu grows_killExistingBackends : frames.
Lemma grows_boot_timers s x c : grows s x -> grows s (boot_timers c x).
Proof. frame boot_timers. Qed.
Lemma grows_kill s x c p sg : grows s x -> grows s (kill c p sg x).
Proof. frame kill. Qed.
#[local] Hint Resolve grows_boot_timers grows_kill : frames.
Lemma grows_return_from_start s x c k : grows s x -> grows s (return_from_start c k x).
Proof. frame return_from_start. Qed.
Lemma grows_stopBackend s x c : grows s x -> grows s (stopBackend c x).
Proof.
  intros H. unfold stopBackend. cbv zeta.
  change (backendProcess (emit c (Enter FnStop) x)) with (backendProcess x).
  destruct (backendProcess x); eauto 10 with frames.
Qed.
Lemma grows_startBackend s x c k : grows s x -> grows s (startBackend c k x).
Proof. frame startBackend. Qed.
Lemma grows_force_kill s x c : grows s x -> grows s (force_kill c x).
Proof. frame force_kill. Qed.
#[local] Hint Resolve grows_return_from_start grows_stopBackend grows_startBackend
  grows_force_kill : frames.
Lemma grows_startBackend_cleaned s x c k :
  grows s x -> grows s (startBackend_cleaned c k x).
Proof. frame startBackend_cleaned. Qed.
Lemma grows_restartBackend s x c : grows s x -> grows s (restartBackend c x).
Proof. frame restartBackend. Qed.
Lemma grows_restartBackend_cleaned s x c :
  grows s x -> grows s (restartBackend_cleaned c x).
Proof. frame restartBackend_cleaned. Qed.
#[local] Hint Resolve grows_startBackend_cleaned grows_restartBackend
  grows_restartBackend_cleaned : frames.

Lemma calm_sleep s x c k ms : calm s x -> calm s (sleep c k ms x).
Proof. frame sleep. Qed.
Lemma calm_setTimeout s x c k ms : calm s x -> calm s (setTimeout c k ms x).
Proof. frame setTimeout. Qed.
Lemma calm_checkBackendWithHttp s x c k :
  calm s x -> calm s (checkBackendWithHttp c k x).
Proof. frame checkBackendWithHttp. Qed.
#[local] Hint Resolve calm_sleep calm_setTimeout calm_checkBackendWithHttp : frames.
Lemma calm_updateTrayMenu s x : calm s x -> calm s (updateTrayMenu x).
Proof. frame updateTrayMenu. Qed.
#[local] Hint Resolve calm_updateTrayMenu : frames.
Lemma calm_boot_timers s x c : calm s x -> calm s (boot_timers c x).
Proof. frame boot_timers. Qed.
#[local] Hint Resolve calm_boot_timers : frames.
Lemma calm_return_from_start s x c k : calm s x -> calm s (return_from_start c k x).
Proof. frame return_from_start. Qed.
#[local] Hint Resolve calm_return_from_start : frames.

Section WithHost.
Context (h : host).

Lemma grows_spawn_backend s x c : grows s x -> grows s (spawn_backend h c x).
Proof. frame spawn_backend. Qed.
#[local] Hint Resolve grows_spawn_backend : frames.
Lemma grows_startBackend_probed s x c k up :
  grows s x -> grows s (startBackend_probed h c k up x).
Proof. frame startBackend_probed. Qed.
Lemma grows_checkReady_probed s x c n up :
  grows s x -> grows s (checkReady_probed h c n up x).
Proof. frame checkReady_probed. Qed.
#[local] Hint Resolve grows_startBackend_probed grows_checkReady_probed : frames.
Lemma grows_checkBackendStatus_probed s x c k up :
  grows s x -> grows s (checkBackendStatus_probed h c k up x).
Proof.
  intros H. unfold checkBackendStatus_probed.
  assert (H1 : grows s (if tray x then updateTrayMenu x else x)) by eauto with frames.
  revert H1. generalize (if tray x then updateTrayMenu x else x). intros x1 H1.
  destruct k; eauto 10 with frames.
Qed.
#[local] Hint Resolve grows_checkBackendStatus_probed : frames.

Lemma grows_fire s x o k : grows s x -> grows s (fire o k x).
Proof. intros H. destruct k as [[]| | | | |]; cbn [fire]; unfold checkBackendStatus; eauto with frames. Qed.

Lemma grows_probed s x o k up : grows s x -> grows s (probed h o k up x).
Proof. intros H. destruct k; cbn [probed]; unfold updateTrayMenu_probed; eauto 10 with frames. Qed.

Lemma grows_foldl_window s c ops : forall x,
  grows s x -> grows s (foldl (λ s' op, emit c (Window op) s') x ops).
Proof.
  induction ops as [|op ops IH]; intros x Hx; cbn [foldl]; [exact Hx|].
  apply IH. eauto with frames.
Qed.

(** A turn of the event loop takes out the continuation it resumes and no
    other. *)
Lemma step_keeps s e s' t en :
  step h s e = Some s' -> pending s !! t = Some en -> t < nextTid s ->
  e <> EvTimer t -> (forall up, e <> EvProbe t up) -> (forall r, e <> EvAxios t r) ->
  pending s' !! t = Some en /\ t < nextTid s'.
Proof.
  intros Hstep Ht Hlt N1 N2 N3.
  assert (G : forall x, grows x s' ->
            (pending x !! t = Some en /\ nextTid s <= nextTid x) ->
            pending s' !! t = Some en /\ t < nextTid s').
  { intros x [G1 G2] [Hx Hn]. split; [|lia]. rewrite G2 by lia. exact Hx. }
  assert (U : forall t0, t0 <> t ->
            pending (unqueue t0 s) !! t = Some en /\ nextTid s <= nextTid (unqueue t0 s)).
  { intros t0 Hne. split; [|cbn; lia]. cbn. rewrite lookup_delete_ne by exact Hne. exact Ht. }
  destruct e as [w tr|cmd| |t0|t0 up|t0 r|p|p marker|p code|p|m v| | | |];
    cbn [step] in Hstep.
  - destruct (ready s); [discriminate|]. injection Hstep as <-.
    apply (G s); [|auto]. unfold app_ready, checkBackendStatus. cbv zeta.
    destruct tr; eauto 10 with frames.
  - injection Hstep as <-. apply (G s); [|auto].
    destruct cmd; cbn [call]; unfold checkBackendStatus; eauto with frames.
  - destruct (intervalArmed s); [|discriminate]. injection Hstep as <-.
    apply (G s); [eauto with frames|auto].
  - destruct (pending s !! t0) as [[[ms k|k|] o]|] eqn:Ht0; try discriminate.
    injection Hstep as <-. apply (G (unqueue t0 s)); [apply grows_fire, grows_refl|].
    apply U. congruence.
  - destruct (pending s !! t0) as [[[ms k|k|] o]|] eqn:Ht0; try discriminate.
    injection Hstep as <-. apply (G (unqueue t0 s)); [apply grows_probed, grows_refl|].
    apply U. intros ->. eapply N2; eauto.
  - destruct (pending s !! t0) as [[[ms k|k|] o]|] eqn:Ht0; try discriminate.
    injection Hstep as <-. apply (G (unqueue t0 s)).
    + unfold updateTrayMenu_fallback. cbv zeta. eauto with frames.
    + apply U. intros ->. eapply N3; eauto.
  - destruct (bool_decide _); [|discriminate]. injection Hstep as <-.
    apply (G s); [eauto with frames|auto].
  - destruct (bool_decide _); [|discriminate]. injection Hstep as <-.
    apply (G s); [|auto]. destruct marker; eauto with frames.
  - destruct (bool_decide _); [|discriminate]. injection Hstep as <-.
    apply (G s); [|auto]. unfold on_close, reap. cbv zeta.
    change (isQuitting (set_backendProcess None ?x)) with (isQuitting x).
    change (tray (set_backendProcess None ?x)) with (tray x).
    destruct (_ && _); [destruct (win32 h)|]; eauto 15 with frames.
  - destruct (bool_decide _); [|discriminate]. injection Hstep as <-.
    apply (G s); [|auto]. unfold on_error. cbv zeta.
    change (mainWindow (set_backendProcess None ?x)) with (mainWindow x).
    destruct (mainWindow _); eauto 10 with frames.
  - injection Hstep as <-. apply (G s); [|auto].
    apply grows_foldl_window. eauto with frames.
  - destruct (mainWindow s); [|discriminate]. injection Hstep as <-.
    apply (G s); [eauto with frames|auto].
  - destruct (tray s); [|discriminate]. injection Hstep as <-.
    apply (G s); [eauto with frames|auto].
  - injection Hstep as <-. apply (G s); [eauto with frames|auto].
  - injection Hstep as <-. apply (G s); [|auto]. unfold on_will_quit.
    destruct (backendProcess _); eauto with frames.
Qed.

End WithHost.


(** *** Frames, continued: a machine on which nothing was spawned *)

Lemma calm_trans s x y : calm s x -> calm x y -> calm s y.
Proof.
  unfold calm. intros (H1 & H2 & H3 & H4 & H5 & H6 & H7) (G1 & G2 & G3 & G4 & G5 & G6 & G7).
  repeat split; congruence.
Qed.

Lemma calm_never_spawned s x : never_spawned s -> calm s x -> never_spawned x.
Proof.
  unfold never_spawned, calm.
  intros (H1 & H2 & H3 & H4 & H5 & H6) (G1 & G2 & G3 & G4 & G5 & G6 & G7).
  repeat split; congruence.
Qed.

Lemma calm_idle_stopBackend s x c :
  never_spawned s -> calm s x -> calm s (stopBackend c x).
Proof.
  intros Hs Hx. pose proof (calm_never_spawned _ _ Hs Hx) as (Hh & _).
  rewrite stopBackend_idle by exact Hh. eauto with frames.
Qed.

Lemma calm_idle_force_kill s x c :
  never_spawned s -> calm s x -> calm s (force_kill c x).
Proof.
  intros Hs Hx. pose proof (calm_never_spawned _ _ Hs Hx) as (Hh & _).
  unfold force_kill. rewrite Hh. exact Hx.
Qed.

Lemma calm_idle_killExistingBackends s x c k :
  never_spawned s -> calm s x -> calm s (killExistingBackends c k x).
Proof.
  intros Hs Hx. pose proof (calm_never_spawned _ _ Hs Hx) as (_ & Hr & Hl & _).
  unfold killExistingBackends. cbv zeta. apply calm_sleep.
  eapply calm_trans; [exact Hx|].
  unfold calm, spawned, signalled. cbn. rewrite Hr, Hl. cbn.
  repeat split; intros; apply app_nil_r.
Qed.

#[local] Hint Resolve calm_idle_stopBackend calm_idle_force_kill
  calm_idle_killExistingBackends : frames.

Lemma calm_idle_startBackend s x c k :
  never_spawned s -> calm s x -> calm s (startBackend c k x).
Proof. frame startBackend. Qed.
Lemma calm_startBackend_cleaned s x c k :
  calm s x -> calm s (startBackend_cleaned c k x).
Proof. frame startBackend_cleaned. Qed.
Lemma calm_idle_restartBackend s x c :
  never_spawned s -> calm s x -> calm s (restartBackend c x).
Proof. frame restartBackend. Qed.
Lemma calm_idle_restartBackend_cleaned s x c :
  never_spawned s -> calm s x -> calm s (restartBackend_cleaned c x).
Proof. frame restartBackend_cleaned. Qed.
Lemma calm_idle_on_will_quit s x c :
  never_spawned s -> calm s x -> calm s (on_will_quit c x).
Proof.
  intros Hs Hx. pose proof (calm_never_spawned _ _ Hs Hx) as (Hh & _).
  unfold on_will_quit. rewrite Hh. exact Hx.
Qed.
#[local] Hint Resolve calm_idle_startBackend calm_startBackend_cleaned
  calm_idle_restartBackend calm_idle_restartBackend_cleaned calm_idle_on_will_quit : frames.

Lemma calm_idle_fire s x o k :
  never_spawned s -> calm s x -> calm s (fire o k x).
Proof.
  intros Hs Hx. destruct k as [[]| | | | |]; cbn [fire]; unfold checkBackendStatus;
    eauto with frames.
Qed.

Lemma calm_fallback s x o r : calm s x -> calm s (updateTrayMenu_fallback o r x).
Proof. frame updateTrayMenu_fallback. Qed.

Lemma calm_foldl_window s c ops : forall x,
  calm s x -> calm s (foldl (λ s' op, emit c (Window op) s') x ops).
Proof.
  induction ops as [|op ops IH]; intros x Hx; cbn [foldl]; [exact Hx|].
  apply IH. eauto with frames.
Qed.

Section WithHost.

Context (h : host).

Lemma calm_checkReady_probed s x c n up :
  calm s x -> calm s (checkReady_probed h c n up x).
Proof. frame checkReady_probed. Qed.

(** [startBackend()] spawns nothing when its health check says the
    backend is up. *)
Lemma calm_startBackend_probed_up s x c k :
  calm s x -> calm s (startBackend_probed h c k true x).
Proof. intros H. unfold startBackend_probed. eauto with frames. Qed.

(** [startBackend()] spawns nothing when a file is missing. *)
Lemma calm_startBackend_probed_missing s x c k up :
  missing_file h -> calm s x -> calm s (startBackend_probed h c k up x).
Proof.
  intros Hm H. unfold startBackend_probed. destruct up; [eauto with frames|].
  destruct (existsSync h (pythonExecutable h)) eqn:E1; cbn [negb].
  - destruct (existsSync h (mainPyPath h)) eqn:E2; cbn [negb].
    + destruct Hm; congruence.
    + cbv zeta. eauto 10 with frames.
  - cbv zeta. eauto 10 with frames.
Qed.

#[local] Hint Resolve calm_checkReady_probed : frames.

Lemma calm_idle_probed s x o k up :
  missing_file h -> never_spawned s -> calm s x -> calm s (probed h o k up x).
Proof.
  intros Hm Hs Hx. destruct k as [k|]; cbn [probed].
  - unfold checkBackendStatus_probed.
    assert (H1 : calm s (if tray x then updateTrayMenu x else x)) by eauto with frames.
    revert H1. generalize (if tray x then updateTrayMenu x else x). intros x1 H1.
    destruct k; eauto 10 using calm_startBackend_probed_missing with frames.
  - unfold updateTrayMenu_probed. eauto 10 with frames.
Qed.

(** On a machine where a file is missing, no turn of the event loop ever
    spawns a child. *)
Lemma never_spawned_step s e s' :
  missing_file h -> never_spawned s -> step h s e = Some s' -> never_spawned s'.
Proof.
  intros Hm Hs Hstep. apply (calm_never_spawned s); [exact Hs|].
  pose proof Hs as (Hh & Hr & Hl & Hu & _).
  destruct e as [w tr|cmd| |t0|t0 up|t0 r|p|p marker|p code|p|m v| | | |];
    cbn [step] in Hstep.
  - destruct (ready s); [discriminate|]. injection Hstep as <-.
    unfold app_ready, checkBackendStatus. cbv zeta. destruct tr; eauto 10 with frames.
  - injection Hstep as <-. destruct cmd; cbn [call]; unfold checkBackendStatus;
      eauto 10 with frames.
  - destruct (intervalArmed s); [|discriminate]. injection Hstep as <-.
    eauto with frames.
  - destruct (pending s !! t0) as [[[ms k|k|] o]|]; try discriminate.
    injection Hstep as <-. apply calm_idle_fire; eauto with frames.
  - destruct (pending s !! t0) as [[[ms k|k|] o]|]; try discriminate.
    injection Hstep as <-. apply calm_idle_probed; eauto with frames.
  - destruct (pending s !! t0) as [[[ms k|k|] o]|]; try discriminate.
    injection Hstep as <-. apply calm_fallback; eauto with frames.
  - rewrite Hr in Hstep. discriminate.
  - rewrite Hu in Hstep. discriminate.
  - rewrite Hu in Hstep. discriminate.
  - rewrite Hu in Hstep. discriminate.
  - injection Hstep as <-. apply calm_foldl_window. eauto with frames.
  - destruct (mainWindow s); [|discriminate]. injection Hstep as <-. eauto with frames.
  - destruct (tray s); [|discriminate]. injection Hstep as <-. eauto with frames.
  - injection Hstep as <-. eauto 10 with frames.
  - injection Hstep as <-. eauto 10 with frames.
Qed.

Lemma never_spawned_run evs : forall s s',
  missing_file h -> never_spawned s -> run h s evs = Some s' -> never_spawned s'.
Proof.
  induction evs as [|e evs IH]; intros s s' Hm Hs; cbn [run].
  - intros [= <-]. exact Hs.
  - destruct (step h s e) as [s1|] eqn:He; [|discriminate].
    apply IH; [exact Hm|]. eapply never_spawned_step; eauto.
Qed.

End WithHost.


(** *** Courses *)

Lemma is_prefix_spec l1 : forall l2, is_prefix l1 l2 = true -> l1 `prefix_of` l2.
Proof.
  induction l1 as [|x l1 IH]; intros l2; cbn.
  - intros _. apply prefix_nil.
  - destruct l2 as [|y l2]; [discriminate|].
    intros H. apply andb_true_iff in H as [Hx Hl].
    apply bool_decide_eq_true in Hx as ->. apply prefix_cons, IH, Hl.
Qed.

Lemma on_course_spec l :
  on_course l = true -> exists course, course ∈ courses /\ l `prefix_of` course.
Proof.
  unfold on_course. intros H. apply existsb_exists in H as (course & Hin & Hp).
  exists course. split; [apply list_elem_of_In, Hin|apply is_prefix_spec, Hp].
Qed.

Lemma stages_elem c e l st : (c, e) ∈ l -> st ∈ stage_of e -> st ∈ stages c l.
Proof.
  induction l as [|[c' e'] l IH]; intros Hin Hst; [inversion Hin|].
  rewrite stages_cons. apply elem_of_app.
  apply elem_of_cons in Hin as [[= <- <-]|Hin].
  - right. destruct (decide (c = c)); [exact Hst|congruence].
  - left. auto.
Qed.

(** The prefixes of a given list, one by one. *)
Ltac peel Hp :=
  unfold restart_seq, start_seq in Hp;
  repeat match type of Hp with
         | ?l `prefix_of` [] => is_var l; apply prefix_nil_inv in Hp; subst l
         | ?l `prefix_of` (_ :: _) =>
             is_var l; destruct l as [|? l];
             [|pose proof (prefix_cons_inv_1 _ _ _ _ Hp);
               apply prefix_cons_inv_2 in Hp; subst]
         end.

Ltac absurd_elem H :=
  exfalso; revert H; refine (proj1 (bool_decide_eq_false _) _); vm_compute; reflexivity.

(** A chain that entered [restartBackend()] is on the course of a
    restart, and on no other. *)
Lemma restart_course l :
  on_course l = true -> StRestart ∈ l -> l `prefix_of` restart_seq.
Proof.
  intros H Hin. apply on_course_spec in H as (course & Hc & Hp).
  unfold courses in Hc.
  apply elem_of_cons in Hc as [->|Hc]; [exact Hp|].
  repeat (apply elem_of_cons in Hc as [->|Hc]); [..|inversion Hc];
    peel Hp; absurd_elem Hin.
Qed.

(** A chain that set the tray to offline made exactly one fallback request
    before, to the health URL. *)
Lemma offline_course l :
  on_course l = true -> StTray false ∈ l -> l = [StAxios health_url; StTray false].
Proof.
  intros H Hin. apply on_course_spec in H as (course & Hc & Hp).
  unfold courses in Hc.
  repeat (apply elem_of_cons in Hc as [->|Hc]); [..|inversion Hc];
    peel Hp; first [reflexivity|absurd_elem Hin].
Qed.

(** No course spawns twice. *)
Lemma one_spawn_course l :
  on_course l = true -> length (filter (λ st, st = StSpawn) l) <= 1.
Proof.
  intros H. apply on_course_spec in H as (course & Hc & [k Hk]).
  assert (Hle : length (filter (λ st, st = StSpawn) course) <= 1).
  { unfold courses in Hc.
    repeat (apply elem_of_cons in Hc as [->|Hc]); [..|inversion Hc];
      vm_compute; lia. }
  rewrite Hk, filter_app, length_app in Hle. lia.
Qed.

(** *** In-flight tray probes *)

Lemma tray_probes_in_flight_fresh s c :
  pending s !! nextTid s = None ->
  tray_probes_in_flight (checkBackendWithHttp c InTray s) =
  S (tray_probes_in_flight s).
Proof.
  intros Hfresh. unfold tray_probes_in_flight, checkBackendWithHttp. cbn.
  rewrite map_filter_insert_True by reflexivity.
  apply map_size_insert_None, map_lookup_filter_None. auto.
Qed.

Section WithHost.

Context (h : host).

(** *** Continuations stay until their own event *)

Lemma run_keeps evs : forall s s' t en,
  run h s evs = Some s' -> pending s !! t = Some en -> t < nextTid s ->
  EvTimer t ∉ evs -> (forall up, EvProbe t up ∉ evs) -> (forall r, EvAxios t r ∉ evs) ->
  pending s' !! t = Some en.
Proof.
  induction evs as [|e evs IH]; intros s s' t en; cbn [run].
  - intros [= <-]. auto.
  - destruct (step h s e) as [s1|] eqn:He; [|discriminate].
    intros Hrun Ht Hlt N1 N2 N3.
    destruct (step_keeps h s e s1 t en He Ht Hlt) as [Ht1 Hlt1].
    + intros ->. apply N1. left.
    + intros up ->. apply (N2 up). left.
    + intros r ->. apply (N3 r). left.
    + eapply IH; eauto.
      * intros Hin. apply N1. right. exact Hin.
      * intros up Hin. apply (N2 up). right. exact Hin.
      * intros r Hin. apply (N3 r). right. exact Hin.
Qed.

(** A timer can only be taken out by [EvTimer]. *)
Lemma run_keeps_timer evs s s' t ms k o :
  run h s evs = Some s' -> pending s !! t = Some (Entry (OnTimer ms k) o) ->
  t < nextTid s -> EvTimer t ∉ evs ->
  pending s' !! t = Some (Entry (OnTimer ms k) o).
Proof.
  revert s. induction evs as [|e evs IH]; intros s; cbn [run].
  - intros [= <-]. auto.
  - destruct (step h s e) as [s1|] eqn:He; [|discriminate].
    intros Hrun Ht Hlt N1.
    destruct (step_keeps h s e s1 t _ He Ht Hlt) as [Ht1 Hlt1].
    + intros ->. apply N1. left.
    + intros up ->. cbn [step] in He. rewrite Ht in He. discriminate.
    + intros r ->. cbn [step] in He. rewrite Ht in He. discriminate.
    + eapply IH; eauto. intros Hin. apply N1. right. exact Hin.
Qed.

End WithHost.

(** *** The handle *)

(** C10.  [stopBackend()] leaves the handle [null] whatever the child
    does; a second [stopBackend()] then only passes through (no signal, no
    timer); the 10000 ms callback sends [SIGKILL] to the child the handle
    holds when it fires, and nothing when the handle is [null].  In the
    run at the end, child 0 is stopped and closes, child 1 is started, and
    the timer of the stop then kills child 1. *)
Theorem stop_nulls_handle_and_timer_reads_it_late :
  (forall c s, backendProcess (stopBackend c s) = None) /\
  (forall c c' s,
      stopBackend c' (stopBackend c s) = emit c' (Enter FnStop) (stopBackend c s)) /\
  (forall h s t ms o,
      pending s !! t = Some (Entry (OnTimer ms ForceKill) o) ->
      exists s',
        step h s (EvTimer t) = Some s' /\
        signalled SIGKILL s' =
          signalled SIGKILL s ++
            match backendProcess s with Some p => [p] | None => [] end) /\
  (exists s,
      run host_complete init
        (boot_offline ++
           [EvCall CmdStop; EvClose 0 0; EvCall CmdStart; EvTimer 9;
            EvProbe 10 false; EvTimer 8]) = Some s /\
      signalled SIGTERM s = [0] /\
      signalled SIGKILL s = [1] /\
      spawned s = [0; 1]).
Proof.
  split; [exact stopBackend_handle|].
  split.
  { intros c c' s. apply stopBackend_idle, stopBackend_handle. }
  split.
  { intros h s t ms o Hp. unfold step. rewrite Hp. eexists. split; [reflexivity|].
    unfold fire, force_kill, unqueue. cbn [backendProcess set_pending].
    destruct (backendProcess s) as [p|].
    - unfold signalled, kill, emit. cbn.
      destruct (decide (SIGKILL = SIGKILL)); [reflexivity|congruence].
    - unfold signalled. cbn. rewrite app_nil_r. reflexivity. }
  eexists. split; [run_eval|]. repeat split.
Qed.

(** *** Examples of runs *)

(** C1 (the code at the failing input).  Two [startBackend()] calls
    overlap: the second passes the handle check while the first still
    awaits its health check.  Both spawn, two children are alive, and the
    handle keeps only the second. *)
Theorem overlapping_starts_spawn_two_workers :
  exists s,
    run host_complete init
      [EvCall CmdStart; EvCall CmdStart; EvTimer 0; EvTimer 1;
       EvProbe 2 false; EvProbe 3 false] = Some s /\
    spawned s = [0; 1] /\
    running s = [1; 0] /\
    signalled SIGTERM s = [] /\
    signalled SIGKILL s = [] /\
    backendProcess s = Some 1.
Proof. eexists. split; [run_eval|]. repeat split. Qed.

(** *** What the continuations wait for *)

Create HintDb waiting.

Ltac waiting f := intros; unfold f; cbv zeta; eauto 30 with waiting.

Section Waits.

Context (P : waiting -> Prop) (h : host).

Lemma waits_core s x : pending s = pending x -> waits P x -> waits P s.
Proof. unfold waits. intros ->. auto. Qed.

Lemma waits_suspend x c w : waits P x -> P w -> waits P (suspend c w x).
Proof.
  intros H Hw t e. cbn. intros [[_ <-]|[_ He]]%lookup_insert_Some; [exact Hw|].
  eapply H, He.
Qed.

Lemma waits_unqueue x t : waits P x -> waits P (unqueue t x).
Proof. intros H t' e. cbn. intros [_ He]%lookup_delete_Some. eapply H, He. Qed.

Lemma waits_emit x c e : waits P x -> waits P (emit c e x).
Proof. apply waits_core. reflexivity. Qed.
Lemma waits_bump x : waits P x -> waits P (bump x).
Proof. apply waits_core. reflexivity. Qed.
Lemma waits_set_ready x v : waits P x -> waits P (set_ready v x).
Proof. apply waits_core. reflexivity. Qed.
Lemma waits_set_mainWindow x v : waits P x -> waits P (set_mainWindow v x).
Proof. apply waits_core. reflexivity. Qed.
Lemma waits_set_tray x v : waits P x -> waits P (set_tray v x).
Proof. apply waits_core. reflexivity. Qed.
Lemma waits_set_trayDestroyed x v : waits P x -> waits P (set_trayDestroyed v x).
Proof. apply waits_core. reflexivity. Qed.
Lemma waits_set_backendProcess x v : waits P x -> waits P (set_backendProcess v x).
Proof. apply waits_core. reflexivity. Qed.
Lemma waits_set_isQuitting x v : waits P x -> waits P (set_isQuitting v x).
Proof. apply waits_core. reflexivity. Qed.
Lemma waits_set_intervalArmed x v : waits P x -> waits P (set_intervalArmed v x).
Proof. apply waits_core. reflexivity. Qed.
Lemma waits_set_running x v : waits P x -> waits P (set_running v x).
Proof. apply waits_core. reflexivity. Qed.
Lemma waits_set_listening x v : waits P x -> waits P (set_listening v x).
Proof. apply waits_core. reflexivity. Qed.
Lemma waits_set_unclosed x v : waits P x -> waits P (set_unclosed v x).
Proof. apply waits_core. reflexivity. Qed.
Lemma waits_set_nextPid x v : waits P x -> waits P (set_nextPid v x).
Proof. apply waits_core. reflexivity. Qed.

#[local] Hint Resolve waits_suspend waits_unqueue waits_emit waits_bump
  waits_set_ready waits_set_mainWindow waits_set_tray waits_set_trayDestroyed waits_set_backendProcess waits_set_isQuitting waits_set_intervalArmed waits_set_running waits_set_listening waits_set_unclosed waits_set_nextPid : waiting.
#[local] Hint Extern 2 (waits _ (if ?b then _ else _)) => destruct b : waiting.
#[local] Hint Extern 2 (waits _ (match ?x with _ => _ end)) => destruct x : waiting.

(** What the code waits for, place by place, but for the health check of
    [startBackend()] after its handle check. *)
Hypothesis P_KillWait : forall k, P (OnTimer 2000 (KillWait k)).
Hypothesis P_Settle : P (OnTimer 3000 Settle).
Hypothesis P_ForceKill : P (OnTimer 10000 ForceKill).
Hypothesis P_TrayRefresh : P (OnTimer 2000 TrayRefresh).
Hypothesis P_QuitLater : P (OnTimer 2000 QuitLater).
Hypothesis P_CheckReady_first : P (OnTimer 3000 (CheckReady 0)).
Hypothesis P_CheckReady : forall n, P (OnTimer 1000 (CheckReady n)).
Hypothesis P_InTray : P (OnProbe InTray).
Hypothesis P_Axios : P OnAxios.
Hypothesis P_ForBoot : P (OnProbe (InStatus ForBoot)).
Hypothesis P_ForReady : forall n, P (OnProbe (InStatus (ForReady n))).
Hypothesis P_ForUser : P (OnProbe (InStatus ForUser)).

#[local] Hint Resolve P_KillWait P_Settle P_ForceKill P_TrayRefresh P_QuitLater
  P_CheckReady_first P_CheckReady P_InTray P_Axios P_ForBoot P_ForReady
  P_ForUser : waiting.

Lemma waits_sleep x c k ms : waits P x -> P (OnTimer ms k) -> waits P (sleep c k ms x).
Proof. waiting sleep. Qed.
Lemma waits_setTimeout x c k ms :
  waits P x -> P (OnTimer ms k) -> waits P (setTimeout c k ms x).
Proof. waiting setTimeout. Qed.
Lemma waits_checkBackendWithHttp x c k :
  waits P x -> P (OnProbe k) -> waits P (checkBackendWithHttp c k x).
Proof. waiting checkBackendWithHttp. Qed.
#[local] Hint Resolve waits_sleep waits_setTimeout waits_checkBackendWithHttp : waiting.
Lemma waits_updateTrayMenu x : waits P x -> waits P (updateTrayMenu x).
Proof. waiting updateTrayMenu. Qed.
Lemma waits_killExistingBackends x c k :
  waits P x -> waits P (killExistingBackends c k x).
Proof. waiting killExistingBackends. Qed.
#[local] Hint Resolve waits_updateTrayMenu waits_killExistingBackends : waiting.
Lemma waits_boot_timers x c : waits P x -> waits P (boot_timers c x).
Proof. waiting boot_timers. Qed.
Lemma waits_kill x c p sg : waits P x -> waits P (kill c p sg x).
Proof. waiting kill. Qed.
#[local] Hint Resolve waits_boot_timers waits_kill : waiting.
Lemma waits_return_from_start x c k : waits P x -> waits P (return_from_start c k x).
Proof. waiting return_from_start. Qed.
Lemma waits_stopBackend x c : waits P x -> waits P (stopBackend c x).
Proof.
  intros H. unfold stopBackend. cbv zeta.
  change (backendProcess (emit c (Enter FnStop) x)) with (backendProcess x).
  destruct (backendProcess x); eauto 10 with waiting.
Qed.
Lemma waits_startBackend x c k : waits P x -> waits P (startBackend c k x).
Proof. waiting startBackend. Qed.
Lemma waits_force_kill x c : waits P x -> waits P (force_kill c x).
Proof. waiting force_kill. Qed.
#[local] Hint Resolve waits_return_from_start waits_stopBackend waits_startBackend
  waits_force_kill : waiting.
Lemma waits_restartBackend x c : waits P x -> waits P (restartBackend c x).
Proof. waiting restartBackend. Qed.
Lemma waits_restartBackend_cleaned x c :
  waits P x -> waits P (restartBackend_cleaned c x).
Proof. waiting restartBackend_cleaned. Qed.
Lemma waits_spawn_backend x c : waits P x -> waits P (spawn_backend h c x).
Proof. waiting spawn_backend. Qed.
#[local] Hint Resolve waits_restartBackend waits_restartBackend_cleaned
  waits_spawn_backend : waiting.
Lemma waits_startBackend_probed x c k up :
  waits P x -> waits P (startBackend_probed h c k up x).
Proof. waiting startBackend_probed. Qed.
Lemma waits_checkReady_probed x c n up :
  waits P x -> waits P (checkReady_probed h c n up x).
Proof. waiting checkReady_probed. Qed.
#[local] Hint Resolve waits_startBackend_probed waits_checkReady_probed : waiting.

Lemma waits_checkBackendStatus_probed x c k up :
  waits P x -> waits P (checkBackendStatus_probed h c k up x).
Proof.
  intros H. unfold checkBackendStatus_probed.
  assert (H1 : waits P (if tray x then updateTrayMenu x else x)) by eauto with waiting.
  revert H1. generalize (if tray x then updateTrayMenu x else x). intros x1 H1.
  destruct k; eauto 10 with waiting.
Qed.

Lemma waits_probed x o k up : waits P x -> waits P (probed h o k up x).
Proof.
  intros H. destruct k; cbn [probed].
  - apply waits_checkBackendStatus_probed, H.
  - unfold updateTrayMenu_probed. eauto 10 with waiting.
Qed.

Lemma waits_foldl_window c ops : forall x,
  waits P x -> waits P (foldl (λ s' op, emit c (Window op) s') x ops).
Proof.
  induction ops as [|op ops IH]; intros x Hx; cbn [foldl]; [exact Hx|].
  apply IH. eauto with waiting.
Qed.

(** A turn that is not the callback of a timer. *)
Lemma waits_step_untimed s e s' :
  waits P s -> (forall t, e <> EvTimer t) -> step h s e = Some s' -> waits P s'.
Proof.
  intros H Hne.
  destruct e as [w tr|cmd| |t0|t0 up|t0 r|p|p marker|p code|p|m v| | | |];
    cbn [step]; intros Hstep.
  - destruct (ready s); [discriminate|]. injection Hstep as <-.
    unfold app_ready, checkBackendStatus. cbv zeta.
    destruct tr; eauto 10 with waiting.
  - injection Hstep as <-.
    destruct cmd; cbn [call]; unfold checkBackendStatus; eauto with waiting.
  - destruct (intervalArmed s); [|discriminate]. injection Hstep as <-.
    eauto with waiting.
  - destruct (Hne t0 eq_refl).
  - destruct (pending s !! t0) as [[[ms k|k|] o]|] eqn:Ht0; try discriminate.
    injection Hstep as <-. apply waits_probed. eauto with waiting.
  - destruct (pending s !! t0) as [[[ms k|k|] o]|] eqn:Ht0; try discriminate.
    injection Hstep as <-. unfold updateTrayMenu_fallback. cbv zeta.
    eauto with waiting.
  - destruct (bool_decide _); [|discriminate]. injection Hstep as <-.
    eauto with waiting.
  - destruct (bool_decide _); [|discriminate]. injection Hstep as <-.
    destruct marker; eauto with waiting.
  - destruct (bool_decide _); [|discriminate]. injection Hstep as <-.
    unfold on_close, reap. cbv zeta.
    change (isQuitting (set_backendProcess None ?x)) with (isQuitting x).
    change (tray (set_backendProcess None ?x)) with (tray x).
    destruct (_ && _); [destruct (win32 h)|]; eauto 15 with waiting.
  - destruct (bool_decide _); [|discriminate]. injection Hstep as <-.
    unfold on_error. cbv zeta.
    change (mainWindow (set_backendProcess None ?x)) with (mainWindow x).
    destruct (mainWindow _); eauto 10 with waiting.
  - injection Hstep as <-. apply waits_foldl_window. eauto with waiting.
  - destruct (mainWindow s); [|discriminate]. injection Hstep as <-.
    eauto with waiting.
  - destruct (tray s); [|discriminate]. injection Hstep as <-.
    eauto with waiting.
  - injection Hstep as <-. eauto with waiting.
  - injection Hstep as <-. unfold on_will_quit.
    destruct (backendProcess _); eauto with waiting.
Qed.

(** The callbacks of the timers: the one of the cleanup wait of
    [startBackend()] goes on to the health check before the spawn. *)
Hypothesis P_ForStart : forall k, P (OnProbe (InStatus (ForStart k))).

Lemma waits_fire x o k : waits P x -> waits P (fire o k x).
Proof.
  intros H. destruct k as [[]| | | | |]; cbn [fire];
    unfold startBackend_cleaned, checkBackendStatus; eauto 10 with waiting.
Qed.

Lemma waits_step s e s' : waits P s -> step h s e = Some s' -> waits P s'.
Proof.
  intros H Hstep.
  assert (Hc : (exists t, e = EvTimer t) \/ forall t, e <> EvTimer t).
  { destruct e; try (right; discriminate). left. eauto. }
  destruct Hc as [[t ->]|Hne].
  - cbn [step] in Hstep.
    destruct (pending s !! t) as [[[ms k|k|] o]|] eqn:Ht0; try discriminate.
    injection Hstep as <-. apply waits_fire. eauto with waiting.
  - eapply waits_step_untimed; [exact H|exact Hne|exact Hstep].
Qed.

Lemma waits_run evs : forall s s',
  waits P s -> run h s evs = Some s' -> waits P s'.
Proof.
  induction evs as [|e evs IH]; intros s s' Hs; cbn [run].
  - intros [= <-]. exact Hs.
  - destruct (step h s e) as [s1|] eqn:He; [|discriminate].
    apply IH. eapply waits_step; eauto.
Qed.

End Waits.

Lemma waits_init P : waits P init.
Proof. intros t e H. cbn in H. rewrite lookup_empty in H. discriminate. Qed.

(** In every state the timers of the cleanup, of the settle wait, of the
    stop, of the tray and of the quit wait for the delay the code gives
    them. *)
Lemma delays_run h evs s s' : waits delay_ok s -> run h s evs = Some s' -> waits delay_ok s'.
Proof. apply waits_run; try reflexivity; intros; exact I. Qed.

(** A turn that is not the callback of a timer never takes
    [startBackend()] past its handle check, and spawns nothing if nothing
    was spawned. *)
Lemma unstarted_step h s e s' :
  never_spawned s -> waits (λ w, ~ before_spawn w) s ->
  (forall t, e <> EvTimer t) -> step h s e = Some s' ->
  never_spawned s' /\ waits (λ w, ~ before_spawn w) s'.
Proof.
  intros Hs Hw Hne Hstep. split.
  2:{ eapply (waits_step_untimed (λ w, ~ before_spawn w) h);
        [intros; exact (λ H : False, H)..|exact Hw|exact Hne|exact Hstep]. }
  apply (calm_never_spawned s); [exact Hs|].
  pose proof Hs as (Hh & Hr & Hl & Hu & _).
  destruct e as [w tr|cmd| |t0|t0 up|t0 r|p|p marker|p code|p|m v| | | |];
    cbn [step] in Hstep.
  - destruct (ready s); [discriminate|]. injection Hstep as <-.
    unfold app_ready, checkBackendStatus. cbv zeta. destruct tr; eauto 10 with frames.
  - injection Hstep as <-. destruct cmd; cbn [call]; unfold checkBackendStatus;
      eauto 10 with frames.
  - destruct (intervalArmed s); [|discriminate]. injection Hstep as <-.
    eauto with frames.
  - destruct (Hne t0 eq_refl).
  - destruct (pending s !! t0) as [[[ms k|k|] o]|] eqn:Ht0; try discriminate.
    injection Hstep as <-. destruct k as [k|]; cbn [probed].
    + unfold checkBackendStatus_probed.
      assert (H1 : calm s (if tray (unqueue t0 s) then updateTrayMenu (unqueue t0 s)
                           else unqueue t0 s)) by eauto with frames.
      revert H1.
      generalize (if tray (unqueue t0 s) then updateTrayMenu (unqueue t0 s)
                  else unqueue t0 s).
      intros x1 H1. destruct k as [|k| |].
      * destruct up; eauto 10 with frames.
      * destruct (Hw _ _ Ht0 I).
      * apply calm_checkReady_probed, H1.
      * eauto with frames.
    + unfold updateTrayMenu_probed. eauto 10 with frames.
  - destruct (pending s !! t0) as [[[ms k|k|] o]|]; try discriminate.
    injection Hstep as <-. apply calm_fallback; eauto with frames.
  - rewrite Hr in Hstep. discriminate.
  - rewrite Hu in Hstep. discriminate.
  - rewrite Hu in Hstep. discriminate.
  - rewrite Hu in Hstep. discriminate.
  - injection Hstep as <-. apply calm_foldl_window. eauto with frames.
  - destruct (mainWindow s); [|discriminate]. injection Hstep as <-. eauto with frames.
  - destruct (tray s); [|discriminate]. injection Hstep as <-. eauto with frames.
  - injection Hstep as <-. eauto 10 with frames.
  - injection Hstep as <-. eauto 10 with frames.
Qed.

(** *** The lifecycle *)

Lemma stopBackend_active c s p :
  backendProcess s = Some p ->
  log (stopBackend c s) =
    (c, SetTimeout (nextTid s) 10000 ForceKill) :: (c, Kill p SIGTERM) ::
    (c, Enter FnStop) :: log s /\
  pending (stopBackend c s) =
    <[nextTid s := Entry (OnTimer 10000 ForceKill) (nextCid s)]> (pending s) /\
  nextTid (stopBackend c s) = S (nextTid s).
Proof.
  intros H. unfold stopBackend. cbv zeta.
  change (backendProcess (emit c (Enter FnStop) s)) with (backendProcess s).
  rewrite H. repeat split.
Qed.

(** C3 (counterexample).  After the start-up, [stopBackend()] is called on
    child 0.  In the first run the 10000 ms timer fires while child 0 is
    still alive: no [SIGKILL] is sent.  In the second run child 0 closes
    before the timer fires: the timer is still set. *)
Lemma stop_timer_neither_kills_nor_is_cleared :
  (exists s,
      run host_complete init (boot_offline ++ [EvCall CmdStop; EvTimer 8]) = Some s /\
      signalled SIGTERM s = [0] /\ running s = [0] /\ unclosed s = [0] /\
      signalled SIGKILL s = []) /\
  (exists s,
      run host_complete init (boot_offline ++ [EvCall CmdStop; EvClose 0 0]) = Some s /\
      running s = [] /\ unclosed s = [] /\
      pending s !! 8 = Some (Entry (OnTimer 10000 ForceKill) 7)).
Proof.
  split; eexists; (split; [run_eval|]); repeat split.
Qed.

(** C3 (amended).  [stopBackend()] on an active worker sends it [SIGTERM]
    at once and sets one timer of 10000 ms.  Nothing clears that timer:
    whatever happens next, the close of the worker included, it stays set
    until it fires. *)
Theorem stop_sends_sigterm_and_sets_a_timer_nothing_clears h c s p :
  backendProcess s = Some p ->
  let s1 := stopBackend c s in
  let t := nextTid s in
  let timer := Entry (OnTimer 10000 ForceKill) (nextCid s) in
  signalled SIGTERM s1 = signalled SIGTERM s ++ [p] /\
  pending s1 = <[t := timer]> (pending s) /\
  (forall evs s',
      run h s1 evs = Some s' -> EvTimer t ∉ evs -> pending s' !! t = Some timer).
Proof.
  intros H. cbv zeta. destruct (stopBackend_active c s p H) as (Hlog & Hpend & Hnext).
  split; [|split].
  - unfold signalled. rewrite Hlog. cbn. rewrite !app_nil_r.
    destruct (decide (SIGTERM = SIGTERM)); [reflexivity|congruence].
  - exact Hpend.
  - intros evs s' Hrun Hno. eapply run_keeps_timer; eauto.
    + rewrite Hpend. apply lookup_insert_eq.
    + rewrite Hnext. lia.
Qed.

Lemma stop_sends_sigterm_and_sets_a_timer_witness :
  backendProcess after_boot_offline = Some 0 /\
  signalled SIGTERM (stopBackend 6 after_boot_offline) = [] ++ [0] /\
  forall s',
    run host_complete (stopBackend 6 after_boot_offline) [EvClose 0 0] = Some s' ->
    pending s' !! 8 = Some (Entry (OnTimer 10000 ForceKill) 6).
Proof.
  assert (H : backendProcess after_boot_offline = Some 0) by (vm_compute; reflexivity).
  destruct (stop_sends_sigterm_and_sets_a_timer_nothing_clears
              host_complete 6 after_boot_offline 0 H) as (H1 & _ & H3).
  split; [exact H|]. split; [exact H1|].
  intros s' Hrun. apply (H3 [EvClose 0 0] s' Hrun).
  intros Hin. apply list_elem_of_singleton in Hin. discriminate Hin.
Defined.






(** *** The status checks *)

(** C6 (counterexample).  In the first run the tray update finds the
    backend down: the only fallback request goes to localhost, none to
    127.0.0.1, before the tray is set to offline.  In the second run
    [checkBackendStatus()] answers false at start-up and [startBackend()]
    begins without any fallback request. *)
Lemma fallback_is_one_host_and_tray_only :
  Prober.hostnames = ["127.0.0.1"; "localhost"] /\
  (exists s,
      run host_complete init [EvReady true true; EvProbe 0 false; EvAxios 2 None]
        = Some s /\
      tray_statuses s = [false] /\
      axios_urls s = ["http://localhost:7717/health"]) /\
  (exists s,
      run host_complete init [EvReady true true; EvProbe 1 false] = Some s /\
      stages 0 (log s) = [StStart; StCleanup] /\
      axios_urls s = []).
Proof.
  split; [reflexivity|].
  split; eexists; (split; [run_eval|]); repeat split.
Qed.

(** C6 (amended).  When the probe of a tray update has failed, the update
    makes one fallback request, to [http://localhost:7717/health], and
    sets no status yet.  And a tray update sets the tray to offline only
    after it made, in that same update, exactly that one fallback
    request. *)
Theorem tray_offline_only_after_one_fallback h :
  (forall s t o,
      pending s !! t = Some (Entry (OnProbe InTray) o) ->
      exists s',
        step h s (EvProbe t false) = Some s' /\
        axios_urls s' = axios_urls s ++ ["http://localhost:7717/health"] /\
        tray_statuses s' = tray_statuses s /\
        pending s' !! nextTid s = Some (Entry OnAxios o)) /\
  (forall evs s c,
      run h init evs = Some s ->
      StTray false ∈ stages c (log s) ->
      stages c (log s) = [StAxios "http://localhost:7717/health"; StTray false]).
Proof.
  split.
  - intros s t o Ht. unfold step. rewrite Ht. eexists. split; [reflexivity|].
    cbn [probed]. unfold updateTrayMenu_probed.
    split; [reflexivity|]. split; [apply app_nil_r|]. apply lookup_insert_eq.
  - intros evs s c Hrun Hin.
    pose proof (inv_run h evs init s inv_init Hrun) as (_ & _ & Hc).
    apply offline_course; [apply Hc|exact Hin].
Qed.

Lemma tray_offline_only_after_one_fallback_witness :
  stages 1
    (log (default init
            (run host_complete init
               [EvReady true true; EvProbe 0 false; EvAxios 2 None]))) =
  [StAxios "http://localhost:7717/health"; StTray false].
Proof.
  apply (proj2 (tray_offline_only_after_one_fallback host_complete)
           [EvReady true true; EvProbe 0 false; EvAxios 2 None]).
  - vm_compute. reflexivity.
  - apply (bool_decide_unpack _). vm_compute. exact I.
Defined.

(** C8 (counterexample).  The application starts with the backend up and
    every probe answered.  The interval fires twice before the first
    tick's probe resolves: two probes of the tray are in flight. *)
Lemma second_tick_overlaps_the_first :
  (exists s,
      run host_complete init
        [EvReady true true; EvProbe 1 true; EvProbe 0 true; EvProbe 2 true; EvTick]
        = Some s /\
      tray_probes_in_flight s = 1) /\
  (exists s,
      run host_complete init
        [EvReady true true; EvProbe 1 true; EvProbe 0 true; EvProbe 2 true;
         EvTick; EvTick] = Some s /\
      tray_probes_in_flight s = 2).
Proof.
  split; eexists; (split; [run_eval|]); vm_compute; reflexivity.
Qed.

(** C8 (amended).  A tick of the interval is skipped only when there is no
    tray or the tray is destroyed.  Otherwise it starts a probe whatever
    is in flight: the number of tray probes in flight goes up by one. *)
Theorem tick_starts_a_probe_whatever_is_in_flight h evs s :
  run h init evs = Some s ->
  intervalArmed s = true ->
  exists s',
    step h s EvTick = Some s' /\
    if negb (tray s) || trayDestroyed s then s' = s
    else tray_probes_in_flight s' = S (tray_probes_in_flight s).
Proof.
  intros Hrun Harmed. pose proof (inv_run h evs init s inv_init Hrun) as ((Hid & _) & _).
  unfold step. rewrite Harmed. eexists. split; [reflexivity|].
  unfold updateTrayMenu. destruct (negb (tray s) || trayDestroyed s); [reflexivity|].
  change (tray_probes_in_flight s) with (tray_probes_in_flight (bump s)).
  apply tray_probes_in_flight_fresh. cbn.
  destruct (pending s !! nextTid s) as [e|] eqn:E; [|reflexivity].
  destruct (Hid _ _ E). lia.
Qed.

Lemma tick_starts_a_probe_witness :
  exists s',
    step host_complete
      (default init
         (run host_complete init
            [EvReady true true; EvProbe 1 true; EvProbe 0 true; EvProbe 2 true; EvTick]))
      EvTick = Some s' /\
    tray_probes_in_flight s' = 2.
Proof.
  destruct (tick_starts_a_probe_whatever_is_in_flight host_complete
              [EvReady true true; EvProbe 1 true; EvProbe 0 true; EvProbe 2 true; EvTick]
              (default init
                 (run host_complete init
                    [EvReady true true; EvProbe 1 true; EvProbe 0 true; EvProbe 2 true;
                     EvTick])))
    as (s' & Hs & Hn).
  - vm_compute. reflexivity.
  - vm_compute. reflexivity.
  - exists s'. split; [exact Hs|]. exact Hn.
Defined.

(** *** Missing files *)

Lemma error_boxes_updateTrayMenu s : error_boxes (updateTrayMenu s) = error_boxes s.
Proof.
  unfold updateTrayMenu. destruct (negb (tray s) || trayDestroyed s); [reflexivity|].
  unfold error_boxes. cbn. apply app_nil_r.
Qed.

Lemma error_boxes_return_from_start c k s :
  error_boxes (return_from_start c k s) = error_boxes s.
Proof. destruct k; [|reflexivity..]. unfold error_boxes. cbn. apply app_nil_r. Qed.

Lemma console_errors_updateTrayMenu s :
  console_errors (updateTrayMenu s) = console_errors s.
Proof.
  unfold updateTrayMenu. destruct (negb (tray s) || trayDestroyed s); [reflexivity|].
  unfold console_errors. cbn. apply app_nil_r.
Qed.

Lemma console_errors_return_from_start c k s :
  console_errors (return_from_start c k s) = console_errors s.
Proof. destruct k; [|reflexivity..]. unfold console_errors. cbn. apply app_nil_r. Qed.

Lemma mainWindow_updateTrayMenu s : mainWindow (updateTrayMenu s) = mainWindow s.
Proof.
  unfold updateTrayMenu. destruct (negb (tray s) || trayDestroyed s); reflexivity.
Qed.

Lemma never_spawned_init : never_spawned init.
Proof. repeat split. Qed.

Section WithHost.

Context (h : host).

Lemma mid_startBackend_probed_missing o ex k s :
  missing_file h -> mid o ex s -> mid o ex (startBackend_probed h o k false s).
Proof.
  intros Hm H. unfold startBackend_probed.
  destruct (existsSync h (pythonExecutable h)) eqn:E1; cbn [negb].
  - destruct (existsSync h (mainPyPath h)) eqn:E2; cbn [negb].
    + destruct Hm; congruence.
    + cbv zeta. apply mid_return_from_start.
      destruct (mainWindow s); repeat (apply mid_emit_quiet; [|reflexivity]); exact H.
  - cbv zeta. apply mid_return_from_start.
    destruct (mainWindow s); repeat (apply mid_emit_quiet; [|reflexivity]); exact H.
Qed.

Lemma error_boxes_startBackend_probed_missing o k s :
  missing_file h ->
  error_boxes (startBackend_probed h o k false s) =
  error_boxes s ++
    (if mainWindow s
     then [if existsSync h (pythonExecutable h) then "Backend Error" else "Python Error"]
     else []).
Proof.
  intros Hm. unfold startBackend_probed.
  destruct (existsSync h (pythonExecutable h)) eqn:E1; cbn [negb].
  - destruct (existsSync h (mainPyPath h)) eqn:E2; cbn [negb].
    + destruct Hm; congruence.
    + cbv zeta. rewrite error_boxes_return_from_start.
      destruct (mainWindow s); unfold error_boxes; cbn; rewrite ?app_nil_r; reflexivity.
  - cbv zeta. rewrite error_boxes_return_from_start.
    destruct (mainWindow s); unfold error_boxes; cbn; rewrite ?app_nil_r; reflexivity.
Qed.

(** [startBackend()] at a missing file: [console.error(error)], whether
    there is a window or not. *)
Lemma console_errors_startBackend_probed_missing o k s :
  missing_file h ->
  console_errors (startBackend_probed h o k false s) =
  console_errors s ++
    [if existsSync h (pythonExecutable h)
     then "Backend main.py not found" else "Python executable not found"].
Proof.
  intros Hm. unfold startBackend_probed.
  destruct (existsSync h (pythonExecutable h)) eqn:E1; cbn [negb].
  - destruct (existsSync h (mainPyPath h)) eqn:E2; cbn [negb].
    + destruct Hm; congruence.
    + cbv zeta. rewrite console_errors_return_from_start.
      destruct (mainWindow s); unfold console_errors; cbn; rewrite ?app_nil_r;
        reflexivity.
  - cbv zeta. rewrite console_errors_return_from_start.
    destruct (mainWindow s); unfold console_errors; cbn; rewrite ?app_nil_r;
      reflexivity.
Qed.

End WithHost.

(** C7 (counterexample).  The interpreter is missing.  In the first run
    the window could not be created: [startBackend()] ends without a
    child and without any error dialog.  In the second run the window is
    there: when [startBackend()] hands control back after its call,
    nothing has been reported yet. *)
Lemma missing_python_unreported_without_window_and_not_at_once :
  (exists s,
      run host_without_python init
        [EvReady false true; EvProbe 1 false; EvTimer 3; EvProbe 4 false] = Some s /\
      mainWindow s = false /\ spawned s = [] /\ error_boxes s = []) /\
  (exists s,
      run host_without_python init [EvReady true true; EvProbe 1 false] = Some s /\
      stages 0 (log s) = [StStart; StCleanup] /\ error_boxes s = []).
Proof.
  split; eexists; (split; [run_eval|]); repeat split.
Qed.

(** C7 (amended).  On a machine where the interpreter or the entry script
    is missing, when [startBackend()] comes to its file checks (its
    health check answered false) it spawns nothing, the handle stays
    [null], and it is not retried: its chain is not suspended anywhere.
    The error goes to the console in every case; the error dialog is
    shown only when there is a window.  No later turn spawns a child
    either. *)
Theorem missing_file_start_spawns_nothing_reports_to_window h evs s t k o :
  missing_file h ->
  run h init evs = Some s ->
  pending s !! t = Some (Entry (OnProbe (InStatus (ForStart k))) o) ->
  exists s',
    step h s (EvProbe t false) = Some s' /\
    never_spawned s' /\
    error_boxes s' =
      error_boxes s ++
        (if mainWindow s
         then [if existsSync h (pythonExecutable h)
               then "Backend Error" else "Python Error"]
         else []) /\
    console_errors s' =
      console_errors s ++
        [if existsSync h (pythonExecutable h)
         then "Backend main.py not found" else "Python executable not found"] /\
    (forall t' e', pending s' !! t' = Some e' -> owner e' <> o) /\
    (forall evs' s'', run h s' evs' = Some s'' -> never_spawned s'').
Proof.
  intros Hm Hrun Ht.
  pose proof (inv_run h evs init s inv_init Hrun) as Hinv.
  pose proof (never_spawned_run h evs init s Hm never_spawned_init Hrun) as Hns.
  assert (Hstep : step h s (EvProbe t false) =
                  Some (checkBackendStatus_probed h o (ForStart k) false (unqueue t s))).
  { unfold step. rewrite Ht. reflexivity. }
  eexists. split; [exact Hstep|].
  pose proof (never_spawned_step h _ _ _ Hm Hns Hstep) as Hns'.
  split; [exact Hns'|]. split; [|split; [|split]].
  - unfold checkBackendStatus_probed. cbv zeta.
    rewrite error_boxes_startBackend_probed_missing by exact Hm.
    change (tray (unqueue t s)) with (tray s).
    destruct (tray s).
    + rewrite error_boxes_updateTrayMenu, mainWindow_updateTrayMenu. reflexivity.
    + reflexivity.
  - unfold checkBackendStatus_probed. cbv zeta.
    rewrite console_errors_startBackend_probed_missing by exact Hm.
    change (tray (unqueue t s)) with (tray s).
    destruct (tray s).
    + rewrite console_errors_updateTrayMenu. reflexivity.
    + reflexivity.
  - pose proof (mid_resume s t _ o Hinv Ht) as Hmid.
    unfold checkBackendStatus_probed. cbv zeta.
    assert (H1 : mid o (expect (OnProbe (InStatus (ForStart k))))
                   (if tray (unqueue t s) then updateTrayMenu (unqueue t s)
                    else unqueue t s)).
    { destruct (tray _); [apply mid_updateTrayMenu|]; exact Hmid. }
    apply (mid_startBackend_probed_missing h o _ k _ Hm) in H1.
    destruct H1 as (_ & _ & _ & HD & _). exact HD.
  - intros evs' s'' Hrun'. eapply never_spawned_run; eauto.
Qed.

Lemma missing_file_start_spawns_nothing_witness :
  exists s',
    step host_without_python
      (default init
         (run host_without_python init [EvReady true true; EvProbe 1 false; EvTimer 3]))
      (EvProbe 4 false) = Some s' /\
    never_spawned s' /\
    error_boxes s' = [] ++ ["Python Error"] /\
    console_errors s' = [] ++ ["Python executable not found"].
Proof.
  destruct (missing_file_start_spawns_nothing_reports_to_window host_without_python
              [EvReady true true; EvProbe 1 false; EvTimer 3]
              (default init
                 (run host_without_python init
                    [EvReady true true; EvProbe 1 false; EvTimer 3]))
              4 ThenBoot 0)
    as (s' & Hs & Hns & Hbox & Hcon & _).
  - left. vm_compute. reflexivity.
  - vm_compute. reflexivity.
  - vm_compute. reflexivity.
  - exists s'. split; [exact Hs|]. split; [exact Hns|]. split; [exact Hbox|].
    exact Hcon.
Defined.

(** *** The second instance *)

Lemma window_ops_foldl c ops : forall s,
  window_ops (foldl (λ s' op, emit c (Window op) s') s ops) = window_ops s ++ ops.
Proof.
  induction ops as [|op ops IH]; intros s; cbn [foldl].
  - symmetry. apply app_nil_r.
  - rewrite IH. unfold window_ops. cbn. rewrite <- app_assoc. reflexivity.
Qed.

(** [app.quit()] spawns nothing and takes [startBackend()] nowhere. *)
Lemma unstarted_app_quit h p :
  never_spawned (Instance.main p) ->
  waits (λ w, ~ before_spawn w) (Instance.main p) ->
  never_spawned (Instance.main (Instance.app_quit h p)) /\
  waits (λ w, ~ before_spawn w) (Instance.main (Instance.app_quit h p)).
Proof.
  intros Hs Hw. unfold Instance.app_quit. cbv zeta. cbn [Instance.main].
  assert (G : forall e x,
            (forall t, e <> EvTimer t) ->
            never_spawned x /\ waits (λ w, ~ before_spawn w) x ->
            never_spawned (default x (step h x e)) /\
            waits (λ w, ~ before_spawn w) (default x (step h x e))).
  { intros e x Hne [Hx1 Hx2]. destruct (step h x e) as [x'|] eqn:E; cbn [default].
    - eapply unstarted_step; eauto.
    - auto. }
  apply G; [discriminate|]. apply G; [discriminate|]. apply G; [discriminate|].
  auto.
Qed.

(** An instance spawns nothing and does not take [startBackend()] past
    its handle check as long as none of its timers fires. *)
Lemma unstarted_instance_step h darwin p i p' :
  never_spawned (Instance.main p) ->
  waits (λ w, ~ before_spawn w) (Instance.main p) ->
  (forall t, i <> Instance.Loop (EvTimer t)) ->
  Instance.step h darwin p i = Some p' ->
  never_spawned (Instance.main p') /\
  waits (λ w, ~ before_spawn w) (Instance.main p').
Proof.
  intros Hs Hw Hne. unfold Instance.step.
  destruct (Instance.exited p); [discriminate|].
  destruct i as [e|].
  2:{ destruct (Instance.quitting p); [|discriminate]. intros [= <-]. auto. }
  assert (He : forall t, e <> EvTimer t) by (intros t ->; apply (Hne t); reflexivity).
  assert (G : forall f : state -> Instance.process,
            (forall x, Instance.main (f x) = x) ->
            f <$> step h (Instance.main p) e = Some p' ->
            never_spawned (Instance.main p') /\
            waits (λ w, ~ before_spawn w) (Instance.main p')).
  { intros f Hf Hstep. destruct (step h (Instance.main p) e) as [s'|] eqn:E;
      [|discriminate].
    injection Hstep as <-. rewrite Hf. eapply unstarted_step; eauto. }
  destruct e as [w tr|cmd| |t0|t0 up|t0 r|q|q marker|q code|q|m v| | | |];
    try (apply G; reflexivity).
  - destruct (_ || _); [apply G; reflexivity|discriminate].
  - destruct (He t0 eq_refl).
  - destruct (Instance.onSecondInstance p); [apply G; reflexivity|discriminate].
  - destruct (step h (Instance.main p) EvWindowClosed) as [s'|] eqn:E;
      [|discriminate].
    cbn [fmap option_fmap option_map]. intros [= <-].
    pose proof (unstarted_step h _ _ _ Hs Hw He E) as [Hs' Hw'].
    destruct (_ && _); [|auto].
    apply (unstarted_app_quit h (Instance.with_main p s')); assumption.
Qed.

Lemma unstarted_instance_run h darwin ins : forall p p',
  never_spawned (Instance.main p) ->
  waits (λ w, ~ before_spawn w) (Instance.main p) ->
  (forall t, Instance.Loop (EvTimer t) ∉ ins) ->
  Instance.run h darwin p ins = Some p' ->
  never_spawned (Instance.main p').
Proof.
  induction ins as [|i ins IH]; intros p p' Hs Hw Hne; cbn [Instance.run].
  - intros [= <-]. exact Hs.
  - destruct (Instance.step h darwin p i) as [p1|] eqn:E; [|discriminate].
    destruct (unstarted_instance_step h darwin p i p1 Hs Hw) as [Hs1 Hw1];
      [intros t ->; apply (Hne t); left|exact E|].
    apply IH; [exact Hs1|exact Hw1|].
    intros t Hin. apply (Hne t). right. exact Hin.
Qed.

(** Without [ready] an instance can do nothing but quit. *)
Lemma dormant_step h s e s' :
  dormant s -> (forall w t, e <> EvReady w t) -> (forall c, e <> EvCall c) ->
  step h s e = Some s' -> dormant s'.
Proof.
  intros (Hw & Ht & Hi & Hp & Hs) Hne Hnc. pose proof Hs as (Hh & Hr & Hl & Hu & _).
  destruct e as [w tr|cmd| |t0|t0 up|t0 r|q|q marker|q code|q|m v| | | |];
    cbn [step]; intros Hstep.
  - destruct (Hne w tr eq_refl).
  - destruct (Hnc cmd eq_refl).
  - rewrite Hi in Hstep. discriminate.
  - rewrite Hp, lookup_empty in Hstep. discriminate.
  - rewrite Hp, lookup_empty in Hstep. discriminate.
  - rewrite Hp, lookup_empty in Hstep. discriminate.
  - rewrite Hr in Hstep. discriminate.
  - rewrite Hu in Hstep. discriminate.
  - rewrite Hu in Hstep. discriminate.
  - rewrite Hu in Hstep. discriminate.
  - injection Hstep as <-. rewrite Hw. cbn [SingleInstance.second_instance foldl].
    repeat split; assumption || apply Hs.
  - rewrite Hw in Hstep. discriminate.
  - rewrite Ht in Hstep. discriminate.
  - injection Hstep as <-. rewrite stopBackend_idle by exact Hh.
    refine (conj Hw (conj Ht (conj Hi (conj Hp _)))).
    apply (calm_never_spawned s); [exact Hs|]. eauto with frames.
  - injection Hstep as <-. unfold on_will_quit.
    change (backendProcess (bump s)) with (backendProcess s). rewrite Hh.
    repeat split; assumption || apply Hs.
Qed.

Lemma dormant_app_quit h p :
  dormant (Instance.main p) -> dormant (Instance.main (Instance.app_quit h p)).
Proof.
  intros H. unfold Instance.app_quit. cbv zeta. cbn [Instance.main].
  assert (G : forall e x,
            (forall w t, e <> EvReady w t) -> (forall c, e <> EvCall c) ->
            dormant x -> dormant (default x (step h x e))).
  { intros e x H1 H2 Hx. destruct (step h x e) as [x'|] eqn:E; cbn [default];
      [eapply dormant_step; eauto|exact Hx]. }
  apply G; [discriminate..|]. apply G; [discriminate..|].
  apply G; [discriminate..|]. exact H.
Qed.

Lemma dormant_instance_run h darwin ins : forall p p',
  dormant (Instance.main p) ->
  (forall w t, Instance.Loop (EvReady w t) ∉ ins) ->
  Instance.run h darwin p ins = Some p' ->
  dormant (Instance.main p').
Proof.
  induction ins as [|i ins IH]; intros p p' Hd Hne; cbn [Instance.run].
  - intros [= <-]. exact Hd.
  - destruct (Instance.step h darwin p i) as [p1|] eqn:E; [|discriminate].
    apply IH; [|intros w t Hin; apply (Hne w t); right; exact Hin].
    revert E. unfold Instance.step. destruct (Instance.exited p); [discriminate|].
    destruct i as [e|].
    2:{ destruct (Instance.quitting p); [|discriminate]. intros [= <-]. exact Hd. }
    assert (He : forall w t, e <> EvReady w t).
    { intros w t ->. apply (Hne w t). left. }
    assert (G : forall f : state -> Instance.process,
              (forall x, dormant x -> dormant (Instance.main (f x))) ->
              (forall c, e <> EvCall c) ->
              f <$> step h (Instance.main p) e = Some p1 ->
              dormant (Instance.main p1)).
    { intros f Hf Hc Hstep. destruct (step h (Instance.main p) e) as [s'|] eqn:E;
        [|discriminate].
      injection Hstep as <-. apply Hf. eapply dormant_step; eauto. }
    pose proof Hd as (Hw & Ht & _).
    destruct e as [w tr|cmd| |t0|t0 up|t0 r|q|q marker|q code|q|m v| | | |];
      try (apply G; [intros x Hx; exact Hx|discriminate]).
    + rewrite Hw, Ht. discriminate.
    + destruct (Instance.pending_quit_timer (Instance.main p) t0);
        (apply G; [|discriminate]); intros x Hx; [|exact Hx].
      apply (dormant_app_quit h (Instance.with_main p x)). exact Hx.
    + destruct (Instance.onSecondInstance p); [|discriminate].
      apply G; [intros x Hx; exact Hx|discriminate].
    + apply G; [|discriminate]. intros x Hx.
      destruct (_ && _); [|exact Hx].
      apply (dormant_app_quit h (Instance.with_main p x)). exact Hx.
Qed.




(** *** The icon *)

Lemma firstExisting_spec h formats :
  match firstExisting h formats with
  | Some p =>
      existsSync h p = true /\ exists f, f ∈ formats /\ p = iconPath h f
  | None => forall f, f ∈ formats -> existsSync h (iconPath h f) = false
  end.
Proof.
  induction formats as [|f formats IH]; cbn [firstExisting].
  - intros f Hf. inversion Hf.
  - destruct (existsSync h (iconPath h f)) eqn:E.
    + split; [exact E|]. exists f. split; [left|reflexivity].
    + destruct (firstExisting h formats) as [p|].
      * destruct IH as (Hp & f' & Hf' & ->). split; [exact Hp|].
        exists f'. split; [right; exact Hf'|reflexivity].
      * intros f' [->|Hf']%elem_of_cons; auto.
Qed.

Lemma png_in_iconFormats platform : ".png" ∈ iconFormats platform.
Proof.
  unfold iconFormats. repeat destruct (bool_decide _); repeat constructor.
Qed.

Lemma firstExisting_first h pre f post :
  existsSync h (iconPath h f) = true ->
  (forall g, g ∈ pre -> existsSync h (iconPath h g) = false) ->
  firstExisting h (pre ++ f :: post) = Some (iconPath h f).
Proof.
  intros Hf. induction pre as [|g pre IH]; intros Hpre; cbn [app firstExisting].
  - rewrite Hf. reflexivity.
  - rewrite (Hpre g) by left. apply IH. intros g' Hg'. apply Hpre. right. exact Hg'.
Qed.

(** [getIconPath()] returns one of the platform's candidates: the first
    one, in the platform's order, whose file exists.  The file it returns
    exists whenever one of the candidates exists, so [createTray()] takes
    the empty image without reading a file only when every candidate is
    missing. *)
Theorem icon_is_the_first_candidate_that_exists platform h :
  (exists f, f ∈ iconFormats platform /\ getIconPath platform h = iconPath h f) /\
  (forall pre f post,
     iconFormats platform = pre ++ f :: post ->
     existsSync h (iconPath h f) = true ->
     (forall g, g ∈ pre -> existsSync h (iconPath h g) = false) ->
     getIconPath platform h = iconPath h f) /\
  (trayIconFromFile platform h = true <->
   exists f, f ∈ iconFormats platform /\ existsSync h (iconPath h f) = true).
Proof.
  split; [|split].
  - unfold getIconPath.
    pose proof (firstExisting_spec h (iconFormats platform)) as H.
    destruct (firstExisting h (iconFormats platform)) as [p|].
    + destruct H as (_ & f & Hf & ->). eauto.
    + exists ".png". split; [apply png_in_iconFormats|reflexivity].
  - intros pre f post Heq Hf Hpre. unfold getIconPath.
    rewrite Heq, (firstExisting_first h pre f post Hf Hpre). reflexivity.
  - unfold trayIconFromFile, getIconPath.
    pose proof (firstExisting_spec h (iconFormats platform)) as H.
    destruct (firstExisting h (iconFormats platform)) as [p|].
    + destruct H as (Hp & f & Hf & ->). split; [eauto|]. intros _. exact Hp.
    + change (path_join [dirname h; "assets"; "icon.png"]) with (iconPath h ".png").
      rewrite (H ".png" (png_in_iconFormats platform)).
      split; [discriminate|]. intros (f & Hf & Hex). rewrite (H f Hf) in Hex.
      discriminate.
Qed.

(** *** The readiness loop *)

Create HintDb bounds.

Ltac bounds f := intros; unfold f; cbv zeta; eauto 30 with bounds.

Lemma bounded_core s x :
  pending s = pending x -> bounded x -> bounded s.
Proof. unfold bounded. intros ->. auto. Qed.

Lemma bounded_suspend x c w : bounded x -> in_bounds w -> bounded (suspend c w x).
Proof.
  intros H Hw t e. cbn. intros [[_ <-]|[_ He]]%lookup_insert_Some; [exact Hw|].
  eapply H, He.
Qed.

Lemma bounded_unqueue x t : bounded x -> bounded (unqueue t x).
Proof. intros H t' e. cbn. intros [_ He]%lookup_delete_Some. eapply H, He. Qed.

Lemma bounded_emit x c e : bounded x -> bounded (emit c e x).
Proof. apply bounded_core. reflexivity. Qed.
Lemma bounded_bump x : bounded x -> bounded (bump x).
Proof. apply bounded_core. reflexivity. Qed.
Lemma bounded_set_ready x v : bounded x -> bounded (set_ready v x).
Proof. apply bounded_core. reflexivity. Qed.
Lemma bounded_set_mainWindow x v : bounded x -> bounded (set_mainWindow v x).
Proof. apply bounded_core. reflexivity. Qed.
Lemma bounded_set_tray x v : bounded x -> bounded (set_tray v x).
Proof. apply bounded_core. reflexivity. Qed.
Lemma bounded_set_trayDestroyed x v : bounded x -> bounded (set_trayDestroyed v x).
Proof. apply bounded_core. reflexivity. Qed.
Lemma bounded_set_backendProcess x v : bounded x -> bounded (set_backendProcess v x).
Proof. apply bounded_core. reflexivity. Qed.
Lemma bounded_set_isQuitting x v : bounded x -> bounded (set_isQuitting v x).
Proof. apply bounded_core. reflexivity. Qed.
Lemma bounded_set_intervalArmed x v : bounded x -> bounded (set_intervalArmed v x).
Proof. apply bounded_core. reflexivity. Qed.
Lemma bounded_set_running x v : bounded x -> bounded (set_running v x).
Proof. apply bounded_core. reflexivity. Qed.
Lemma bounded_set_listening x v : bounded x -> bounded (set_listening v x).
Proof. apply bounded_core. reflexivity. Qed.
Lemma bounded_set_unclosed x v : bounded x -> bounded (set_unclosed v x).
Proof. apply bounded_core. reflexivity. Qed.
Lemma bounded_set_nextPid x v : bounded x -> bounded (set_nextPid v x).
Proof. apply bounded_core. reflexivity. Qed.

#[local] Hint Resolve bounded_suspend bounded_unqueue bounded_emit bounded_bump
  bounded_set_ready bounded_set_mainWindow bounded_set_tray bounded_set_trayDestroyed
  bounded_set_backendProcess bounded_set_isQuitting bounded_set_intervalArmed
  bounded_set_running bounded_set_listening bounded_set_unclosed
  bounded_set_nextPid : bounds.
#[local] Hint Extern 1 (in_bounds _) =>
  first [ exact I
        | solve [cbn; unfold maxAttempts; split; [lia|reflexivity]]
        | solve [cbn in *; unfold maxAttempts in *; lia] ] : bounds.
#[local] Hint Extern 2 (bounded (if ?b then _ else _)) => destruct b : bounds.
#[local] Hint Extern 2 (bounded (match ?x with _ => _ end)) => destruct x : bounds.

Lemma bounded_sleep x c k ms :
  bounded x -> in_bounds (OnTimer ms k) -> bounded (sleep c k ms x).
Proof. bounds sleep. Qed.
Lemma bounded_setTimeout x c k ms :
  bounded x -> in_bounds (OnTimer ms k) -> bounded (setTimeout c k ms x).
Proof. bounds setTimeout. Qed.
Lemma bounded_checkBackendWithHttp x c k :
  bounded x -> in_bounds (OnProbe k) -> bounded (checkBackendWithHttp c k x).
Proof. bounds checkBackendWithHttp. Qed.
#[local] Hint Resolve bounded_sleep bounded_setTimeout bounded_checkBackendWithHttp : bounds.
Lemma bounded_updateTrayMenu x : bounded x -> bounded (updateTrayMenu x).
Proof. bounds updateTrayMenu. Qed.
Lemma bounded_killExistingBackends x c k :
  bounded x -> bounded (killExistingBackends c k x).
Proof. bounds killExistingBackends. Qed.
#[local] Hint Resolve bounded_updateTrayMenu bounded_killExistingBackends : bounds.
Lemma bounded_boot_timers x c : bounded x -> bounded (boot_timers c x).
Proof. bounds boot_timers. Qed.
Lemma bounded_kill x c p sg : bounded x -> bounded (kill c p sg x).
Proof. bounds kill. Qed.
#[local] Hint Resolve bounded_boot_timers bounded_kill : bounds.
Lemma bounded_return_from_start x c k : bounded x -> bounded (return_from_start c k x).
Proof. bounds return_from_start. Qed.
Lemma bounded_stopBackend x c : bounded x -> bounded (stopBackend c x).
Proof.
  intros H. unfold stopBackend. cbv zeta.
  change (backendProcess (emit c (Enter FnStop) x)) with (backendProcess x).
  destruct (backendProcess x); eauto 10 with bounds.
Qed.
Lemma bounded_startBackend x c k : bounded x -> bounded (startBackend c k x).
Proof. bounds startBackend. Qed.
Lemma bounded_force_kill x c : bounded x -> bounded (force_kill c x).
Proof. bounds force_kill. Qed.
#[local] Hint Resolve bounded_return_from_start bounded_stopBackend bounded_startBackend
  bounded_force_kill : bounds.
Lemma bounded_startBackend_cleaned x c k :
  bounded x -> bounded (startBackend_cleaned c k x).
Proof. bounds startBackend_cleaned. Qed.
Lemma bounded_restartBackend x c : bounded x -> bounded (restartBackend c x).
Proof. bounds restartBackend. Qed.
Lemma bounded_restartBackend_cleaned x c :
  bounded x -> bounded (restartBackend_cleaned c x).
Proof. bounds restartBackend_cleaned. Qed.
#[local] Hint Resolve bounded_startBackend_cleaned bounded_restartBackend
  bounded_restartBackend_cleaned : bounds.

Lemma bounded_init : bounded init.
Proof. intros t e H. cbn in H. rewrite lookup_empty in H. discriminate. Qed.

Section WithHost.
Context (h : host).

Lemma bounded_spawn_backend x c : bounded x -> bounded (spawn_backend h c x).
Proof. bounds spawn_backend. Qed.
#[local] Hint Resolve bounded_spawn_backend : bounds.
Lemma bounded_startBackend_probed x c k up :
  bounded x -> bounded (startBackend_probed h c k up x).
Proof. bounds startBackend_probed. Qed.

(** [checkReady] sets its next timer only while the counter is below
    [maxAttempts], and sets it to 1000 ms. *)
Lemma bounded_checkReady_probed x c n up :
  bounded x -> 1 <= n -> bounded (checkReady_probed h c n up x).
Proof.
  intros H Hn. unfold checkReady_probed. destruct up; [eauto 10 with bounds|].
  destruct (bool_decide (n < maxAttempts)) eqn:E; cbn [andb]; [|eauto with bounds].
  apply bool_decide_eq_true in E. destruct (bool_decide _); [|eauto with bounds].
  apply bounded_setTimeout; [exact H|]. split; [exact E|].
  destruct (decide (n = 0)); [lia|reflexivity].
Qed.
#[local] Hint Resolve bounded_startBackend_probed : bounds.

Lemma bounded_checkBackendStatus_probed x c k up :
  bounded x -> in_bounds (OnProbe (InStatus k)) ->
  bounded (checkBackendStatus_probed h c k up x).
Proof.
  intros H Hk. unfold checkBackendStatus_probed.
  assert (H1 : bounded (if tray x then updateTrayMenu x else x)) by eauto with bounds.
  revert H1. generalize (if tray x then updateTrayMenu x else x). intros x1 H1.
  destruct k; eauto 10 with bounds.
  apply bounded_checkReady_probed; [exact H1|]. cbn in Hk. lia.
Qed.

Lemma bounded_fire x o ms k :
  bounded x -> in_bounds (OnTimer ms k) -> bounded (fire o k x).
Proof.
  intros H Hk. destruct k as [[]| | |n| |]; cbn [fire]; unfold checkBackendStatus;
    eauto with bounds.
Qed.

Lemma bounded_probed x o k up :
  bounded x -> in_bounds (OnProbe k) -> bounded (probed h o k up x).
Proof.
  intros H Hk. destruct k; cbn [probed].
  - apply bounded_checkBackendStatus_probed; assumption.
  - unfold updateTrayMenu_probed. eauto 10 with bounds.
Qed.

Lemma bounded_foldl_window c ops : forall x,
  bounded x -> bounded (foldl (λ s' op, emit c (Window op) s') x ops).
Proof.
  induction ops as [|op ops IH]; intros x Hx; cbn [foldl]; [exact Hx|].
  apply IH. eauto with bounds.
Qed.

Lemma bounded_step s e s' : bounded s -> step h s e = Some s' -> bounded s'.
Proof.
  intros H.
  destruct e as [w tr|cmd| |t0|t0 up|t0 r|p|p marker|p code|p|m v| | | |];
    cbn [step]; intros Hstep.
  - destruct (ready s); [discriminate|]. injection Hstep as <-.
    unfold app_ready, checkBackendStatus. cbv zeta.
    destruct tr; eauto 10 with bounds.
  - injection Hstep as <-.
    destruct cmd; cbn [call]; unfold checkBackendStatus; eauto with bounds.
  - destruct (intervalArmed s); [|discriminate]. injection Hstep as <-.
    eauto with bounds.
  - destruct (pending s !! t0) as [[[ms k|k|] o]|] eqn:Ht0; try discriminate.
    injection Hstep as <-. apply (bounded_fire _ _ ms); [eauto with bounds|].
    apply (H _ _ Ht0).
  - destruct (pending s !! t0) as [[[ms k|k|] o]|] eqn:Ht0; try discriminate.
    injection Hstep as <-. apply bounded_probed; [eauto with bounds|].
    apply (H _ _ Ht0).
  - destruct (pending s !! t0) as [[[ms k|k|] o]|] eqn:Ht0; try discriminate.
    injection Hstep as <-. unfold updateTrayMenu_fallback. cbv zeta.
    eauto with bounds.
  - destruct (bool_decide _); [|discriminate]. injection Hstep as <-.
    eauto with bounds.
  - destruct (bool_decide _); [|discriminate]. injection Hstep as <-.
    destruct marker; eauto with bounds.
  - destruct (bool_decide _); [|discriminate]. injection Hstep as <-.
    unfold on_close, reap. cbv zeta.
    change (isQuitting (set_backendProcess None ?x)) with (isQuitting x).
    change (tray (set_backendProcess None ?x)) with (tray x).
    destruct (_ && _); [destruct (win32 h)|]; eauto 15 with bounds.
  - destruct (bool_decide _); [|discriminate]. injection Hstep as <-.
    unfold on_error. cbv zeta.
    change (mainWindow (set_backendProcess None ?x)) with (mainWindow x).
    destruct (mainWindow _); eauto 10 with bounds.
  - injection Hstep as <-. apply bounded_foldl_window. eauto with bounds.
  - destruct (mainWindow s); [|discriminate]. injection Hstep as <-.
    eauto with bounds.
  - destruct (tray s); [|discriminate]. injection Hstep as <-.
    eauto with bounds.
  - injection Hstep as <-. eauto with bounds.
  - injection Hstep as <-. unfold on_will_quit.
    destruct (backendProcess _); eauto with bounds.
Qed.

Lemma bounded_run evs : forall s s',
  bounded s -> run h s evs = Some s' -> bounded s'.
Proof.
  induction evs as [|e evs IH]; intros s s' Hs; cbn [run].
  - intros [= <-]. exact Hs.
  - destruct (step h s e) as [s1|] eqn:He; [|discriminate].
    apply IH. eapply bounded_step; eauto.
Qed.

End WithHost.

(** The readiness loop of [startBackend()] stops at [maxAttempts]: a timer
    for the next check exists only with a counter below 30, it waits
    3000 ms before the first check and 1000 ms before every other, and a
    check that awaits its answer is the first to the thirtieth. *)
Theorem readiness_loop_stops_at_maxAttempts h evs s t w o :
  run h init evs = Some s -> pending s !! t = Some (Entry w o) ->
  match w with
  | OnTimer ms (CheckReady attempts) =>
      attempts < maxAttempts /\
      ms = if decide (attempts = 0) then 3000%N else 1000%N
  | OnProbe (InStatus (ForReady attempts)) => 1 <= attempts <= maxAttempts
  | _ => True
  end.
Proof.
  intros Hrun Ht. exact (bounded_run h evs init s bounded_init Hrun t _ Ht).
Qed.

Lemma readiness_loop_stops_at_maxAttempts_witness :
  pending after_boot_offline !! 6 = Some (Entry (OnTimer 3000 (CheckReady 0)) 4) /\
  0 < maxAttempts /\ 3000%N = if decide (0 = 0) then 3000%N else 1000%N.
Proof.
  split; [vm_compute; reflexivity|].
  apply (readiness_loop_stops_at_maxAttempts host_complete boot_offline
           after_boot_offline 6 (OnTimer 3000 (CheckReady 0)) 4);
    vm_compute; reflexivity.
Defined.

(** *** The handle and the signals *)

Lemma spawned_emit c e x :
  spawned (emit c e x) =
  spawned x ++ match e with Spawn p _ _ => [p] | _ => [] end.
Proof. reflexivity. Qed.

Lemma signalled_emit sg c e x :
  signalled sg (emit c e x) =
  signalled sg x ++
    match e with
    | Kill p sg' => if decide (sg' = sg) then [p] else []
    | _ => []
    end.
Proof. reflexivity. Qed.

Lemma elem_of_signalled sg p s :
  p ∈ signalled sg s <-> exists c, (c, Kill p sg) ∈ log s.
Proof.
  unfold signalled. induction (log s) as [|[c e] l IH]; cbn [collect].
  - split; [intros H; inversion H|intros [c H]; inversion H].
  - rewrite elem_of_app, IH. split.
    + intros [[c' H]|H]; [exists c'; right; exact H|].
      destruct e as [| |q sg'| | | | | | | | | | |]; try (inversion H; fail).
      destruct (decide (sg' = sg)) as [->|]; [|inversion H].
      apply list_elem_of_singleton in H as ->. exists c. left.
    + intros [c' [[= <- <-]|H]%elem_of_cons].
      * right. destruct (decide (sg = sg)); [left|congruence].
      * left. eauto.
Qed.

Lemma no_escalation_cons c e l :
  no_escalation l ->
  (forall p, e = Kill p SIGKILL -> forall c', (c', Kill p SIGTERM) ∉ l) ->
  no_escalation ((c, e) :: l).
Proof.
  intros H He l1 l2 c0 p Heq. destruct l1 as [|x l1]; cbn in Heq.
  - injection Heq as <- -> <-. apply He. reflexivity.
  - injection Heq as _ ->. intros c' Hin. eapply (H l1 l2 c0 p eq_refl c').
    exact Hin.
Qed.

Lemma handle_ok_core s x :
  (backendProcess s, unclosed s, nextPid s, log s) =
  (backendProcess x, unclosed x, nextPid x, log x) ->
  handle_ok x -> handle_ok s.
Proof.
  unfold handle_ok, spawned, signalled. intros [= -> -> -> ->]. auto.
Qed.

(** Once the handle is [null], the children that have not closed do not
    matter. *)
Lemma handle_ok_forget s x :
  backendProcess s = None -> (nextPid s, log s) = (nextPid x, log x) ->
  handle_ok x -> handle_ok s.
Proof.
  unfold handle_ok, spawned, signalled. intros -> [= -> ->].
  intros (_ & H2 & H3 & H4 & H5). repeat split; try assumption; discriminate.
Qed.

Lemma handle_ok_emit x c e : handle_ok x -> benign e -> handle_ok (emit c e x).
Proof.
  intros (H1 & H2 & H3 & H4 & H5) He. unfold handle_ok.
  assert (Hsp : spawned (emit c e x) = spawned x).
  { rewrite spawned_emit. destruct e; cbn in He; try apply app_nil_r. contradiction. }
  assert (Hsg : forall sg, signalled sg (emit c e x) = signalled sg x).
  { intros sg. rewrite signalled_emit.
    destruct e; cbn in He; try apply app_nil_r. contradiction. }
  rewrite Hsp. rewrite !Hsg.
  refine (conj H1 (conj H2 (conj H3 (conj _ _)))).
  - intros sg p. rewrite Hsg. apply H4.
  - apply no_escalation_cons; [exact H5|].
    intros p ->. contradiction.
Qed.

(** [stopBackend()]: the signal and the assignment of [null]. *)
Lemma handle_ok_sigterm x c p :
  handle_ok x -> backendProcess x = Some p ->
  handle_ok (set_backendProcess None (emit c (Kill p SIGTERM) x)).
Proof.
  intros (H1 & H2 & H3 & H4 & H5) Hp. destruct (H1 p Hp) as (Hu & Hs & Hn & Hlt).
  unfold handle_ok.
  change (backendProcess (set_backendProcess None (emit c (Kill p SIGTERM) x)))
    with (@None nat).
  change (nextPid (set_backendProcess None (emit c (Kill p SIGTERM) x)))
    with (nextPid x).
  assert (Hsp : spawned (set_backendProcess None (emit c (Kill p SIGTERM) x)) =
                spawned x) by exact (app_nil_r _).
  rewrite Hsp.
  change (log (set_backendProcess None (emit c (Kill p SIGTERM) x)))
    with ((c, Kill p SIGTERM) :: log x).
  assert (Hsg : forall sg,
            signalled sg (set_backendProcess None (emit c (Kill p SIGTERM) x)) =
            signalled sg x ++ (if decide (SIGTERM = sg) then [p] else [])).
  { reflexivity. }
  refine (conj _ (conj _ (conj _ (conj _ _)))).
  - discriminate.
  - intros q. rewrite Hsg. intros [Hq|Hq]%elem_of_app; [auto|].
    destruct (decide _); [|inversion Hq].
    apply list_elem_of_singleton in Hq as ->. exact Hlt.
  - rewrite Hsg. destruct (decide _); [|congruence].
    apply NoDup_app. refine (conj H3 (conj _ _)).
    + intros q Hq ->%list_elem_of_singleton. contradiction.
    + apply NoDup_singleton.
  - intros sg q. rewrite Hsg. intros [Hq|Hq]%elem_of_app; [eauto|].
    destruct (decide _); [|inversion Hq].
    apply list_elem_of_singleton in Hq as ->. exact Hs.
  - apply no_escalation_cons; [exact H5|]. discriminate.
Qed.

(** The callback of the stop timer: the handle it reads was never sent
    [SIGTERM]. *)
Lemma handle_ok_sigkill x c p :
  handle_ok x -> backendProcess x = Some p ->
  handle_ok (emit c (Kill p SIGKILL) x).
Proof.
  intros (H1 & H2 & H3 & H4 & H5) Hp. destruct (H1 p Hp) as (Hu & Hs & Hn & Hlt).
  unfold handle_ok.
  assert (Hsp : spawned (emit c (Kill p SIGKILL) x) = spawned x)
    by exact (app_nil_r _).
  rewrite Hsp.
  assert (Hsg : forall sg,
            signalled sg (emit c (Kill p SIGKILL) x) =
            signalled sg x ++ (if decide (SIGKILL = sg) then [p] else [])).
  { reflexivity. }
  assert (Hterm : signalled SIGTERM (emit c (Kill p SIGKILL) x) = signalled SIGTERM x).
  { rewrite Hsg. destruct (decide _); [congruence|apply app_nil_r]. }
  rewrite !Hterm.
  refine (conj H1 (conj H2 (conj H3 (conj _ _)))).
  - intros sg q. rewrite Hsg. intros [Hq|Hq]%elem_of_app; [eauto|].
    destruct (decide _); [|inversion Hq].
    apply list_elem_of_singleton in Hq as ->. exact Hs.
  - apply no_escalation_cons; [exact H5|].
    intros q [= <-] c' Hin. apply Hn. apply elem_of_signalled. eauto.
Qed.

(** [spawn]: the new child is the handle. *)
Lemma handle_ok_spawn x y c exe script :
  handle_ok x ->
  backendProcess y = Some (nextPid x) -> nextPid x ∈ unclosed y ->
  nextPid y = S (nextPid x) -> log y = log x ->
  handle_ok (emit c (Spawn (nextPid x) exe script) y).
Proof.
  intros (H1 & H2 & H3 & H4 & H5) Hh Hu Hn Hl. unfold handle_ok.
  assert (Hsp : spawned (emit c (Spawn (nextPid x) exe script) y) =
                spawned x ++ [nextPid x]).
  { rewrite spawned_emit. unfold spawned. rewrite Hl. reflexivity. }
  assert (Hsg : forall sg,
            signalled sg (emit c (Spawn (nextPid x) exe script) y) = signalled sg x).
  { intros sg. rewrite signalled_emit, app_nil_r. unfold signalled. rewrite Hl.
    reflexivity. }
  rewrite Hsp, !Hsg.
  change (backendProcess (emit c (Spawn (nextPid x) exe script) y))
    with (backendProcess y).
  change (unclosed (emit c (Spawn (nextPid x) exe script) y)) with (unclosed y).
  change (nextPid (emit c (Spawn (nextPid x) exe script) y)) with (nextPid y).
  change (log (emit c (Spawn (nextPid x) exe script) y))
    with ((c, Spawn (nextPid x) exe script) :: log y).
  rewrite Hh, Hn, Hl.
  refine (conj _ (conj _ (conj H3 (conj _ _)))).
  - intros p [= <-]. refine (conj Hu (conj _ (conj _ _))).
    + apply elem_of_app. right. left.
    + intros Hin. specialize (H2 _ Hin). lia.
    + lia.
  - intros p Hp. specialize (H2 _ Hp). lia.
  - intros sg p. rewrite Hsg. intros Hp. apply elem_of_app. left. eauto.
  - apply no_escalation_cons; [exact H5|]. discriminate.
Qed.

Create HintDb handle.

Lemma handle_ok_bump x : handle_ok x -> handle_ok (bump x).
Proof. apply handle_ok_core. reflexivity. Qed.
Lemma handle_ok_suspend x c w : handle_ok x -> handle_ok (suspend c w x).
Proof. apply handle_ok_core. reflexivity. Qed.
Lemma handle_ok_unqueue x t : handle_ok x -> handle_ok (unqueue t x).
Proof. apply handle_ok_core. reflexivity. Qed.
Lemma handle_ok_set_ready x v : handle_ok x -> handle_ok (set_ready v x).
Proof. apply handle_ok_core. reflexivity. Qed.
Lemma handle_ok_set_mainWindow x v : handle_ok x -> handle_ok (set_mainWindow v x).
Proof. apply handle_ok_core. reflexivity. Qed.
Lemma handle_ok_set_tray x v : handle_ok x -> handle_ok (set_tray v x).
Proof. apply handle_ok_core. reflexivity. Qed.
Lemma handle_ok_set_trayDestroyed x v : handle_ok x -> handle_ok (set_trayDestroyed v x).
Proof. apply handle_ok_core. reflexivity. Qed.
Lemma handle_ok_set_isQuitting x v : handle_ok x -> handle_ok (set_isQuitting v x).
Proof. apply handle_ok_core. reflexivity. Qed.
Lemma handle_ok_set_intervalArmed x v : handle_ok x -> handle_ok (set_intervalArmed v x).
Proof. apply handle_ok_core. reflexivity. Qed.
Lemma handle_ok_set_running x v : handle_ok x -> handle_ok (set_running v x).
Proof. apply handle_ok_core. reflexivity. Qed.
Lemma handle_ok_set_listening x v : handle_ok x -> handle_ok (set_listening v x).
Proof. apply handle_ok_core. reflexivity. Qed.
Lemma handle_ok_null x : handle_ok x -> handle_ok (set_backendProcess None x).
Proof. apply handle_ok_forget; reflexivity. Qed.
Lemma handle_ok_closed x p :
  handle_ok x -> handle_ok (set_backendProcess None (reap p x)).
Proof. apply handle_ok_forget; reflexivity. Qed.

#[local] Hint Resolve handle_ok_emit handle_ok_bump handle_ok_suspend handle_ok_unqueue
  handle_ok_set_ready handle_ok_set_mainWindow handle_ok_set_tray
  handle_ok_set_trayDestroyed handle_ok_set_isQuitting handle_ok_set_intervalArmed
  handle_ok_set_running handle_ok_set_listening handle_ok_null handle_ok_closed : handle.
#[local] Hint Extern 0 (benign _) => exact I : handle.
#[local] Hint Extern 2 (handle_ok (if ?b then _ else _)) => destruct b : handle.
#[local] Hint Extern 2 (handle_ok (match ?x with _ => _ end)) => destruct x : handle.

Ltac handle f := intros; unfold f; cbv zeta; eauto 30 with handle.

Lemma handle_ok_sleep x c k ms : handle_ok x -> handle_ok (sleep c k ms x).
Proof. handle sleep. Qed.
Lemma handle_ok_setTimeout x c k ms : handle_ok x -> handle_ok (setTimeout c k ms x).
Proof. handle setTimeout. Qed.
Lemma handle_ok_checkBackendWithHttp x c k :
  handle_ok x -> handle_ok (checkBackendWithHttp c k x).
Proof. handle checkBackendWithHttp. Qed.
#[local] Hint Resolve handle_ok_sleep handle_ok_setTimeout
  handle_ok_checkBackendWithHttp : handle.
Lemma handle_ok_updateTrayMenu x : handle_ok x -> handle_ok (updateTrayMenu x).
Proof. handle updateTrayMenu. Qed.
Lemma handle_ok_killExistingBackends x c k :
  handle_ok x -> handle_ok (killExistingBackends c k x).
Proof. handle killExistingBackends. Qed.
#[local] Hint Resolve handle_ok_updateTrayMenu handle_ok_killExistingBackends : handle.
Lemma handle_ok_boot_timers x c : handle_ok x -> handle_ok (boot_timers c x).
Proof. handle boot_timers. Qed.
#[local] Hint Resolve handle_ok_boot_timers : handle.
Lemma handle_ok_return_from_start x c k :
  handle_ok x -> handle_ok (return_from_start c k x).
Proof. handle return_from_start. Qed.

Lemma stopBackend_unfold c x p :
  backendProcess x = Some p ->
  stopBackend c x =
  setTimeout c ForceKill 10000
    (set_backendProcess None (emit c (Kill p SIGTERM) (emit c (Enter FnStop) x))).
Proof.
  intros H. unfold stopBackend. cbv zeta.
  change (backendProcess (emit c (Enter FnStop) x)) with (backendProcess x).
  rewrite H. reflexivity.
Qed.

Lemma handle_ok_stopBackend x c : handle_ok x -> handle_ok (stopBackend c x).
Proof.
  intros H. destruct (backendProcess x) as [p|] eqn:Hp.
  - rewrite (stopBackend_unfold c x p Hp).
    apply handle_ok_setTimeout, handle_ok_sigterm; [|exact Hp].
    apply handle_ok_emit; [exact H|exact I].
  - rewrite stopBackend_idle by exact Hp. apply handle_ok_emit; [exact H|exact I].
Qed.

Lemma handle_ok_force_kill x c : handle_ok x -> handle_ok (force_kill c x).
Proof.
  intros H. unfold force_kill. destruct (backendProcess x) as [p|] eqn:Hp; [|exact H].
  unfold kill. cbv zeta.
  apply handle_ok_set_listening, handle_ok_set_running, handle_ok_sigkill;
    assumption.
Qed.

Lemma handle_ok_startBackend x c k : handle_ok x -> handle_ok (startBackend c k x).
Proof. handle startBackend. Qed.
#[local] Hint Resolve handle_ok_return_from_start handle_ok_stopBackend
  handle_ok_startBackend handle_ok_force_kill : handle.
Lemma handle_ok_startBackend_cleaned x c k :
  handle_ok x -> handle_ok (startBackend_cleaned c k x).
Proof. handle startBackend_cleaned. Qed.
Lemma handle_ok_restartBackend x c : handle_ok x -> handle_ok (restartBackend c x).
Proof. handle restartBackend. Qed.
Lemma handle_ok_restartBackend_cleaned x c :
  handle_ok x -> handle_ok (restartBackend_cleaned c x).
Proof. handle restartBackend_cleaned. Qed.
#[local] Hint Resolve handle_ok_startBackend_cleaned handle_ok_restartBackend
  handle_ok_restartBackend_cleaned : handle.

Lemma handle_ok_init : handle_ok init.
Proof.
  unfold handle_ok. cbn. repeat split; try discriminate.
  - intros p H. inversion H.
  - constructor.
  - intros sg p H. inversion H.
  - intros l1 l2 c p H. destruct l1; discriminate.
Qed.

Section WithHost.
Context (h : host).

Lemma handle_ok_spawn_backend x c : handle_ok x -> handle_ok (spawn_backend h c x).
Proof.
  intros H. unfold spawn_backend. cbv zeta.
  apply handle_ok_setTimeout, handle_ok_spawn; [exact H|reflexivity| |reflexivity..].
  left.
Qed.
#[local] Hint Resolve handle_ok_spawn_backend : handle.
Lemma handle_ok_startBackend_probed x c k up :
  handle_ok x -> handle_ok (startBackend_probed h c k up x).
Proof. handle startBackend_probed. Qed.
Lemma handle_ok_checkReady_probed x c n up :
  handle_ok x -> handle_ok (checkReady_probed h c n up x).
Proof. handle checkReady_probed. Qed.
#[local] Hint Resolve handle_ok_startBackend_probed handle_ok_checkReady_probed : handle.

Lemma handle_ok_checkBackendStatus_probed x c k up :
  handle_ok x -> handle_ok (checkBackendStatus_probed h c k up x).
Proof.
  intros H. unfold checkBackendStatus_probed.
  assert (H1 : handle_ok (if tray x then updateTrayMenu x else x))
    by eauto with handle.
  revert H1. generalize (if tray x then updateTrayMenu x else x). intros x1 H1.
  destruct k; eauto 10 with handle.
Qed.
#[local] Hint Resolve handle_ok_checkBackendStatus_probed : handle.

Lemma handle_ok_fire x o k : handle_ok x -> handle_ok (fire o k x).
Proof.
  intros H. destruct k as [[]| | | | |]; cbn [fire]; unfold checkBackendStatus;
    eauto with handle.
Qed.

Lemma handle_ok_probed x o k up : handle_ok x -> handle_ok (probed h o k up x).
Proof.
  intros H. destruct k; cbn [probed]; unfold updateTrayMenu_probed;
    eauto 10 with handle.
Qed.

Lemma handle_ok_foldl_window c ops : forall x,
  handle_ok x -> handle_ok (foldl (λ s' op, emit c (Window op) s') x ops).
Proof.
  induction ops as [|op ops IH]; intros x Hx; cbn [foldl]; [exact Hx|].
  apply IH. eauto with handle.
Qed.

Lemma handle_ok_step s e s' : handle_ok s -> step h s e = Some s' -> handle_ok s'.
Proof.
  intros H.
  destruct e as [w tr|cmd| |t0|t0 up|t0 r|p|p marker|p code|p|m v| | | |];
    cbn [step]; intros Hstep.
  - destruct (ready s); [discriminate|]. injection Hstep as <-.
    unfold app_ready, checkBackendStatus. cbv zeta.
    destruct tr; eauto 10 with handle.
  - injection Hstep as <-.
    destruct cmd; cbn [call]; unfold checkBackendStatus; eauto with handle.
  - destruct (intervalArmed s); [|discriminate]. injection Hstep as <-.
    eauto with handle.
  - destruct (pending s !! t0) as [[[ms k|k|] o]|] eqn:Ht0; try discriminate.
    injection Hstep as <-. apply handle_ok_fire. eauto with handle.
  - destruct (pending s !! t0) as [[[ms k|k|] o]|] eqn:Ht0; try discriminate.
    injection Hstep as <-. apply handle_ok_probed. eauto with handle.
  - destruct (pending s !! t0) as [[[ms k|k|] o]|] eqn:Ht0; try discriminate.
    injection Hstep as <-. unfold updateTrayMenu_fallback. cbv zeta.
    eauto with handle.
  - destruct (bool_decide _); [|discriminate]. injection Hstep as <-.
    eauto with handle.
  - destruct (bool_decide _); [|discriminate]. injection Hstep as <-.
    destruct marker; eauto with handle.
  - destruct (bool_decide _); [|discriminate]. injection Hstep as <-.
    unfold on_close. cbv zeta.
    change (isQuitting (set_backendProcess None ?x)) with (isQuitting x).
    change (tray (set_backendProcess None ?x)) with (tray x).
    destruct (_ && _); [destruct (win32 h)|]; eauto 15 with handle.
  - destruct (bool_decide _); [|discriminate]. injection Hstep as <-.
    unfold on_error. cbv zeta.
    change (mainWindow (set_backendProcess None ?x)) with (mainWindow x).
    destruct (mainWindow _); eauto 10 with handle.
  - injection Hstep as <-. apply handle_ok_foldl_window. eauto with handle.
  - destruct (mainWindow s); [|discriminate]. injection Hstep as <-.
    eauto with handle.
  - destruct (tray s); [|discriminate]. injection Hstep as <-.
    eauto with handle.
  - injection Hstep as <-. eauto with handle.
  - injection Hstep as <-. unfold on_will_quit.
    destruct (backendProcess _); eauto with handle.
Qed.

Lemma handle_ok_run evs : forall s s',
  handle_ok s -> run h s evs = Some s' -> handle_ok s'.
Proof.
  induction evs as [|e evs IH]; intros s s' Hs; cbn [run].
  - intros [= <-]. exact Hs.
  - destruct (step h s e) as [s1|] eqn:He; [|discriminate].
    apply IH. eapply handle_ok_step; eauto.
Qed.

End WithHost.

(** The handle [backendProcess], when it is not [null], holds a child
    that this process spawned, whose [close] event has not fired, and
    that [stopBackend()] has not signalled. *)
Theorem handle_holds_a_spawned_unclosed_unstopped_child h evs s p :
  run h init evs = Some s -> backendProcess s = Some p ->
  p ∈ spawned s /\ p ∈ unclosed s /\ (p ∉ signalled SIGTERM s).
Proof.
  intros Hrun Hp.
  destruct (handle_ok_run h evs init s handle_ok_init Hrun) as (H1 & _).
  destruct (H1 p Hp) as (Hu & Hs & Hn & _). auto.
Qed.

(** [backendProcess.kill] is called on children that this process spawned
    only, and with [SIGTERM] on a child once at most: [stopBackend()] does
    not signal the same child twice, however often it is called. *)
Theorem signals_go_to_own_children_and_sigterm_once h evs s :
  run h init evs = Some s ->
  NoDup (signalled SIGTERM s) /\
  forall sg p, p ∈ signalled sg s -> p ∈ spawned s.
Proof.
  intros Hrun.
  destruct (handle_ok_run h evs init s handle_ok_init Hrun) as (_ & _ & H3 & H4 & _).
  auto.
Qed.

(** The [SIGKILL] of the stop timer never reaches the child that
    [stopBackend()] asked to stop: wherever the trace has a
    [backendProcess.kill('SIGKILL')] for a child, no
    [backendProcess.kill('SIGTERM')] for that child is older.  (The handle
    is [null] from the [SIGTERM] on, and a later spawn puts another child
    in it.  The [kill -9] of [killExistingBackends] goes by the port, not
    by the handle: it is the effect [Cleanup].) *)
Theorem sigkill_never_follows_sigterm h evs s l1 l2 c p :
  run h init evs = Some s ->
  log s = l1 ++ (c, Kill p SIGKILL) :: l2 ->
  forall c', (c', Kill p SIGTERM) ∉ l2.
Proof.
  intros Hrun Hlog.
  destruct (handle_ok_run h evs init s handle_ok_init Hrun) as (_ & _ & _ & _ & H5).
  exact (H5 l1 l2 c p Hlog).
Qed.

Lemma handle_holds_a_spawned_unclosed_unstopped_child_witness :
  backendProcess after_late_stop_timer = Some 1 /\
  1 ∈ spawned after_late_stop_timer /\ 1 ∈ unclosed after_late_stop_timer /\
  (1 ∉ signalled SIGTERM after_late_stop_timer).
Proof.
  assert (H : backendProcess after_late_stop_timer = Some 1)
    by (vm_compute; reflexivity).
  split; [exact H|].
  apply (handle_holds_a_spawned_unclosed_unstopped_child host_complete
           late_stop_timer after_late_stop_timer 1); [|exact H].
  vm_compute. reflexivity.
Defined.

Lemma signals_go_to_own_children_and_sigterm_once_witness :
  NoDup (signalled SIGTERM after_late_stop_timer) /\
  forall sg p,
    p ∈ signalled sg after_late_stop_timer -> p ∈ spawned after_late_stop_timer.
Proof.
  apply (signals_go_to_own_children_and_sigterm_once host_complete late_stop_timer).
  vm_compute. reflexivity.
Defined.

Lemma sigkill_never_follows_sigterm_witness :
  log after_late_stop_timer =
    [] ++ (7, Kill 1 SIGKILL) :: tail (log after_late_stop_timer) /\
  forall c', (c', Kill 1 SIGTERM) ∉ tail (log after_late_stop_timer).
Proof.
  assert (H : log after_late_stop_timer =
              [] ++ (7, Kill 1 SIGKILL) :: tail (log after_late_stop_timer))
    by (vm_compute; reflexivity).
  split; [exact H|].
  apply (sigkill_never_follows_sigterm host_complete late_stop_timer
           after_late_stop_timer [] (tail (log after_late_stop_timer)) 7 1);
    [|exact H].
  vm_compute. reflexivity.
Defined.

(** *** Quitting *)

Create HintDb flags.

Lemma steady_refl s : steady s s.
Proof. reflexivity. Qed.

Lemma steady_core s x s' : isQuitting s' = isQuitting x -> steady s x -> steady s s'.
Proof. unfold steady. congruence. Qed.

Lemma steady_emit s x c e : steady s x -> steady s (emit c e x).
Proof. apply steady_core. reflexivity. Qed.
Lemma steady_bump s x : steady s x -> steady s (bump x).
Proof. apply steady_core. reflexivity. Qed.
Lemma steady_suspend s x c w : steady s x -> steady s (suspend c w x).
Proof. apply steady_core. reflexivity. Qed.
Lemma steady_unqueue s x t : steady s x -> steady s (unqueue t x).
Proof. apply steady_core. reflexivity. Qed.
Lemma steady_set_ready s x v : steady s x -> steady s (set_ready v x).
Proof. apply steady_core. reflexivity. Qed.
Lemma steady_set_mainWindow s x v : steady s x -> steady s (set_mainWindow v x).
Proof. apply steady_core. reflexivity. Qed.
Lemma steady_set_tray s x v : steady s x -> steady s (set_tray v x).
Proof. apply steady_core. reflexivity. Qed.
Lemma steady_set_trayDestroyed s x v : steady s x -> steady s (set_trayDestroyed v x).
Proof. apply steady_core. reflexivity. Qed.
Lemma steady_set_backendProcess s x v : steady s x -> steady s (set_backendProcess v x).
Proof. apply steady_core. reflexivity. Qed.
Lemma steady_set_intervalArmed s x v : steady s x -> steady s (set_intervalArmed v x).
Proof. apply steady_core. reflexivity. Qed.
Lemma steady_set_running s x v : steady s x -> steady s (set_running v x).
Proof. apply steady_core. reflexivity. Qed.
Lemma steady_set_listening s x v : steady s x -> steady s (set_listening v x).
Proof. apply steady_core. reflexivity. Qed.
Lemma steady_set_unclosed s x v : steady s x -> steady s (set_unclosed v x).
Proof. apply steady_core. reflexivity. Qed.
Lemma steady_set_nextPid s x v : steady s x -> steady s (set_nextPid v x).
Proof. apply steady_core. reflexivity. Qed.

#[local] Hint Resolve steady_refl steady_emit steady_bump steady_suspend steady_unqueue
  steady_set_ready steady_set_mainWindow steady_set_tray steady_set_trayDestroyed steady_set_backendProcess steady_set_intervalArmed steady_set_running steady_set_listening steady_set_unclosed steady_set_nextPid : flags.
#[local] Hint Extern 2 (steady _ (if ?b then _ else _)) => destruct b : flags.
#[local] Hint Extern 2 (steady _ (match ?x with _ => _ end)) => destruct x : flags.

Ltac flags f := intros; unfold f; cbv zeta; eauto 30 with flags.

Lemma steady_sleep s x c k ms : steady s x -> steady s (sleep c k ms x).
Proof. flags sleep. Qed.
Lemma steady_setTimeout s x c k ms : steady s x -> steady s (setTimeout c k ms x).
Proof. flags setTimeout. Qed.
Lemma steady_checkBackendWithHttp s x c k :
  steady s x -> steady s (checkBackendWithHttp c k x).
Proof. flags checkBackendWithHttp. Qed.
#[local] Hint Resolve steady_sleep steady_setTimeout steady_checkBackendWithHttp : flags.
Lemma steady_updateTrayMenu s x : steady s x -> steady s (updateTrayMenu x).
Proof. flags updateTrayMenu. Qed.
Lemma steady_killExistingBackends s x c k :
  steady s x -> steady s (killExistingBackends c k x).
Proof. flags killExistingBackends. Qed.
#[local] Hint Resolve steady_updateTrayMenu steady_killExistingBackends : flags.
Lemma steady_boot_timers s x c : steady s x -> steady s (boot_timers c x).
Proof. flags boot_timers. Qed.
Lemma steady_kill s x c p sg : steady s x -> steady s (kill c p sg x).
Proof. flags kill. Qed.
#[local] Hint Resolve steady_boot_timers steady_kill : flags.
Lemma steady_return_from_start s x c k : steady s x -> steady s (return_from_start c k x).
Proof. flags return_from_start. Qed.
Lemma steady_stopBackend s x c : steady s x -> steady s (stopBackend c x).
Proof.
  intros H. unfold stopBackend. cbv zeta.
  change (backendProcess (emit c (Enter FnStop) x)) with (backendProcess x).
  destruct (backendProcess x); eauto 10 with flags.
Qed.
Lemma steady_startBackend s x c k : steady s x -> steady s (startBackend c k x).
Proof. flags startBackend. Qed.
Lemma steady_force_kill s x c : steady s x -> steady s (force_kill c x).
Proof. flags force_kill. Qed.
#[local] Hint Resolve steady_return_from_start steady_stopBackend steady_startBackend
  steady_force_kill : flags.
Lemma steady_startBackend_cleaned s x c k :
  steady s x -> steady s (startBackend_cleaned c k x).
Proof. flags startBackend_cleaned. Qed.
Lemma steady_restartBackend s x c : steady s x -> steady s (restartBackend c x).
Proof. flags restartBackend. Qed.
Lemma steady_restartBackend_cleaned s x c :
  steady s x -> steady s (restartBackend_cleaned c x).
Proof. flags restartBackend_cleaned. Qed.
#[local] Hint Resolve steady_startBackend_cleaned steady_restartBackend
  steady_restartBackend_cleaned : flags.

Section WithHost.
Context (h : host).

Lemma steady_spawn_backend s x c : steady s x -> steady s (spawn_backend h c x).
Proof. flags spawn_backend. Qed.
#[local] Hint Resolve steady_spawn_backend : flags.
Lemma steady_startBackend_probed s x c k up :
  steady s x -> steady s (startBackend_probed h c k up x).
Proof. flags startBackend_probed. Qed.
Lemma steady_checkReady_probed s x c n up :
  steady s x -> steady s (checkReady_probed h c n up x).
Proof. flags checkReady_probed. Qed.
#[local] Hint Resolve steady_startBackend_probed steady_checkReady_probed : flags.
Lemma steady_checkBackendStatus_probed s x c k up :
  steady s x -> steady s (checkBackendStatus_probed h c k up x).
Proof.
  intros H. unfold checkBackendStatus_probed.
  assert (H1 : steady s (if tray x then updateTrayMenu x else x)) by eauto with flags.
  revert H1. generalize (if tray x then updateTrayMenu x else x). intros x1 H1.
  destruct k; eauto 10 with flags.
Qed.
#[local] Hint Resolve steady_checkBackendStatus_probed : flags.

Lemma steady_fire s x o k : steady s x -> steady s (fire o k x).
Proof.
  intros H. destruct k as [[]| | | | |]; cbn [fire]; unfold checkBackendStatus;
    eauto with flags.
Qed.

Lemma steady_probed s x o k up : steady s x -> steady s (probed h o k up x).
Proof.
  intros H. destruct k; cbn [probed]; unfold updateTrayMenu_probed;
    eauto 10 with flags.
Qed.

Lemma steady_foldl_window s c ops : forall x,
  steady s x -> steady s (foldl (λ s' op, emit c (Window op) s') x ops).
Proof.
  induction ops as [|op ops IH]; intros x Hx; cbn [foldl]; [exact Hx|].
  apply IH. eauto with flags.
Qed.

(** [isQuitting] is never reset: the handler of [before-quit] assigns
    [true], no other handler assigns it. *)
Lemma quitting_step s e s' :
  step h s e = Some s' -> isQuitting s = true -> isQuitting s' = true.
Proof.
  intros Hstep Hq.
  assert (G : forall x, isQuitting x = true -> steady x s' -> isQuitting s' = true).
  { unfold steady. intros x Hx ->. exact Hx. }
  destruct e as [w tr|cmd| |t0|t0 up|t0 r|p|p marker|p code|p|m v| | | |];
    cbn [step] in Hstep.
  - destruct (ready s); [discriminate|]. injection Hstep as <-.
    unfold app_ready, checkBackendStatus. cbv zeta.
    destruct tr.
    + apply (G (set_tray true (set_mainWindow w (set_ready true (bump s)))));
        [exact Hq|eauto 10 with flags].
    + apply (G (set_mainWindow w (set_ready true (bump s))));
        [exact Hq|eauto 10 with flags].
  - injection Hstep as <-. apply (G s Hq).
    destruct cmd; cbn [call]; unfold checkBackendStatus; eauto with flags.
  - destruct (intervalArmed s); [|discriminate]. injection Hstep as <-.
    apply (G s Hq). eauto with flags.
  - destruct (pending s !! t0) as [[[ms k|k|] o]|] eqn:Ht0; try discriminate.
    injection Hstep as <-. apply (G s Hq). apply steady_fire. eauto with flags.
  - destruct (pending s !! t0) as [[[ms k|k|] o]|] eqn:Ht0; try discriminate.
    injection Hstep as <-. apply (G s Hq). apply steady_probed. eauto with flags.
  - destruct (pending s !! t0) as [[[ms k|k|] o]|] eqn:Ht0; try discriminate.
    injection Hstep as <-. apply (G s Hq). unfold updateTrayMenu_fallback. cbv zeta.
    eauto with flags.
  - destruct (bool_decide _); [|discriminate]. injection Hstep as <-.
    apply (G s Hq). eauto with flags.
  - destruct (bool_decide _); [|discriminate]. injection Hstep as <-.
    apply (G s Hq). destruct marker; eauto with flags.
  - destruct (bool_decide _); [|discriminate]. injection Hstep as <-.
    apply (G s Hq). unfold on_close, reap. cbv zeta.
    change (isQuitting (set_backendProcess None ?x)) with (isQuitting x).
    change (tray (set_backendProcess None ?x)) with (tray x).
    destruct (_ && _); [destruct (win32 h)|]; eauto 15 with flags.
  - destruct (bool_decide _); [|discriminate]. injection Hstep as <-.
    apply (G s Hq). unfold on_error. cbv zeta.
    change (mainWindow (set_backendProcess None ?x)) with (mainWindow x).
    destruct (mainWindow _); eauto 10 with flags.
  - injection Hstep as <-. apply (G s Hq).
    apply steady_foldl_window. eauto with flags.
  - destruct (mainWindow s); [|discriminate]. injection Hstep as <-.
    apply (G s Hq). eauto with flags.
  - destruct (tray s); [|discriminate]. injection Hstep as <-.
    apply (G s Hq). eauto with flags.
  - injection Hstep as <-. apply (G (set_isQuitting true (bump s))); [reflexivity|].
    eauto with flags.
  - injection Hstep as <-. apply (G s Hq). unfold on_will_quit.
    destruct (backendProcess _); eauto with flags.
Qed.

Lemma quitting_run evs : forall s s',
  run h s evs = Some s' -> isQuitting s = true -> isQuitting s' = true.
Proof.
  induction evs as [|e evs IH]; intros s s'; cbn [run].
  - intros [= <-]. auto.
  - destruct (step h s e) as [s1|] eqn:He; [|discriminate].
    intros Hrun Hq. eapply IH; [exact Hrun|]. eapply quitting_step; eauto.
Qed.

(** The [close] handler of a child while the application quits. *)
Lemma close_while_quitting s p code s' :
  isQuitting s = true -> step h s (EvClose p code) = Some s' ->
  log s' = log s /\ pending s' = pending s /\ backendProcess s' = None.
Proof.
  intros Hq. cbn [step]. destruct (bool_decide _); [|discriminate].
  intros [= <-]. unfold on_close. cbv zeta.
  change (isQuitting (set_backendProcess None (reap p (bump s)))) with (isQuitting s).
  rewrite Hq, andb_false_r. repeat split.
Qed.

End WithHost.

(** Once [before-quit] has set [isQuitting], it stays set whatever
    happens, and from then on a child that closes, with whatever exit
    code, gets neither a balloon nor a tray update: the handler only
    sets the handle to [null]. *)
Theorem quitting_is_final_and_silences_close h s evs s' :
  isQuitting s = true -> run h s evs = Some s' ->
  isQuitting s' = true /\
  forall p code s'',
    step h s' (EvClose p code) = Some s'' ->
    log s'' = log s' /\ pending s'' = pending s' /\ backendProcess s'' = None.
Proof.
  intros Hq Hrun. pose proof (quitting_run h evs s s' Hrun Hq) as Hq'.
  split; [exact Hq'|]. intros p code s''. apply close_while_quitting. exact Hq'.
Qed.

Lemma quitting_is_final_and_silences_close_witness :
  isQuitting after_before_quit = true /\
  isQuitting (default init (run host_complete after_before_quit [EvTick])) = true.
Proof.
  assert (Hq : isQuitting after_before_quit = true) by (vm_compute; reflexivity).
  split; [exact Hq|].
  apply (quitting_is_final_and_silences_close host_complete after_before_quit
           [EvTick] (default init (run host_complete after_before_quit [EvTick]))
           Hq).
  vm_compute. reflexivity.
Defined.

(** The usual way out: [before-quit] stops the backend, which sets the
    handle to [null]; the [will-quit] handler that comes next finds no
    handle, so it neither holds the quit back nor stops anything nor sets
    its 2000 ms timer. *)
Theorem will_quit_after_before_quit_defers_nothing h s :
  exists s1,
    step h s EvBeforeQuit = Some s1 /\
    isQuitting s1 = true /\ backendProcess s1 = None /\
    step h s1 EvWillQuit = Some (bump s1).
Proof.
  eexists. split; [reflexivity|].
  assert (Hh : backendProcess (stopBackend (nextCid s) (set_isQuitting true (bump s)))
               = None) by apply stopBackend_handle.
  split; [|split; [exact Hh|]].
  - exact (steady_stopBackend (set_isQuitting true (bump s))
             (set_isQuitting true (bump s)) (nextCid s) (steady_refl _)).
  - cbn [step]. unfold on_will_quit.
    change (backendProcess (bump ?x)) with (backendProcess x).
    rewrite Hh. reflexivity.
Qed.

(** *** Without a tray *)

Create HintDb notray.

Lemma trayless_core s x :
  (tray s, pending s, log s) = (tray x, pending x, log x) ->
  trayless x -> trayless s.
Proof. unfold trayless. intros [= -> -> ->]. auto. Qed.

Lemma trayless_emit x c e : trayless x -> ~ for_tray e -> trayless (emit c e x).
Proof.
  intros (H1 & H2 & H3) He. refine (conj H1 (conj H2 _)).
  intros c' e' [[= -> ->]|Hin]%elem_of_cons; [exact He|eauto].
Qed.

Lemma trayless_suspend x c w :
  trayless x -> ~ in_tray_update w -> trayless (suspend c w x).
Proof.
  intros (H1 & H2 & H3) Hw. refine (conj H1 (conj _ H3)).
  intros t e. cbn. intros [[_ <-]|[_ He]]%lookup_insert_Some; [exact Hw|eauto].
Qed.

Lemma trayless_unqueue x t : trayless x -> trayless (unqueue t x).
Proof.
  intros (H1 & H2 & H3). refine (conj H1 (conj _ H3)).
  intros t' e. cbn. intros [_ He]%lookup_delete_Some. eauto.
Qed.

Lemma trayless_bump x : trayless x -> trayless (bump x).
Proof. apply trayless_core. reflexivity. Qed.
Lemma trayless_set_ready x v : trayless x -> trayless (set_ready v x).
Proof. apply trayless_core. reflexivity. Qed.
Lemma trayless_set_mainWindow x v : trayless x -> trayless (set_mainWindow v x).
Proof. apply trayless_core. reflexivity. Qed.
Lemma trayless_set_trayDestroyed x v : trayless x -> trayless (set_trayDestroyed v x).
Proof. apply trayless_core. reflexivity. Qed.
Lemma trayless_set_backendProcess x v : trayless x -> trayless (set_backendProcess v x).
Proof. apply trayless_core. reflexivity. Qed.
Lemma trayless_set_isQuitting x v : trayless x -> trayless (set_isQuitting v x).
Proof. apply trayless_core. reflexivity. Qed.
Lemma trayless_set_intervalArmed x v : trayless x -> trayless (set_intervalArmed v x).
Proof. apply trayless_core. reflexivity. Qed.
Lemma trayless_set_running x v : trayless x -> trayless (set_running v x).
Proof. apply trayless_core. reflexivity. Qed.
Lemma trayless_set_listening x v : trayless x -> trayless (set_listening v x).
Proof. apply trayless_core. reflexivity. Qed.
Lemma trayless_set_unclosed x v : trayless x -> trayless (set_unclosed v x).
Proof. apply trayless_core. reflexivity. Qed.
Lemma trayless_set_nextPid x v : trayless x -> trayless (set_nextPid v x).
Proof. apply trayless_core. reflexivity. Qed.

#[local] Hint Resolve trayless_emit trayless_suspend trayless_unqueue trayless_bump
  trayless_set_ready trayless_set_mainWindow trayless_set_trayDestroyed trayless_set_backendProcess trayless_set_isQuitting trayless_set_intervalArmed trayless_set_running trayless_set_listening trayless_set_unclosed trayless_set_nextPid : notray.
#[local] Hint Extern 0 (~ for_tray _) => exact (λ H : False, H) : notray.
#[local] Hint Extern 0 (~ in_tray_update _) => exact (λ H : False, H) : notray.
#[local] Hint Extern 2 (trayless (if ?b then _ else _)) => destruct b : notray.
#[local] Hint Extern 2 (trayless (match ?x with _ => _ end)) => destruct x : notray.

Ltac notray f := intros; unfold f; cbv zeta; eauto 30 with notray.

(** [updateTrayMenu()] returns at once. *)
Lemma updateTrayMenu_trayless x : trayless x -> updateTrayMenu x = x.
Proof. intros (H1 & _). unfold updateTrayMenu. rewrite H1. reflexivity. Qed.

Lemma trayless_updateTrayMenu x : trayless x -> trayless (updateTrayMenu x).
Proof. intros H. rewrite updateTrayMenu_trayless; exact H. Qed.
Lemma trayless_sleep x c k ms : trayless x -> trayless (sleep c k ms x).
Proof. notray sleep. Qed.
Lemma trayless_setTimeout x c k ms : trayless x -> trayless (setTimeout c k ms x).
Proof. notray setTimeout. Qed.
Lemma trayless_checkBackendStatus x c k :
  trayless x -> trayless (checkBackendStatus c k x).
Proof. intros. unfold checkBackendStatus, checkBackendWithHttp. eauto with notray. Qed.
#[local] Hint Resolve trayless_updateTrayMenu trayless_sleep trayless_setTimeout
  trayless_checkBackendStatus : notray.
Lemma trayless_killExistingBackends x c k :
  trayless x -> trayless (killExistingBackends c k x).
Proof. notray killExistingBackends. Qed.
Lemma trayless_boot_timers x c : trayless x -> trayless (boot_timers c x).
Proof. notray boot_timers. Qed.
Lemma trayless_kill x c p sg : trayless x -> trayless (kill c p sg x).
Proof. notray kill. Qed.
#[local] Hint Resolve trayless_killExistingBackends trayless_boot_timers
  trayless_kill : notray.
Lemma trayless_return_from_start x c k :
  trayless x -> trayless (return_from_start c k x).
Proof. notray return_from_start. Qed.
Lemma trayless_stopBackend x c : trayless x -> trayless (stopBackend c x).
Proof.
  intros H. unfold stopBackend. cbv zeta.
  change (backendProcess (emit c (Enter FnStop) x)) with (backendProcess x).
  destruct (backendProcess x); eauto 10 with notray.
Qed.
Lemma trayless_startBackend x c k : trayless x -> trayless (startBackend c k x).
Proof. notray startBackend. Qed.
Lemma trayless_force_kill x c : trayless x -> trayless (force_kill c x).
Proof. notray force_kill. Qed.
#[local] Hint Resolve trayless_return_from_start trayless_stopBackend
  trayless_startBackend trayless_force_kill : notray.
Lemma trayless_startBackend_cleaned x c k :
  trayless x -> trayless (startBackend_cleaned c k x).
Proof. notray startBackend_cleaned. Qed.
Lemma trayless_restartBackend x c : trayless x -> trayless (restartBackend c x).
Proof. notray restartBackend. Qed.
Lemma trayless_restartBackend_cleaned x c :
  trayless x -> trayless (restartBackend_cleaned c x).
Proof. notray restartBackend_cleaned. Qed.
#[local] Hint Resolve trayless_startBackend_cleaned trayless_restartBackend
  trayless_restartBackend_cleaned : notray.

Lemma trayless_init : trayless init.
Proof.
  refine (conj eq_refl (conj _ _)).
  - intros t e H. cbn in H. rewrite lookup_empty in H. discriminate.
  - intros c e H. inversion H.
Qed.

Lemma collect_nil {A} (f : effect -> list A) l :
  (forall c e, (c, e) ∈ l -> f e = []) -> collect f l = [].
Proof.
  induction l as [|[c e] l IH]; intros H; [reflexivity|]. cbn [collect].
  rewrite IH, (H c e); [reflexivity|left|].
  intros c' e' Hin. apply (H c'). right. exact Hin.
Qed.

Section WithHost.
Context (h : host).

Lemma trayless_spawn_backend x c : trayless x -> trayless (spawn_backend h c x).
Proof. notray spawn_backend. Qed.
#[local] Hint Resolve trayless_spawn_backend : notray.
Lemma trayless_startBackend_probed x c k up :
  trayless x -> trayless (startBackend_probed h c k up x).
Proof. notray startBackend_probed. Qed.

(** [checkReady]: no balloon, [tray] being [null]. *)
Lemma trayless_checkReady_probed x c n up :
  trayless x -> trayless (checkReady_probed h c n up x).
Proof.
  intros H. unfold checkReady_probed. cbv zeta.
  rewrite (updateTrayMenu_trayless x H). rewrite (proj1 H). cbn [andb].
  destruct up; [exact H|]. destruct (_ && _); eauto with notray.
Qed.
#[local] Hint Resolve trayless_startBackend_probed trayless_checkReady_probed : notray.

Lemma trayless_checkBackendStatus_probed x c k up :
  trayless x -> trayless (checkBackendStatus_probed h c k up x).
Proof.
  intros H. unfold checkBackendStatus_probed. cbv zeta. rewrite (proj1 H).
  destruct k; eauto 10 with notray.
Qed.

Lemma trayless_fire x o k : trayless x -> trayless (fire o k x).
Proof.
  intros H. destruct k as [[]| | | | |]; cbn [fire]; eauto with notray.
Qed.

Lemma trayless_foldl_window c ops : forall x,
  trayless x -> trayless (foldl (λ s' op, emit c (Window op) s') x ops).
Proof.
  induction ops as [|op ops IH]; intros x Hx; cbn [foldl]; [exact Hx|].
  apply IH. eauto with notray.
Qed.

Lemma trayless_step s e s' :
  trayless s -> (forall w, e <> EvReady w true) -> step h s e = Some s' ->
  trayless s'.
Proof.
  intros H Hne.
  destruct e as [w tr|cmd| |t0|t0 up|t0 r|p|p marker|p code|p|m v| | | |];
    cbn [step]; intros Hstep.
  - destruct (ready s); [discriminate|]. injection Hstep as <-.
    destruct tr; [destruct (Hne w eq_refl)|].
    unfold app_ready. cbv zeta. eauto 10 with notray.
  - injection Hstep as <-. destruct cmd; cbn [call]; eauto with notray.
  - destruct (intervalArmed s); [|discriminate]. injection Hstep as <-.
    eauto with notray.
  - destruct (pending s !! t0) as [[[ms k|k|] o]|] eqn:Ht0; try discriminate.
    injection Hstep as <-. apply trayless_fire. eauto with notray.
  - destruct (pending s !! t0) as [[[ms k|k|] o]|] eqn:Ht0; try discriminate.
    injection Hstep as <-. destruct k as [k|].
    + cbn [probed]. apply trayless_checkBackendStatus_probed. eauto with notray.
    + destruct (proj1 (proj2 H) _ _ Ht0 I).
  - destruct (pending s !! t0) as [[[ms k|k|] o]|] eqn:Ht0; try discriminate.
    destruct (proj1 (proj2 H) _ _ Ht0 I).
  - destruct (bool_decide _); [|discriminate]. injection Hstep as <-.
    eauto with notray.
  - destruct (bool_decide _); [|discriminate]. injection Hstep as <-.
    destruct marker; eauto with notray.
  - destruct (bool_decide _); [|discriminate]. injection Hstep as <-.
    unfold on_close, reap. cbv zeta.
    change (tray (set_backendProcess None ?x)) with (tray x).
    change (tray (set_unclosed ?v ?x)) with (tray x).
    change (tray (set_listening ?v ?x)) with (tray x).
    change (tray (set_running ?v ?x)) with (tray x).
    change (tray (bump s)) with (tray s).
    rewrite (proj1 H), andb_false_r. eauto 10 with notray.
  - destruct (bool_decide _); [|discriminate]. injection Hstep as <-.
    unfold on_error. cbv zeta.
    change (mainWindow (set_backendProcess None ?x)) with (mainWindow x).
    destruct (mainWindow _); eauto 10 with notray.
  - injection Hstep as <-. apply trayless_foldl_window. eauto with notray.
  - destruct (mainWindow s); [|discriminate]. injection Hstep as <-.
    eauto with notray.
  - rewrite (proj1 H) in Hstep. discriminate.
  - injection Hstep as <-. eauto with notray.
  - injection Hstep as <-. unfold on_will_quit.
    destruct (backendProcess _); eauto with notray.
Qed.

Lemma trayless_run evs : forall s s',
  trayless s -> (forall w, EvReady w true ∉ evs) -> run h s evs = Some s' ->
  trayless s'.
Proof.
  induction evs as [|e evs IH]; intros s s' Hs Hne; cbn [run].
  - intros [= <-]. exact Hs.
  - destruct (step h s e) as [s1|] eqn:He; [|discriminate].
    apply IH.
    + eapply trayless_step; [exact Hs| |exact He].
      intros w ->. apply (Hne w). left.
    + intros w Hin. apply (Hne w). right. exact Hin.
Qed.

End WithHost.

(** When the tray could not be created ([tray] stays [null]), nothing is
    ever done for it: [updateTrayMenu()] returns before its probe, so no
    tray probe is in flight and the fallback request is never made, the
    menu is never built, and no balloon is shown, whatever the backend
    does. *)
Theorem without_a_tray_no_probe_no_fallback_no_balloon h evs s :
  run h init evs = Some s -> (forall w, EvReady w true ∉ evs) ->
  tray_probes_in_flight s = 0 /\
  axios_urls s = [] /\ tray_statuses s = [] /\ balloons s = [].
Proof.
  intros Hrun Hne.
  destruct (trayless_run h evs init s trayless_init Hne Hrun) as (_ & H2 & H3).
  split; [|repeat split].
  - unfold tray_probes_in_flight. apply map_size_empty_iff, map_empty_filter_2.
    intros t e He Hw. cbn in Hw. apply (H2 t e He). rewrite Hw. exact I.
  - apply collect_nil. intros c e Hin. pose proof (H3 c e Hin) as Hf.
    destruct e; try reflexivity; destruct Hf; exact I.
  - apply collect_nil. intros c e Hin. pose proof (H3 c e Hin) as Hf.
    destruct e; try reflexivity; destruct Hf; exact I.
  - apply collect_nil. intros c e Hin. pose proof (H3 c e Hin) as Hf.
    destruct e; try reflexivity; destruct Hf; exact I.
Qed.

Lemma without_a_tray_no_probe_no_fallback_no_balloon_witness :
  run host_complete init boot_without_tray =
    Some (default init (run host_complete init boot_without_tray)) /\
  tray_probes_in_flight (default init (run host_complete init boot_without_tray)) = 0 /\
  axios_urls (default init (run host_complete init boot_without_tray)) = [] /\
  tray_statuses (default init (run host_complete init boot_without_tray)) = [] /\
  balloons (default init (run host_complete init boot_without_tray)) = [].
Proof.
  assert (H : run host_complete init boot_without_tray =
              Some (default init (run host_complete init boot_without_tray)))
    by (vm_compute; reflexivity).
  split; [exact H|].
  apply (without_a_tray_no_probe_no_fallback_no_balloon host_complete
           boot_without_tray); [exact H|].
  intros w Hin. unfold boot_without_tray in Hin.
  repeat (apply elem_of_cons in Hin as [Hin|Hin]; [discriminate Hin|]).
  inversion Hin.
Defined.

(** *** The work that is left *)

Create HintDb work.

Lemma weight_comm (j1 j2 : nat) (z1 z2 : entry) (y : nat) :
  weight (what z1) + (weight (what z2) + y) = weight (what z2) + (weight (what z1) + y).
Proof. lia. Qed.

Lemma rank_insert (m : gmap nat entry) t e :
  map_fold (λ _ e acc, weight (what e) + acc) 0 (<[t:=e]> m) <=
  weight (what e) + map_fold (λ _ e acc, weight (what e) + acc) 0 m.
Proof.
  destruct (m !! t) as [e0|] eqn:E.
  - pose proof (map_fold_insert_L (λ _ e acc, weight (what e) + acc) 0 t e
                  (delete t m) (λ j1 j2 z1 z2 y _ _ _, weight_comm j1 j2 z1 z2 y)
                  (lookup_delete_eq m t)) as H1.
    rewrite insert_delete_eq in H1. rewrite H1.
    pose proof (map_fold_delete_L (λ _ e acc, weight (what e) + acc) 0 t e0 m
                  (λ j1 j2 z1 z2 y _ _ _, weight_comm j1 j2 z1 z2 y) E) as H2.
    rewrite H2. lia.
  - pose proof (map_fold_insert_L (λ _ e acc, weight (what e) + acc) 0 t e m
                  (λ j1 j2 z1 z2 y _ _ _, weight_comm j1 j2 z1 z2 y) E) as H1.
    rewrite H1. lia.
Qed.

(** Resuming a continuation takes its weight off. *)
Lemma rank_unqueue s t e :
  pending s !! t = Some e -> rank s = weight (what e) + rank (unqueue t s).
Proof.
  intros H. unfold rank. cbn [pending unqueue set_pending].
  exact (map_fold_delete_L (λ _ e acc, weight (what e) + acc) 0 t e (pending s)
           (λ j1 j2 z1 z2 y _ _ _, weight_comm j1 j2 z1 z2 y) H).
Qed.

Lemma costs_refl s : costs 0 s s.
Proof. unfold costs. lia. Qed.

Lemma costs_weaken n m s x : costs n s x -> n <= m -> costs m s x.
Proof. unfold costs. lia. Qed.

Lemma costs_core n s x s' : pending s' = pending x -> costs n s x -> costs n s s'.
Proof. unfold costs, rank. intros ->. auto. Qed.

Lemma costs_suspend n s x c w :
  costs n s x -> costs (n + weight w) s (suspend c w x).
Proof.
  unfold costs. intros H. etransitivity; [apply rank_insert|].
  cbn [what]. fold (rank x). lia.
Qed.

Lemma costs_if n1 n2 s (b : bool) x1 x2 :
  costs n1 s x1 -> costs n2 s x2 -> costs (Nat.max n1 n2) s (if b then x1 else x2).
Proof. unfold costs. destruct b; lia. Qed.

Lemma costs_emit n s x c e : costs n s x -> costs n s (emit c e x).
Proof. apply costs_core. reflexivity. Qed.
Lemma costs_bump n s x : costs n s x -> costs n s (bump x).
Proof. apply costs_core. reflexivity. Qed.
Lemma costs_set_ready n s x v : costs n s x -> costs n s (set_ready v x).
Proof. apply costs_core. reflexivity. Qed.
Lemma costs_set_mainWindow n s x v : costs n s x -> costs n s (set_mainWindow v x).
Proof. apply costs_core. reflexivity. Qed.
Lemma costs_set_tray n s x v : costs n s x -> costs n s (set_tray v x).
Proof. apply costs_core. reflexivity. Qed.
Lemma costs_set_trayDestroyed n s x v : costs n s x -> costs n s (set_trayDestroyed v x).
Proof. apply costs_core. reflexivity. Qed.
Lemma costs_set_backendProcess n s x v : costs n s x -> costs n s (set_backendProcess v x).
Proof. apply costs_core. reflexivity. Qed.
Lemma costs_set_isQuitting n s x v : costs n s x -> costs n s (set_isQuitting v x).
Proof. apply costs_core. reflexivity. Qed.
Lemma costs_set_intervalArmed n s x v : costs n s x -> costs n s (set_intervalArmed v x).
Proof. apply costs_core. reflexivity. Qed.
Lemma costs_set_running n s x v : costs n s x -> costs n s (set_running v x).
Proof. apply costs_core. reflexivity. Qed.
Lemma costs_set_listening n s x v : costs n s x -> costs n s (set_listening v x).
Proof. apply costs_core. reflexivity. Qed.
Lemma costs_set_unclosed n s x v : costs n s x -> costs n s (set_unclosed v x).
Proof. apply costs_core. reflexivity. Qed.
Lemma costs_set_nextPid n s x v : costs n s x -> costs n s (set_nextPid v x).
Proof. apply costs_core. reflexivity. Qed.

#[local] Hint Resolve costs_refl costs_suspend costs_if costs_emit costs_bump
  costs_set_ready costs_set_mainWindow costs_set_tray costs_set_trayDestroyed costs_set_backendProcess costs_set_isQuitting costs_set_intervalArmed costs_set_running costs_set_listening costs_set_unclosed costs_set_nextPid : work.

(** The bound of a composite is worked out by [eauto] from the bounds of
    its parts, and then compared with the bound that is claimed. *)
Ltac work f :=
  intros; unfold f; cbv zeta;
  eapply costs_weaken; [eauto 30 with work|cbn [weight]; unfold maxAttempts; lia].

Lemma costs_sleep n s x c k ms :
  costs n s x -> costs (n + weight (OnTimer ms k)) s (sleep c k ms x).
Proof. intros. unfold sleep. eauto with work. Qed.
Lemma costs_setTimeout n s x c k ms :
  costs n s x -> costs (n + weight (OnTimer ms k)) s (setTimeout c k ms x).
Proof. intros. unfold setTimeout. eauto with work. Qed.
Lemma costs_checkBackendWithHttp n s x c k :
  costs n s x -> costs (n + weight (OnProbe k)) s (checkBackendWithHttp c k x).
Proof. intros. unfold checkBackendWithHttp. eauto with work. Qed.
#[local] Hint Resolve costs_sleep costs_setTimeout costs_checkBackendWithHttp : work.
Lemma costs_updateTrayMenu n s x : costs n s x -> costs (n + 2) s (updateTrayMenu x).
Proof. work updateTrayMenu. Qed.
Lemma costs_killExistingBackends n s x c k :
  costs n s x ->
  costs (n + weight (OnTimer 2000 (KillWait k))) s (killExistingBackends c k x).
Proof. intros. unfold killExistingBackends. cbv zeta. eauto 10 with work. Qed.
#[local] Hint Resolve costs_updateTrayMenu costs_killExistingBackends : work.
Lemma costs_boot_timers n s x c : costs n s x -> costs (n + 3) s (boot_timers c x).
Proof. work boot_timers. Qed.
Lemma costs_kill n s x c p sg : costs n s x -> costs n s (kill c p sg x).
Proof. intros. unfold kill. destruct sg; eauto with work. Qed.
#[local] Hint Resolve costs_boot_timers costs_kill : work.
Lemma costs_return_from_start n s x c k :
  costs n s x -> costs (n + 3) s (return_from_start c k x).
Proof. intros. destruct k; work return_from_start. Qed.
Lemma costs_stopBackend n s x c : costs n s x -> costs (n + 1) s (stopBackend c x).
Proof.
  intros H. unfold stopBackend. cbv zeta.
  change (backendProcess (emit c (Enter FnStop) x)) with (backendProcess x).
  destruct (backendProcess x);
    (eapply costs_weaken; [eauto 10 with work|cbn [weight]; lia]).
Qed.
Lemma costs_startBackend n s x c k :
  costs n s x -> costs (n + 129) s (startBackend c k x).
Proof. work startBackend. Qed.
Lemma costs_force_kill n s x c : costs n s x -> costs n s (force_kill c x).
Proof. intros. unfold force_kill. destruct (backendProcess x); eauto with work. Qed.
#[local] Hint Resolve costs_return_from_start costs_stopBackend costs_startBackend
  costs_force_kill : work.
Lemma costs_startBackend_cleaned n s x c k :
  costs n s x -> costs (n + 128) s (startBackend_cleaned c k x).
Proof.
  intros. unfold startBackend_cleaned, checkBackendStatus.
  destruct (backendProcess x);
    (eapply costs_weaken; [eauto 10 with work|cbn [weight]; lia]).
Qed.
Lemma costs_restartBackend n s x c :
  costs n s x -> costs (n + 132) s (restartBackend c x).
Proof. work restartBackend. Qed.
Lemma costs_restartBackend_cleaned n s x c :
  costs n s x -> costs (n + 131) s (restartBackend_cleaned c x).
Proof. work restartBackend_cleaned. Qed.
#[local] Hint Resolve costs_startBackend_cleaned costs_restartBackend
  costs_restartBackend_cleaned : work.

Section WithHost.
Context (h : host).

Lemma costs_spawn_backend n s x c :
  costs n s x -> costs (n + 122) s (spawn_backend h c x).
Proof. work spawn_backend. Qed.
#[local] Hint Resolve costs_spawn_backend : work.

Lemma costs_startBackend_probed n s x c k up :
  costs n s x -> costs (n + 125) s (startBackend_probed h c k up x).
Proof. work startBackend_probed. Qed.

(** [checkReady] after its answer: the next timer weighs what is left of
    the loop. *)
Lemma costs_checkReady_probed n s x c a up :
  costs n s x ->
  costs (n + (2 + 4 * (maxAttempts - a))) s (checkReady_probed h c a up x).
Proof.
  intros H. unfold checkReady_probed. cbv zeta. destruct up.
  - eapply costs_weaken; [eauto 10 with work|lia].
  - destruct (bool_decide (a < maxAttempts)) eqn:E; cbn [andb].
    + apply bool_decide_eq_true in E.
      eapply costs_weaken; [eauto 10 with work|].
      cbn [weight]. unfold maxAttempts in *. lia.
    + eapply costs_weaken; [eauto 10 with work|lia].
Qed.
#[local] Hint Resolve costs_startBackend_probed costs_checkReady_probed : work.

Lemma costs_checkBackendStatus_probed n s x c k up :
  costs n s x ->
  costs (n + (weight (OnProbe (InStatus k)) - 1)) s
    (checkBackendStatus_probed h c k up x).
Proof.
  intros H. unfold checkBackendStatus_probed. cbv zeta.
  assert (H1 : costs (n + 2) s (if tray x then updateTrayMenu x else x)).
  { eapply costs_weaken; [eauto with work|lia]. }
  revert H1. generalize (if tray x then updateTrayMenu x else x). intros x1 H1.
  destruct k;
    (eapply costs_weaken;
       [eauto 10 with work|cbn [weight]; unfold maxAttempts; lia]).
Qed.

Lemma costs_fire n s x o ms k :
  costs n s x -> costs (n + (weight (OnTimer ms k) - 1)) s (fire o k x).
Proof.
  intros H. destruct k as [[]| | |a| |]; cbn [fire]; unfold checkBackendStatus;
    (eapply costs_weaken;
       [eauto 10 with work|cbn [weight]; unfold maxAttempts; lia]).
Qed.

Lemma costs_probed n s x o k up :
  costs n s x -> costs (n + (weight (OnProbe k) - 1)) s (probed h o k up x).
Proof.
  intros H. destruct k as [k|]; cbn [probed].
  - apply costs_checkBackendStatus_probed, H.
  - unfold updateTrayMenu_probed.
    eapply costs_weaken; [eauto 10 with work|cbn [weight]; lia].
Qed.

Lemma weight_pos w : 1 <= weight w.
Proof. destruct w as [ms [[]| | | | |]|[[]|]|]; cbn [weight]; lia. Qed.

(** A callback that resumes a continuation leaves less work than there
    was. *)
Lemma rank_step s e s' :
  step h s e = Some s' -> resumes e = true -> rank s' < rank s.
Proof.
  destruct e as [w tr|cmd| |t0|t0 up|t0 r|p|p marker|p code|p|m v| | | |];
    cbn [step resumes]; try discriminate; intros Hstep _.
  - destruct (pending s !! t0) as [[[ms k|k|] o]|] eqn:Ht0; try discriminate.
    injection Hstep as <-. rewrite (rank_unqueue s t0 _ Ht0). cbn [what].
    pose proof (costs_fire 0 _ _ o ms k (costs_refl (unqueue t0 s))) as Hc.
    pose proof (weight_pos (OnTimer ms k)). unfold costs in Hc. lia.
  - destruct (pending s !! t0) as [[[ms k|k|] o]|] eqn:Ht0; try discriminate.
    injection Hstep as <-. rewrite (rank_unqueue s t0 _ Ht0). cbn [what].
    pose proof (costs_probed 0 _ _ o k up (costs_refl (unqueue t0 s))) as Hc.
    pose proof (weight_pos (OnProbe k)). unfold costs in Hc. lia.
  - destruct (pending s !! t0) as [[[ms k|k|] o]|] eqn:Ht0; try discriminate.
    injection Hstep as <-. rewrite (rank_unqueue s t0 _ Ht0). cbn [what weight].
    assert (Hc : costs 0 (unqueue t0 s) (updateTrayMenu_fallback o r (unqueue t0 s))).
    { unfold updateTrayMenu_fallback. cbv zeta. eauto with work. }
    unfold costs in Hc. lia.
Qed.

End WithHost.

(** Left to itself the supervisor comes to rest: as long as nothing comes
    from outside (no command, no tick of the interval, no event of a child
    or of the window), every callback that runs leaves less work, so that
    no more than [rank s] callbacks run from [s]: no timer loop of the
    code keeps itself going, the readiness loop included. *)
Theorem callbacks_run_out h s evs s' :
  run h s evs = Some s' -> Forall (λ e, resumes e = true) evs ->
  length evs + rank s' <= rank s.
Proof.
  revert s. induction evs as [|e evs IH]; intros s; cbn [run length].
  - intros [= <-] _. lia.
  - destruct (step h s e) as [s1|] eqn:He; [|discriminate].
    intros Hrun [Hr Hall]%Forall_cons.
    pose proof (rank_step h _ _ _ He Hr). specialize (IH _ Hrun Hall). lia.
Qed.

Lemma callbacks_run_out_witness :
  rank just_ready = 134 /\
  3 + rank (default init (run host_complete just_ready
                            [EvProbe 1 false; EvTimer 3; EvProbe 4 false]))
    <= rank just_ready.
Proof.
  split; [vm_compute; reflexivity|].
  apply (callbacks_run_out host_complete just_ready
           [EvProbe 1 false; EvTimer 3; EvProbe 4 false]).
  - vm_compute. reflexivity.
  - repeat constructor.
Defined.
End SupervisorFacts.

(** ** The window *)

Module WindowFacts.

Import Window.

Lemma minimizes_after_the_first tray win32 n :
  (DisplayBalloon ∉ (minimizes tray win32 n true).1) /\
  (minimizes tray win32 n true).2 = true.
Proof.
  induction n as [|n [IH1 IH2]]; cbn [minimizes]; [split; [inversion 1|reflexivity]|].
  unfold on_minimize. cbn [negb].
  destruct tray; destruct (minimizes _ win32 n true) as [ops' flag'];
    cbn [fst snd app] in *; (split; [|exact IH2]); [|exact IH1].
  intros [[=]|[[=]|H]%elem_of_cons]%elem_of_cons. exact (IH1 H).
Qed.


End WindowFacts.
